(** * ChatBot-sockets: the chat server of [server.py] and the integrity check
      of [chat_viewer.py], embedded and verified.

    Python [str] values are modelled by their UTF-8 byte sequence (a Rocq
    [string]): [str.encode()] is then the identity, ordering of strings by
    code point is the lexicographic ordering of the bytes, and the ASCII
    prefixes and separators the server looks for are single bytes. *)

From Stdlib Require Import NArith Ascii String List.
From stdpp Require Import base tactics option list gmap strings pretty.

Local Open Scope string_scope.
Local Open Scope list_scope.
Set Warnings "-register-all".

(** ** Python string operations used by the server *)
Module Str.

(** [s.startswith(p)] *)
Definition startswith (p s : string) : bool := String.prefix p s.

(** [s[n:]] *)
Fixpoint slice_from (n : nat) (s : string) : string :=
  match n, s with
  | O, _ => s
  | S _, EmptyString => EmptyString
  | S k, String _ r => slice_from k r
  end.

(** The characters for which [str.isspace()] holds, as UTF-8 sequences. *)
Definition whitespace : list (list ascii) :=
  map (fun l => map ascii_of_N l)
    ([ [9]; [10]; [11]; [12]; [13]; [28]; [29]; [30]; [31]; [32];
       [194; 133]; [194; 160]; [225; 154; 128];
       [226; 128; 128]; [226; 128; 129]; [226; 128; 130]; [226; 128; 131];
       [226; 128; 132]; [226; 128; 133]; [226; 128; 134]; [226; 128; 135];
       [226; 128; 136]; [226; 128; 137]; [226; 128; 138];
       [226; 128; 168]; [226; 128; 169]; [226; 128; 175];
       [226; 129; 159]; [227; 128; 128] ]%N).

Fixpoint drop_prefix (p l : list ascii) : option (list ascii) :=
  match p, l with
  | [], _ => Some l
  | _ :: _, [] => None
  | a :: p', b :: l' => if Ascii.eqb a b then drop_prefix p' l' else None
  end.

(** The rest of [l] after one leading whitespace character, if any. *)
Fixpoint drop_space (ws : list (list ascii)) (l : list ascii)
  : option (list ascii) :=
  match ws with
  | [] => None
  | w :: ws' =>
      match drop_prefix w l with
      | Some r => Some r
      | None => drop_space ws' l
      end
  end.

Fixpoint lstrip_go (fuel : nat) (ws : list (list ascii)) (l : list ascii)
  : list ascii :=
  match fuel with
  | O => l
  | S k =>
      match drop_space ws l with
      | Some r => lstrip_go k ws r
      | None => l
      end
  end.

Definition lstrip_bytes (l : list ascii) : list ascii :=
  lstrip_go (length l) whitespace l.

Definition rstrip_bytes (l : list ascii) : list ascii :=
  rev (lstrip_go (length l) (map (@rev ascii) whitespace) (rev l)).

(** [s.strip()] *)
Definition strip (s : string) : string :=
  string_of_list_ascii (rstrip_bytes (lstrip_bytes (list_ascii_of_string s))).

(** [s.split(' ', 1)]: one element when [s] has no space, otherwise the
    text before the first space and the text after it. *)
Fixpoint split_space (s : string) : string * option string :=
  match s with
  | EmptyString => (EmptyString, None)
  | String c r =>
      if Ascii.eqb c " "%char then (EmptyString, Some r)
      else let '(a, b) := split_space r in (String c a, b)
  end.

(** [sep.join(l)] *)
Definition join (sep : string) (l : list string) : string :=
  String.concat sep l.

(** [a < b] on [str] *)
Definition lt (a b : string) : bool :=
  match String.compare a b with Lt => true | _ => false end.

(** [sorted([a, b])]: the sort is stable, so the pair is swapped only
    when [b < a]. *)
Definition sorted2 (a b : string) : string * string :=
  if lt b a then (b, a) else (a, b).

End Str.

(** ** SHA-256 (FIPS 180-4), as computed by [hashlib.sha256(...).hexdigest()] *)
Module Sha256.
Local Open Scope N_scope.

Definition w32 : N := 4294967296.

Definition add32 (a b : N) : N := (a + b) mod w32.
Definition rotr (n x : N) : N :=
  N.lor (N.shiftr x n) ((N.shiftl x (32 - n)) mod w32).
Definition shr (n x : N) : N := N.shiftr x n.
Definition not32 (x : N) : N := w32 - 1 - x.

Definition Ch (x y z : N) : N := N.lxor (N.land x y) (N.land (not32 x) z).
Definition Maj (x y z : N) : N :=
  N.lxor (N.lxor (N.land x y) (N.land x z)) (N.land y z).
Definition Sigma0 (x : N) : N := N.lxor (N.lxor (rotr 2 x) (rotr 13 x)) (rotr 22 x).
Definition Sigma1 (x : N) : N := N.lxor (N.lxor (rotr 6 x) (rotr 11 x)) (rotr 25 x).
Definition sigma0 (x : N) : N := N.lxor (N.lxor (rotr 7 x) (rotr 18 x)) (shr 3 x).
Definition sigma1 (x : N) : N := N.lxor (N.lxor (rotr 17 x) (rotr 19 x)) (shr 10 x).

(** The constants come from the first primes: a round constant is the
    first 32 bits of the fractional part of the cube root of a prime, an
    initial hash word those of its square root. *)
Definition is_prime (p : nat) : bool :=
  forallb (fun d => negb (Nat.eqb (Nat.modulo p d) 0)) (seq 2 (p - 2)).

Definition primes : list N :=
  map N.of_nat (List.filter is_prime (seq 2 310)).

(** The integer cube root, one bit at a time from bit [bits - 1] down. *)
Fixpoint cube_root (bits : nat) (n r : N) : N :=
  match bits with
  | O => r
  | S k =>
      let c := r + 2 ^ N.of_nat k in
      if c * c * c <=? n then cube_root k n c else cube_root k n r
  end.

Definition K : list N :=
  Eval vm_compute in
    map (fun p => cube_root 40 (p * 2 ^ 96) 0 mod w32) (firstn 64 primes).

(** The eight working variables / the intermediate hash value. *)
Definition state : Type := N * N * N * N * N * N * N * N.

Definition H0 : state :=
  Eval vm_compute in
    match map (fun p => N.sqrt (p * 2 ^ 64) mod w32) (firstn 8 primes) with
    | [a; b; c; d; e; f; g; h] => (a, b, c, d, e, f, g, h)
    | _ => (0, 0, 0, 0, 0, 0, 0, 0)
    end.

(** Padding: a 1 bit, zeros up to 56 mod 64 bytes, the bit length on 64 bits. *)
Definition be_bytes (k : nat) (n : N) : list N :=
  map (fun i => (N.shiftr n (8 * N.of_nat i)) mod 256) (rev (seq 0 k)).

Definition pad (msg : list N) : list N :=
  let len := N.of_nat (length msg) in
  let zeros := N.to_nat ((119 - len mod 64) mod 64) in
  msg ++ [128] ++ repeat 0 zeros ++ be_bytes 8 (8 * len).

Fixpoint words (fuel : nat) (l : list N) : list N :=
  match fuel, l with
  | S k, a :: b :: c :: d :: r =>
      (((a * 256 + b) * 256 + c) * 256 + d) :: words k r
  | _, _ => []
  end.

Fixpoint blocks (fuel : nat) (ws : list N) : list (list N) :=
  match fuel, ws with
  | S k, _ :: _ => firstn 16 ws :: blocks k (skipn 16 ws)
  | _, _ => []
  end.

(** Message schedule; [w] holds the words computed so far, latest first. *)
Fixpoint schedule (n : nat) (w : list N) : list N :=
  match n with
  | O => rev w
  | S k =>
      let x := add32 (add32 (sigma1 (nth 1 w 0)) (nth 6 w 0))
                     (add32 (sigma0 (nth 14 w 0)) (nth 15 w 0)) in
      schedule k (x :: w)
  end.

Definition round (s : state) (kw : N * N) : state :=
  let '(a, b, c, d, e, f, g, h) := s in
  let '(k, w) := kw in
  let t1 := add32 (add32 (add32 h (Sigma1 e)) (add32 (Ch e f g) k)) w in
  let t2 := add32 (Sigma0 a) (Maj a b c) in
  (add32 t1 t2, a, b, c, add32 d t1, e, f, g).

Definition add_state (s t : state) : state :=
  let '(a, b, c, d, e, f, g, h) := t in
  let '(a0, b0, c0, d0, e0, f0, g0, h0) := s in
  (add32 a0 a, add32 b0 b, add32 c0 c, add32 d0 d,
   add32 e0 e, add32 f0 f, add32 g0 g, add32 h0 h).

Definition compress (s : state) (block : list N) : state :=
  let w := schedule 48 (rev block) in
  add_state s (fold_left round (combine K w) s).

Definition bytes_of (s : string) : list N :=
  map N_of_ascii (list_ascii_of_string s).

Definition digest (s : string) : state :=
  let p := pad (bytes_of s) in
  fold_left compress (blocks (length p) (words (length p) p)) H0.

(** The digest as one 256-bit number, most significant word first. *)
Definition digest_num (s : string) : N :=
  let '(a, b, c, d, e, f, g, h) := digest s in
  fold_left (fun acc x => acc * w32 + x) [a; b; c; d; e; f; g; h] 0.

Definition hex_digit (n : N) : ascii :=
  if n <? 10 then ascii_of_N (48 + n) else ascii_of_N (87 + n).

(** [k] lowercase hexadecimal digits of [n], most significant first. *)
Fixpoint hex (k : nat) (n : N) : string :=
  match k with
  | O => EmptyString
  | S k' => String (hex_digit ((N.shiftr n (4 * N.of_nat k')) mod 16)) (hex k' n)
  end.

Definition hexdigest (s : string) : string := hex 64 (digest_num s).

End Sha256.

(** ** Values read from and written to the log files *)

(** What [json.load] returns and [json.dump] accepts. An object is a Python
    [dict]: its keys are distinct and keep their order. *)
Inductive json : Type :=
  | JNull
  | JBool (b : bool)
  | JNum (n : Z)
  | JStr (s : string)
  | JArr (items : list json)
  | JObj (fields : list (string * json)).

(** The contents of a file: text that [json.load] decodes to a value, or
    text on which it raises [json.JSONDecodeError]. *)
Inductive file : Type :=
  | FJson (v : json)
  | FCorrupt (raw : string).

(** ** Insertion-ordered dictionaries (the Python [dict]) *)
Module Dict.
Section dict.
Context {K V : Type} `{EqDecision K}.

Fixpoint get (k : K) (d : list (K * V)) : option V :=
  match d with
  | [] => None
  | (k', v) :: r => if decide (k = k') then Some v else get k r
  end.

(** [k in d] *)
Definition mem (k : K) (d : list (K * V)) : bool :=
  match get k d with Some _ => true | None => false end.

(** [d[k] = v]: an existing key keeps its position, a new one goes last. *)
Fixpoint set (k : K) (v : V) (d : list (K * V)) : list (K * V) :=
  match d with
  | [] => [(k, v)]
  | (k', v') :: r =>
      if decide (k = k') then (k, v) :: r else (k', v') :: set k v r
  end.

(** [del d[k]] *)
Fixpoint del (k : K) (d : list (K * V)) : list (K * V) :=
  match d with
  | [] => []
  | (k', v') :: r =>
      if decide (k = k') then del k r else (k', v') :: del k r
  end.

Definition keys (d : list (K * V)) : list K := map fst d.
End dict.
End Dict.

(** ** The server state and its environment *)

(** A connection; two [socket] objects are equal when they are the same
    object. *)
Definition Sock : Type := nat.

(** The place in [server.py] a [socket.send] is made from. *)
Inductive site : Type :=
  | SPrompt          (* handle_client: "Enter your username: " *)
  | SReject          (* handle_client: "Username already taken..." *)
  | SJoin            (* handle_client: "<name> has joined the chat" *)
  | SWelcome         (* handle_client: the welcome text *)
  | SReply           (* handle_client: reply to a command *)
  | SEcho            (* handle_client: echo of a group message *)
  | SPublic          (* broadcast_message *)
  | SPrivate         (* send_private_message, to the target *)
  | SPrivateConfirm  (* send_private_message, confirmation *)
  | SPrivateError    (* send_private_message, error replies *)
  | SGroup           (* send_group_message *)
  | SAdded           (* add_to_group: notification of the added user *)
  | SNewAdmin        (* leave_group: notification of the new admin *)
  | SLeft.           (* remove_client: "<name> has left the chat" *)

#[global] Instance site_eq_dec : EqDecision site.
Proof. solve_decision. Defined.

(** What the server does to its sockets, in order. [ok = false] records a
    [send] that raised. *)
Inductive event : Type :=
  | EvSend (from : site) (to : Sock) (payload : string) (ok : bool)
  | EvClose (s : Sock).

Inductive exn : Type :=
  | FileNotFoundError
  | JSONDecodeError
  | AttributeError
  | KeyError
  | StopIteration
  | OSError            (* [open(path, 'w')] failed *)
  | BrokenPipeError    (* [socket.send] failed *)
  | ConnectionResetError (* [socket.recv] failed *)
  | RuntimeError.      (* dictionary changed size during iteration *)

Record server : Type := Server {
  clients : list (Sock * string);          (* self.clients *)
  client_names : list (string * Sock);     (* self.client_names *)
  groups : list (string * gset string);    (* self.groups *)
  group_admins : list (string * string);   (* self.group_admins *)
  files : gmap string file;                (* the files under server_logs/ *)
  trace : list event;                      (* socket operations so far *)
  ticks : nat                              (* readings of the clock so far *)
}.

(** What the code does not decide: which sends fail, what the clock shows,
    which paths cannot be opened for writing (a name with a slash in it
    points into a directory that does not exist), and the order in which a
    [set] is iterated. *)
Class Env : Type := {
  send_fails : nat -> Sock -> bool;
  clock : nat -> string;
  unwritable : string -> bool;
  set_iter : gset string -> list string;
  set_iter_perm : forall s, set_iter s ≡ₚ elements s
}.

Definition init : server :=
  Server [] [] [] [] ∅ [] 0.

Definition with_clients (c : list (Sock * string)) (σ : server) : server :=
  Server c (client_names σ) (groups σ) (group_admins σ) (files σ) (trace σ) (ticks σ).
Definition with_client_names (c : list (string * Sock)) (σ : server) : server :=
  Server (clients σ) c (groups σ) (group_admins σ) (files σ) (trace σ) (ticks σ).
Definition with_groups (g : list (string * gset string)) (σ : server) : server :=
  Server (clients σ) (client_names σ) g (group_admins σ) (files σ) (trace σ) (ticks σ).
Definition with_group_admins (a : list (string * string)) (σ : server) : server :=
  Server (clients σ) (client_names σ) (groups σ) a (files σ) (trace σ) (ticks σ).
Definition with_files (f : gmap string file) (σ : server) : server :=
  Server (clients σ) (client_names σ) (groups σ) (group_admins σ) f (trace σ) (ticks σ).
Definition with_trace (t : list event) (σ : server) : server :=
  Server (clients σ) (client_names σ) (groups σ) (group_admins σ) (files σ) t (ticks σ).
Definition with_ticks (n : nat) (σ : server) : server :=
  Server (clients σ) (client_names σ) (groups σ) (group_admins σ) (files σ) (trace σ) n.

(** ** Methods run in a state and exception monad *)

Inductive res (A : Type) : Type :=
  | Ok (a : A)
  | Raise (e : exn).
Arguments Ok {A} a.
Arguments Raise {A} e.

Definition M (A : Type) : Type := server -> res A * server.

Definition ret {A} (a : A) : M A := fun σ => (Ok a, σ).
Definition raise {A} (e : exn) : M A := fun σ => (Raise e, σ).
Definition bind {A B} (m : M A) (k : A -> M B) : M B :=
  fun σ => match m σ with
           | (Ok a, σ') => k a σ'
           | (Raise e, σ') => (Raise e, σ')
           end.
Definition gets {A} (f : server -> A) : M A := fun σ => (Ok (f σ), σ).
Definition modify (f : server -> server) : M unit := fun σ => (Ok tt, f σ).

(** [try: m  except: h] *)
Definition try_except {A} (m : M A) (h : M A) : M A :=
  fun σ => match m σ with
           | (Ok a, σ') => (Ok a, σ')
           | (Raise _, σ') => h σ'
           end.

(** [try: m  except E: h] for the exceptions [E] selected by [catches] *)
Definition try_catch {A} (catches : exn -> bool) (m : M A) (h : M A) : M A :=
  fun σ => match m σ with
           | (Ok a, σ') => (Ok a, σ')
           | (Raise e, σ') => if catches e then h σ' else (Raise e, σ')
           end.

(** [try: m  finally: f] *)
Definition try_finally {A} (m : M A) (f : M unit) : M A :=
  fun σ => match m σ with
           | (r, σ') =>
               match f σ' with
               | (Ok _, σ'') => (r, σ'')
               | (Raise e, σ'') => (Raise e, σ'')
               end
           end.

(** [d[k]] *)
Definition lookup_or_raise {A} (o : option A) : M A :=
  match o with Some a => ret a | None => raise KeyError end.

Notation "'let*' x ':=' m 'in' k" := (bind m (fun x => k))
  (at level 10, x pattern, m at level 100, k at level 200).
Notation "m ';;' k" := (bind m (fun _ => k))
  (at level 100, k at level 200, right associativity).

(** [for x in l: body x], for a body that leaves the iterated container alone *)
Fixpoint for_each {A} (l : list A) (body : A -> M unit) : M unit :=
  match l with
  | [] => ret tt
  | x :: r => body x ;; for_each r body
  end.

(** [for k, v in self.clients.items(): body k v], for a body that may delete
    from [self.clients]: every step of the dictionary iterator first
    compares the dictionary's size with the size it had when the loop
    began, and raises [RuntimeError] when it differs. [items] is what is
    left of the entries the loop began with. *)
Fixpoint for_clients (used : nat) (items : list (Sock * string))
    (body : Sock -> string -> M unit) : M unit :=
  let* size := gets (fun σ => length (clients σ)) in
  if negb (Nat.eqb size used) then raise RuntimeError
  else match items with
       | [] => ret tt
       | (k, v) :: r => body k v ;; for_clients used r body
       end.

(** ** The methods of [ChatServer] *)
Section ChatServer.
Context `{Env}.

(** [sock.send(payload.encode('utf-8'))] *)
Definition send (from : site) (to : Sock) (payload : string) : M unit :=
  fun σ =>
    if send_fails (length (trace σ)) to
    then (Raise BrokenPipeError,
          with_trace (trace σ ++ [EvSend from to payload false]) σ)
    else (Ok tt, with_trace (trace σ ++ [EvSend from to payload true]) σ).

(** [sock.close()] *)
Definition close (s : Sock) : M unit :=
  modify (fun σ => with_trace (trace σ ++ [EvClose s]) σ).

(** [datetime.datetime.now().strftime("%Y-%m-%d %H:%M:%S")] *)
Definition now : M string :=
  fun σ => (Ok (clock (ticks σ)), with_ticks (S (ticks σ)) σ).

(** [with open(filename, 'r') as f: json.load(f)] *)
Definition json_load (filename : string) : M json :=
  let* fs := gets files in
  match fs !! filename with
  | None => raise FileNotFoundError
  | Some (FCorrupt _) => raise JSONDecodeError
  | Some (FJson v) => ret v
  end.

(** [with open(filename, 'w') as f: json.dump(v, f, indent=2)] *)
Definition json_dump (filename : string) (v : json) : M unit :=
  if unwritable filename then raise OSError
  else modify (fun σ => with_files (<[filename := FJson v]> (files σ)) σ).

Definition hash_message (message : string) : string :=
  Sha256.hexdigest message.

(** A record of a log, with the six fields of [chat_entry]. *)
Definition entry (timestamp sender receiver message message_hash message_type
    : string) : json :=
  JObj [ ("timestamp", JStr timestamp);
         ("sender", JStr sender);
         ("receiver", JStr receiver);
         ("message", JStr message);
         ("message_hash", JStr message_hash);
         ("type", JStr message_type) ].

Definition chat_entry (timestamp sender receiver message message_type : string)
  : json :=
  entry timestamp sender receiver message (hash_message message) message_type.

Definition group_log (receiver : string) : string :=
  "server_logs/groups/" +:+ receiver +:+ "_group.json".

Definition conversation_log (sender receiver : string) : string :=
  let '(p0, p1) := Str.sorted2 sender receiver in
  "server_logs/" +:+ p0 +:+ "_" +:+ p1 +:+ "_conversation.json".

Definition log_filename (sender receiver message_type : string) : string :=
  if String.eqb message_type "group" then group_log receiver
  else conversation_log sender receiver.

(** [history.append(chat_entry)] on whatever [json.load] returned *)
Definition history_append (history entry : json) : M json :=
  match history with
  | JArr items => ret (JArr (items ++ [entry]))
  | _ => raise AttributeError
  end.

Definition is_FileNotFoundError (e : exn) : bool :=
  match e with FileNotFoundError => true | _ => false end.

Definition save_chat_history (sender receiver message message_type : string)
  : M unit :=
  let* timestamp := now in
  let entry := chat_entry timestamp sender receiver message message_type in
  let filename := log_filename sender receiver message_type in
  let* history :=
    try_catch is_FileNotFoundError (json_load filename) (ret (JArr [])) in
  let* history := history_append history entry in
  json_dump filename history.

Definition group_info_file (group_name : string) : string :=
  "server_logs/groups/" +:+ group_name +:+ "_info.json".

Definition save_group_info (group_name : string) : M unit :=
  let* admin := bind (gets group_admins)
                  (fun a => lookup_or_raise (Dict.get group_name a)) in
  let* members := bind (gets groups)
                  (fun g => lookup_or_raise (Dict.get group_name g)) in
  let* created := now in
  let group_info :=
    JObj [ ("group_name", JStr group_name);
           ("admin", JStr admin);
           ("members", JArr (map JStr (set_iter members)));
           ("created_date", JStr created) ] in
  json_dump (group_info_file group_name) group_info.

Definition create_group (admin_name group_name : string) : M string :=
  let* gs := gets groups in
  if Dict.mem group_name gs
  then ret ("Group '" +:+ group_name +:+ "' already exists")
  else
    modify (fun σ => with_groups (Dict.set group_name {[admin_name]} (groups σ)) σ) ;;
    modify (fun σ => with_group_admins
                       (Dict.set group_name admin_name (group_admins σ)) σ) ;;
    save_group_info group_name ;;
    ret ("Group '" +:+ group_name +:+ "' created successfully. You are the admin.").

(** The loop of [send_group_message]; the result is [sent_count]. *)
Fixpoint group_fanout (members : list string) (sender_name full_message : string)
    (sent_count : nat) : M nat :=
  match members with
  | [] => ret sent_count
  | member :: rest =>
      let* names := gets client_names in
      if Dict.mem member names && negb (String.eqb member sender_name)
      then
        let* sent_count :=
          try_except
            (let* member_socket := lookup_or_raise (Dict.get member names) in
             send SGroup member_socket full_message ;;
             ret (S sent_count))
            (ret sent_count) in
        group_fanout rest sender_name full_message sent_count
      else group_fanout rest sender_name full_message sent_count
  end.

Definition send_group_message (message group_name sender_name : string)
  : M string :=
  let* gs := gets groups in
  match Dict.get group_name gs with
  | None => ret ("Group '" +:+ group_name +:+ "' does not exist")
  | Some members =>
      if negb (String.eqb sender_name "SYSTEM")
         && negb (bool_decide (sender_name ∈ members))
      then ret ("You are not a member of group '" +:+ group_name +:+ "'")
      else
        let full_message :=
          if String.eqb sender_name "SYSTEM"
          then "[" +:+ group_name +:+ "] " +:+ message
          else "[" +:+ group_name +:+ "] " +:+ sender_name +:+ ": " +:+ message in
        let* sent_count :=
          group_fanout (set_iter members) sender_name full_message 0 in
        (if negb (String.eqb sender_name "SYSTEM")
         then save_chat_history sender_name group_name message "group"
         else ret tt) ;;
        ret ("Message sent to " +:+ pretty sent_count +:+ " group members")
  end.

Definition add_to_group (admin_name group_name username : string) : M string :=
  let* gs := gets groups in
  match Dict.get group_name gs with
  | None => ret ("Group '" +:+ group_name +:+ "' does not exist")
  | Some members =>
      let* admin := bind (gets group_admins)
                      (fun a => lookup_or_raise (Dict.get group_name a)) in
      if negb (String.eqb admin admin_name)
      then ret ("Only the admin can add members to '" +:+ group_name +:+ "'")
      else
        let* names := gets client_names in
        match Dict.get username names with
        | None => ret ("User '" +:+ username +:+ "' is not online")
        | Some user_socket =>
            if bool_decide (username ∈ members)
            then ret ("User '" +:+ username +:+ "' is already in the group")
            else
              modify (fun σ => with_groups
                        (Dict.set group_name (members ∪ {[username]}) (groups σ)) σ) ;;
              save_group_info group_name ;;
              try_except
                (send SAdded user_socket
                   ("You have been added to group '" +:+ group_name +:+ "' by "
                    +:+ admin_name))
                (ret tt) ;;
              send_group_message
                (username +:+ " has been added to the group by " +:+ admin_name)
                group_name "SYSTEM" ;;
              ret ("User '" +:+ username +:+ "' added to group '" +:+ group_name +:+ "'")
        end
  end.

(** [next(iter(s))] *)
Definition set_first (s : gset string) : M string :=
  match set_iter s with
  | x :: _ => ret x
  | [] => raise StopIteration
  end.

Definition leave_group (username group_name : string) : M string :=
  let* gs := gets groups in
  match Dict.get group_name gs with
  | None => ret ("Group '" +:+ group_name +:+ "' does not exist")
  | Some members =>
      if negb (bool_decide (username ∈ members))
      then ret ("You are not a member of group '" +:+ group_name +:+ "'")
      else
        let remaining := members ∖ {[username]} in
        modify (fun σ => with_groups (Dict.set group_name remaining (groups σ)) σ) ;;
        let* admin := bind (gets group_admins)
                        (fun a => lookup_or_raise (Dict.get group_name a)) in
        (if String.eqb admin username && negb (bool_decide (remaining = ∅))
         then
           let* new_admin := set_first remaining in
           modify (fun σ => with_group_admins
                              (Dict.set group_name new_admin (group_admins σ)) σ) ;;
           let* names := gets client_names in
           match Dict.get new_admin names with
           | Some admin_socket =>
               try_except
                 (send SNewAdmin admin_socket
                    ("You are now the admin of group '" +:+ group_name +:+ "'"))
                 (ret tt)
           | None => ret tt
           end
         else ret tt) ;;
        if bool_decide (remaining = ∅)
        then
          modify (fun σ => with_groups (Dict.del group_name (groups σ)) σ) ;;
          modify (fun σ => with_group_admins (Dict.del group_name (group_admins σ)) σ) ;;
          modify (fun σ => with_files (delete (group_info_file group_name) (files σ)) σ) ;;
          ret ("Left group '" +:+ group_name
               +:+ "'. Group was deleted as it became empty.")
        else
          save_group_info group_name ;;
          send_group_message (username +:+ " has left the group") group_name "SYSTEM" ;;
          ret ("Left group '" +:+ group_name +:+ "'")
  end.

Definition nl : string := String (ascii_of_nat 10) EmptyString.

Fixpoint map_m {A B} (f : A -> M B) (l : list A) : M (list B) :=
  match l with
  | [] => ret []
  | x :: r => let* y := f x in let* ys := map_m f r in ret (y :: ys)
  end.

Definition list_groups (username : string) : M string :=
  let* gs := gets groups in
  let user_groups :=
    map fst (filter (fun gm => username ∈ gm.2) gs) in
  match user_groups with
  | _ :: _ =>
      let* groups_info :=
        map_m (fun group =>
                 let* admin := bind (gets group_admins)
                                 (fun a => lookup_or_raise (Dict.get group a)) in
                 let* members := lookup_or_raise (Dict.get group gs) in
                 ret (group +:+ " (Admin: " +:+ admin +:+ ", Members: "
                      +:+ pretty (size members) +:+ ")"))
              user_groups in
      ret ("Your groups:" +:+ nl +:+ Str.join nl groups_info)
  | [] => ret "You are not a member of any groups"
  end.

Definition list_group_members (username group_name : string) : M string :=
  let* gs := gets groups in
  match Dict.get group_name gs with
  | None => ret ("Group '" +:+ group_name +:+ "' does not exist")
  | Some members =>
      if negb (bool_decide (username ∈ members))
      then ret ("You are not a member of group '" +:+ group_name +:+ "'")
      else
        let* admin := bind (gets group_admins)
                        (fun a => lookup_or_raise (Dict.get group_name a)) in
        let member_list :=
          map (fun member => if String.eqb member admin
                             then member +:+ " (Admin)" else member)
              (set_iter members) in
        ret ("Members of '" +:+ group_name +:+ "':" +:+ nl
             +:+ Str.join nl member_list)
  end.

Definition remove_client (client_socket : Sock) : M unit :=
  let* cl := gets clients in
  match Dict.get client_socket cl with
  | None => ret tt
  | Some client_name =>
      modify (fun σ => with_clients (Dict.del client_socket (clients σ)) σ) ;;
      let* names := gets client_names in
      (if Dict.mem client_name names
       then modify (fun σ => with_client_names
                               (Dict.del client_name (client_names σ)) σ)
       else ret tt) ;;
      let* cl := gets clients in
      for_each (Dict.keys cl)
        (fun socket_client =>
           try_except
             (send SLeft socket_client (client_name +:+ " has left the chat"))
             (ret tt))
  end.

(** The body of the loop of [broadcast_message]. *)
Definition broadcast_to (sender_name message : string) (sender_socket : Sock)
    (client_socket : Sock) (client_name : string) : M unit :=
  if negb (Nat.eqb client_socket sender_socket)
  then
    try_except
      (send SPublic client_socket (sender_name +:+ ": " +:+ message) ;;
       save_chat_history sender_name client_name message "direct")
      (remove_client client_socket)
  else ret tt.

Definition broadcast_message (message : string) (sender_socket : Sock) : M unit :=
  let* cl := gets clients in
  let sender_name := default "Unknown" (Dict.get sender_socket cl) in
  for_clients (length cl) cl (broadcast_to sender_name message sender_socket).

Definition send_private_message (message : string) (sender_socket : Sock)
    (target_name : string) : M unit :=
  let* cl := gets clients in
  let sender_name := default "Unknown" (Dict.get sender_socket cl) in
  let* names := gets client_names in
  match Dict.get target_name names with
  | Some target_socket =>
      try_except
        (send SPrivate target_socket
           ("[Private] " +:+ sender_name +:+ ": " +:+ message) ;;
         send SPrivateConfirm sender_socket
           ("[Private to " +:+ target_name +:+ "]: " +:+ message) ;;
         save_chat_history sender_name target_name message "direct")
        (send SPrivateError sender_socket
           ("Error: Could not send message to " +:+ target_name))
  | None =>
      send SPrivateError sender_socket
        ("Error: User " +:+ target_name +:+ " not found")
  end.

(** *** [handle_client] *)

Definition welcome_msg (username : string) : string :=
  "Welcome to the chat, " +:+ username +:+ "!
Commands:
- Type normally for public messages
- Use @username message for private messages
- Use #groupname message for group messages
- /creategroup groupname - Create a new group
- /addtogroup groupname username - Add user to group (admin only)
- /leavegroup groupname - Leave a group
- /listgroups - List your groups
- /groupmembers groupname - List group members
- /users - See online users
- /quit - Leave chat".

(** From the prompt to the welcome text, given what [recv] returned for
    the name. The result is the registered name, or [None] when the name
    was taken and the method returns. *)
Definition handshake (client_socket : Sock) (data : string) : M (option string) :=
  send SPrompt client_socket "Enter your username: " ;;
  let username := Str.strip data in
  let* names := gets client_names in
  if Dict.mem username names
  then
    send SReject client_socket "Username already taken. Please try again." ;;
    close client_socket ;;
    ret None
  else
    modify (fun σ => with_clients (Dict.set client_socket username (clients σ)) σ) ;;
    modify (fun σ => with_client_names
                       (Dict.set username client_socket (client_names σ)) σ) ;;
    let* cl := gets clients in
    for_each (Dict.keys cl)
      (fun socket_client =>
         if negb (Nat.eqb socket_client client_socket)
         then try_except
                (send SJoin socket_client (username +:+ " has joined the chat"))
                (ret tt)
         else ret tt) ;;
    send SWelcome client_socket (welcome_msg username) ;;
    ret (Some username).

Inductive flow : Type := Continue | Break.

(** One turn of the [while True] loop, given the decoded text [recv]
    returned. *)
Definition handle_message (client_socket : Sock) (username message : string)
  : M flow :=
  if String.eqb message EmptyString then ret Break
  else if Str.startswith "/quit" message then ret Break
  else if Str.startswith "/users" message then
    let* names := gets client_names in
    send SReply client_socket
      ("Online users: " +:+ Str.join ", " (Dict.keys names)) ;;
    ret Continue
  else if Str.startswith "/creategroup " message then
    let group_name := Str.strip (Str.slice_from 13 message) in
    (if negb (String.eqb group_name EmptyString)
     then let* response := create_group username group_name in
          send SReply client_socket response
     else send SReply client_socket "Usage: /creategroup groupname") ;;
    ret Continue
  else if Str.startswith "/addtogroup " message then
    (match Str.split_space (Str.slice_from 12 message) with
     | (group_name, Some target_user) =>
         let* response :=
           add_to_group username (Str.strip group_name) (Str.strip target_user) in
         send SReply client_socket response
     | (_, None) =>
         send SReply client_socket "Usage: /addtogroup groupname username"
     end) ;;
    ret Continue
  else if Str.startswith "/leavegroup " message then
    let group_name := Str.strip (Str.slice_from 12 message) in
    (if negb (String.eqb group_name EmptyString)
     then let* response := leave_group username group_name in
          send SReply client_socket response
     else send SReply client_socket "Usage: /leavegroup groupname") ;;
    ret Continue
  else if Str.startswith "/listgroups" message then
    let* response := list_groups username in
    send SReply client_socket response ;;
    ret Continue
  else if Str.startswith "/groupmembers " message then
    let group_name := Str.strip (Str.slice_from 14 message) in
    (if negb (String.eqb group_name EmptyString)
     then let* response := list_group_members username group_name in
          send SReply client_socket response
     else send SReply client_socket "Usage: /groupmembers groupname") ;;
    ret Continue
  else if Str.startswith "@" message then
    (match Str.split_space (Str.slice_from 1 message) with
     | (target_user, Some private_msg) =>
         send_private_message private_msg client_socket target_user
     | (_, None) =>
         send SReply client_socket
           "Invalid private message format. Use: @username message"
     end) ;;
    ret Continue
  else if Str.startswith "#" message then
    (match Str.split_space (Str.slice_from 1 message) with
     | (group_name, Some group_msg) =>
         let* response := send_group_message group_msg group_name username in
         send SEcho client_socket
           ("[" +:+ group_name +:+ "] " +:+ username +:+ ": " +:+ group_msg)
     | (_, None) =>
         send SReply client_socket
           "Invalid group message format. Use: #groupname message"
     end) ;;
    ret Continue
  else
    broadcast_message message client_socket ;;
    ret Continue.

(** What a [recv] gives: bytes (none when the peer closed) or an error. *)
Inductive recv : Type :=
  | Data (text : string)
  | Failed.

(** The [while True] loop over the successive results of [recv]; when the
    list ends the peer has closed. *)
Fixpoint serve (client_socket : Sock) (username : string) (inputs : list recv)
  : M unit :=
  match inputs with
  | [] => ret tt
  | Failed :: _ => raise ConnectionResetError
  | Data message :: rest =>
      let* f := handle_message client_socket username message in
      match f with
      | Break => ret tt
      | Continue => serve client_socket username rest
      end
  end.

(** The [finally] block. *)
Definition teardown (client_socket : Sock) : M unit :=
  remove_client client_socket ;;
  close client_socket.

Definition handle_client (client_socket : Sock) (inputs : list recv) : M unit :=
  try_finally
    (try_except
       (match inputs with
        | Failed :: _ =>
            send SPrompt client_socket "Enter your username: " ;;
            raise ConnectionResetError
        | _ =>
            let data := match inputs with Data d :: _ => d | _ => EmptyString end in
            let* registered := handshake client_socket data in
            match registered with
            | Some username => serve client_socket username (tail inputs)
            | None => ret tt
            end
        end)
       (ret tt))
    (teardown client_socket).

(** *** The states the server can reach

    Each connection runs [handle_client] in a thread of its own. A step of
    the server is one uninterrupted piece of one thread: a handshake on a
    newly accepted socket, one turn of a connection's loop, the [finally]
    block of a connection, or a direct call of a method. A turn is taken
    with whatever socket and name the thread holds; a step that raises
    leaves the state it had built up. *)
Inductive op : Type :=
  | OpHandshake (client_socket : Sock) (data : string)
  | OpMessage (client_socket : Sock) (username message : string)
  | OpTeardown (client_socket : Sock)
  | OpCreateGroup (admin_name group_name : string)
  | OpAddToGroup (admin_name group_name username : string)
  | OpLeaveGroup (username group_name : string)
  | OpSendGroup (message group_name sender_name : string)
  | OpBroadcast (message : string) (sender_socket : Sock)
  | OpPrivate (message : string) (sender_socket : Sock) (target_name : string)
  | OpRemoveClient (client_socket : Sock).

Definition run (o : op) (σ : server) : server :=
  match o with
  | OpHandshake s d => (handshake s d σ).2
  | OpMessage s u m => (handle_message s u m σ).2
  | OpTeardown s => (teardown s σ).2
  | OpCreateGroup a g => (create_group a g σ).2
  | OpAddToGroup a g u => (add_to_group a g u σ).2
  | OpLeaveGroup u g => (leave_group u g σ).2
  | OpSendGroup m g s => (send_group_message m g s σ).2
  | OpBroadcast m s => (broadcast_message m s σ).2
  | OpPrivate m s t => (send_private_message m s t σ).2
  | OpRemoveClient s => (remove_client s σ).2
  end.

(** A handshake is made on a socket that [accept] has just returned, which
    is not a key of [self.clients]. *)
Definition enabled (o : op) (σ : server) : Prop :=
  match o with
  | OpHandshake s _ => Dict.get s (clients σ) = None
  | _ => True
  end.

Inductive reachable : server -> Prop :=
  | reach_init : reachable init
  | reach_step σ o : reachable σ -> enabled o σ -> reachable (run o σ).

End ChatServer.

(** ** [ChatViewer.verify_message_integrity] of [chat_viewer.py] *)

(** [message_data.get('message_hash', '') == sha256(message_data['message'])],
    and [False] whenever evaluating that raises. *)
Definition verify_message_integrity (message_data : json) : bool :=
  match message_data with
  | JObj fields =>
      match Dict.get "message" fields with
      | Some (JStr message) =>
          match Dict.get "message_hash" fields with
          | Some (JStr original_hash) =>
              String.eqb original_hash (Sha256.hexdigest message)
          | Some _ => false
          | None => String.eqb EmptyString (Sha256.hexdigest message)
          end
      | _ => false
      end
  | _ => false
  end.

(** ** Properties of states and traces *)

(** Every group of the registry has an admin, who is one of its members. *)
Definition group_inv (σ : server) : Prop :=
  forall g ms, Dict.get g (groups σ) = Some ms ->
    exists a, Dict.get g (group_admins σ) = Some a /\ a ∈ ms.

(** [self.clients] and [self.client_names] are inverse to each other. *)
Definition session_inv (σ : server) : Prop :=
  NoDup (Dict.keys (clients σ))
  /\ (forall s n, Dict.get s (clients σ) = Some n ->
                  Dict.get n (client_names σ) = Some s)
  /\ (forall n s, Dict.get n (client_names σ) = Some s ->
                  Dict.get s (clients σ) = Some n).

(** The socket operations between state [σ] and a later state [σ']. *)
Definition emitted (σ σ' : server) : list event :=
  drop (length (trace σ)) (trace σ').

Definition is_send (from : site) (to : Sock) (e : event) : bool :=
  match e with
  | EvSend f t _ _ =>
      bool_decide (f = from) && Nat.eqb t to
  | EvClose _ => false
  end.

(** Whether a send from [from] to [to] was made, successfully or not. *)
Definition attempted (from : site) (to : Sock) (evs : list event) : bool :=
  existsb (is_send from to) evs.

(** The [created_date] field of a group's metadata file. *)
Definition created_date (f : file) : option string :=
  match f with
  | FJson (JObj fields) =>
      match Dict.get "created_date" fields with
      | Some (JStr d) => Some d
      | _ => None
      end
  | _ => None
  end.

(** The 256-bit digests are the numbers below [two256]. *)
Definition two256 : N := Eval cbv in (2 ^ 256)%N.

(** The working variables are 32-bit words. *)
Definition small (s : Sha256.state) : Prop :=
  let '(a, b, c, d, e, f, g, h) := s in
  (a < Sha256.w32 /\ b < Sha256.w32 /\ c < Sha256.w32 /\ d < Sha256.w32 /\
   e < Sha256.w32 /\ f < Sha256.w32 /\ g < Sha256.w32 /\ h < Sha256.w32)%N.

(** A string of [n] letters. *)
Fixpoint letters (n : nat) : string :=
  match n with O => EmptyString | S k => String "a" (letters k) end.

(** *** Environments and states to run the code in *)

Definition second (n : nat) : string := "2024-05-01 10:00:0" +:+ pretty (n `mod` 10).

(** Every send succeeds, every path is writable, and the clock advances by
    a second at each reading. *)
Definition calm : Env :=
  {| send_fails := fun _ _ => false;
     clock := second;
     unwritable := fun _ => false;
     set_iter := elements;
     set_iter_perm := fun s => Permutation_refl (elements s) |}.

(** As [calm], with every send to socket 2 failing. *)
Definition bob_down : Env :=
  {| send_fails := fun _ s => Nat.eqb s 2;
     clock := second;
     unwritable := fun _ => false;
     set_iter := elements;
     set_iter_perm := fun s => Permutation_refl (elements s) |}.

(** As [calm], with the sends to socket 2 failing from the ninth socket
    operation on. *)
Definition bob_drops : Env :=
  {| send_fails := fun n s => Nat.eqb s 2 && Nat.leb 8 n;
     clock := second;
     unwritable := fun _ => false;
     set_iter := elements;
     set_iter_perm := fun s => Permutation_refl (elements s) |}.

(** alice and bob connect, alice creates the group g1 and adds bob to it. *)
Definition two_in_group `{Env} : server :=
  run (OpAddToGroup "alice" "g1" "bob")
    (run (OpCreateGroup "alice" "g1")
       (run (OpHandshake 2 "bob")
          (run (OpHandshake 1 "alice") init))).

(** As [calm], with a clock that is read twice within the same second. *)
Definition same_second : Env :=
  {| send_fails := fun _ _ => false;
     clock := fun _ => "2024-05-01 10:00:00";
     unwritable := fun _ => false;
     set_iter := elements;
     set_iter_perm := fun s => Permutation_refl (elements s) |}.

(** alice, bob and carol connected on sockets 1, 2 and 3, in that order;
    the record of socket operations starts here. *)
Definition three_online : server :=
  Server [(1, "alice"); (2, "bob"); (3, "carol")]
         [("alice", 1); ("bob", 2); ("carol", 3)]
         [] [] ∅ [] 0.

(** [three_online] with a conversation log of alice and bob that is not JSON. *)
Definition corrupted_log : server :=
  with_files {[ "server_logs/alice_bob_conversation.json" := FCorrupt "[{" ]}
    three_online.

(** *** Relating the state before a method to the state after it *)

(** Every run of [m] takes a state to one related to it by [R], whether it
    returns or raises. *)
Definition rel {A} (R : relation server) (m : M A) : Prop :=
  forall σ, R σ (m σ).2.

(** The relation of a state in which [I] holds to any state in which it
    still does. *)
Definition pres (I : server -> Prop) : relation server :=
  fun σ σ' => I σ -> I σ'.

(** Relations that do not look at the clock or the files. *)
Class Quiet (R : relation server) : Prop := {
  quiet_preorder :: PreOrder R;
  frame_ticks : forall σ n, R σ (with_ticks n σ);
  frame_files : forall σ f, R σ (with_files f σ)
}.

(** Relations that do not look at the trace. *)
Class Sends (R : relation server) : Prop := {
  sends_preorder :: PreOrder R;
  frame_trace : forall σ t, R σ (with_trace t σ)
}.

(** Relations that look at the registries only. *)
Class Frame (R : relation server) : Prop := {
  frame_quiet :: Quiet R;
  frame_sends :: Sends R
}.

(** Relations that moreover do not look at the session registry. *)
Class GroupFrame (R : relation server) : Prop := {
  group_frame :: Frame R;
  frame_clients : forall σ c, R σ (with_clients c σ);
  frame_client_names : forall σ c, R σ (with_client_names c σ)
}.

(** Relations that do not look at the group registry. *)
Class SessionFrame (R : relation server) : Prop := {
  session_frame :: Frame R;
  frame_groups : forall σ g, R σ (with_groups g σ);
  frame_group_admins : forall σ a, R σ (with_group_admins a σ)
}.

(** The state after has the trace of the state before, followed by events
    that all satisfy [Q]; nothing else is looked at. *)
Definition emits (Q : event -> Prop) : relation server :=
  fun σ σ' => exists evs, trace σ' = trace σ ++ evs /\ Forall Q evs.

(** Only the trace has grown: the files, the clock and the registries are
    untouched. *)
Definition sends_only : relation server :=
  fun σ σ' => files σ' = files σ /\ ticks σ' = ticks σ
              /\ groups σ' = groups σ /\ group_admins σ' = group_admins σ
              /\ clients σ' = clients σ /\ client_names σ' = client_names σ.

(** [m] returns [b] and does nothing but send. *)
Definition replies {A} (b : A) (m : M A) : Prop :=
  forall σ, (m σ).1 = Ok b /\ sends_only σ (m σ).2.

(** [m] returns (it never raises) and does nothing but send. *)
Definition harmless {A} (m : M A) : Prop :=
  forall σ, (exists a, (m σ).1 = Ok a) /\ sends_only σ (m σ).2.

(** The event is a send to socket [s]. *)
Definition to_socket (s : Sock) (e : event) : Prop :=
  match e with
  | EvSend _ t _ _ => t = s
  | EvClose _ => False
  end.

(** The event is a send made from [f]. *)
Definition sent_from (f : site) (e : event) : Prop :=
  match e with
  | EvSend f' _ _ _ => f' = f
  | EvClose _ => False
  end.

(** No name but [sender_name] is registered with socket [sender_socket]. *)
Definition only_name_of (sender_socket : Sock) (sender_name : string)
    (names : list (string * Sock)) : Prop :=
  forall m s, m <> sender_name -> Dict.get m names = Some s -> s <> sender_socket.

(** [emits Q], with [self.client_names] untouched. *)
Definition emits_keeping_names (Q : event -> Prop) : relation server :=
  fun σ σ' => client_names σ' = client_names σ /\ emits Q σ σ'.

(** Nothing is sent and the session registry is untouched. *)
Definition quietly : relation server :=
  fun σ σ' => trace σ' = trace σ /\ clients σ' = clients σ
              /\ client_names σ' = client_names σ.

(** The list [save_chat_history] appends to, when reading the log succeeds:
    empty for a file that does not exist, the array of a file that holds
    one. *)
Definition history_of (f : option file) : option (list json) :=
  match f with
  | None => Some []
  | Some (FJson (JArr items)) => Some items
  | Some _ => None
  end.

(** What [send] returns: nothing, or the exception of a failed send. *)
Definition sent (ok : bool) : res unit :=
  if ok then Ok tt else Raise BrokenPipeError.

(** Outcomes of the loop of [broadcast_message], given the events [evs] it
    emitted: either no send has failed and no session was removed, or the
    session on socket [cs], of name [name], was removed by [remove_client]
    and the others were sent its departure. *)
Definition kept (σ σ' : server) (evs : list event) : Prop :=
  clients σ' = clients σ
  /\ forall c p, EvSend SPublic c p false ∉ evs.

Definition dropped (σ σ' : server) (evs : list event) (cs : Sock) (name : string)
  : Prop :=
  Dict.get cs (clients σ) = Some name
  /\ clients σ' = Dict.del cs (clients σ)
  /\ Dict.get name (client_names σ') = None
  /\ (forall c p, EvSend SPublic c p false ∈ evs -> c = cs)
  /\ (forall s, s ∈ Dict.keys (clients σ') ->
        exists ok, EvSend SLeft s (name +:+ " has left the chat") ok ∈ evs).

(** *** Fan-outs and parsed commands *)

(** One send from [from] to each socket of [targets] in turn, the first of
    them being socket operation number [t]: a send that fails is recorded
    and the next one is made all the same. *)
Fixpoint fan `{Env} (from : site) (payload : string) (t : nat) (targets : list Sock)
  : list event :=
  match targets with
  | [] => []
  | s :: rest =>
      EvSend from s payload (negb (send_fails t s)) :: fan from payload (S t) rest
  end.

(** The number of sends of [evs] that succeeded. *)
Definition delivered (evs : list event) : nat :=
  length (List.filter (fun e => match e with
                                | EvSend _ _ _ ok => ok
                                | EvClose _ => false
                                end) evs).

(** The sockets [send_group_message] sends to: those of the members that
    are online, the sender left out, in the order of iteration. *)
Fixpoint recipients (names : list (string * Sock)) (sender_name : string)
    (members : list string) : list Sock :=
  match members with
  | [] => []
  | member :: rest =>
      match Dict.get member names with
      | Some s =>
          if String.eqb member sender_name then recipients names sender_name rest
          else s :: recipients names sender_name rest
      | None => recipients names sender_name rest
      end
  end.

(** The text has no space in it. *)
Definition no_space (s : string) : bool :=
  forallb (fun c => negb (Ascii.eqb c " "%char)) (list_ascii_of_string s).

(** The group registry is untouched. *)
Definition same_groups : relation server :=
  fun σ σ' => groups σ' = groups σ /\ group_admins σ' = group_admins σ.

(** The session registry is untouched. *)
Definition same_sessions : relation server :=
  fun σ σ' => clients σ' = clients σ /\ client_names σ' = client_names σ.

(** The prefixes [handle_client] looks for, in the order it does. *)
Definition command_prefixes : list string :=
  [ "/quit"; "/users"; "/creategroup "; "/addtogroup "; "/leavegroup ";
    "/listgroups"; "/groupmembers "; "@"; "#" ].

(** The log at [path] holds the entry [e]. *)
Definition logged (path : string) (e : json) (fs : gmap string file) : Prop :=
  exists before after, fs !! path = Some (FJson (JArr (before ++ e :: after))).

(** The sockets of the sessions other than the one on [sender_socket], in
    the order of registration. *)
Definition others (sender_socket : Sock) (cl : list (Sock * string)) : list Sock :=
  List.filter (fun s => negb (Nat.eqb s sender_socket)) (Dict.keys cl).

(** ** [ChatViewer] of [chat_viewer.py]

    The viewer is a program of its own that reads the files the server
    writes. Its methods are functions of the files. *)

(** An exception raised inside a [try] block of the viewer. *)
Inductive fault : Type :=
  | NoGet (v : json)      (* [v.get(...)] on a value that is not a dict *)
  | NoLen (v : json)      (* [len(v)] on a number or [True] *)
  | NoIter (v : json)     (* [for x in v] on a value that is not iterable *)
  | NoSlice (v : json)    (* [v[:16] + "..."] on a value that is not a string *)
  | NoJoin (v : json).    (* [', '.join(v)] on a value that is not made of strings *)

(** What the code leaves to Python: the text of [str(v)] for a value that is
    not a string, and the text of [str(e)] for an exception. *)
Class Python : Type := {
  repr : json -> string;
  exc_text : fault -> string
}.

(** [str(v)], as an f-string formats [v] *)
Definition py_str `{Python} (v : json) : string :=
  match v with JStr s => s | _ => repr v end.

(** [bool(v)] *)
Definition truthy (v : json) : bool :=
  match v with
  | JNull => false
  | JBool b => b
  | JNum n => negb (Z.eqb n 0)
  | JStr s => negb (String.eqb s EmptyString)
  | JArr items => match items with [] => false | _ => true end
  | JObj fields => match fields with [] => false | _ => true end
  end.

(** A byte that continues a UTF-8 sequence. *)
Definition is_continuation (c : ascii) : bool :=
  (128 <=? N_of_ascii c)%N && (N_of_ascii c <? 192)%N.

(** [s[:n]]: the first [n] characters of [s]. *)
Fixpoint take_chars (n : nat) (s : string) : string :=
  match s with
  | EmptyString => EmptyString
  | String c r =>
      if is_continuation c then String c (take_chars n r)
      else match n with
           | O => EmptyString
           | S k => String c (take_chars k r)
           end
  end.

(** The continuation bytes [s] begins with, and the rest. *)
Fixpoint span_continuation (s : string) : string * string :=
  match s with
  | EmptyString => (EmptyString, EmptyString)
  | String c r =>
      if is_continuation c
      then let '(a, b) := span_continuation r in (String c a, b)
      else (EmptyString, s)
  end.

Fixpoint chars_go (fuel : nat) (s : string) : list string :=
  match fuel, s with
  | S k, String c r =>
      let '(a, b) := span_continuation r in String c a :: chars_go k b
  | _, _ => []
  end.

(** [list(s)]: the characters of [s]. *)
Definition chars (s : string) : list string := chars_go (String.length s) s.

(** [len(v)] *)
Definition py_len (v : json) : fault + nat :=
  match v with
  | JArr items => inr (length items)
  | JObj fields => inr (length fields)
  | JStr s => inr (length (chars s))
  | _ => inl (NoLen v)
  end.

(** What [for x in v] goes through. *)
Definition iterate (v : json) : fault + list json :=
  match v with
  | JArr items => inr items
  | JObj fields => inr (map (fun f => JStr f.1) fields)
  | JStr s => inr (map JStr (chars s))
  | _ => inl (NoIter v)
  end.

Definition and_then {A B} (x : fault + A) (k : A -> fault + B) : fault + B :=
  match x with inl f => inl f | inr a => k a end.

(** [s.endswith(p)] *)
Definition endswith (p s : string) : bool :=
  Str.startswith (String.rev p) (String.rev s).

(** [os.path.join(a, b)] on POSIX: an absolute [b] replaces [a]. *)
Definition path_join (a b : string) : string :=
  if Str.startswith "/" b then b
  else if String.eqb a EmptyString || endswith "/" a then a +:+ b
  else a +:+ "/" +:+ b.

Definition server_logs_dir : string := "server_logs".
Definition group_logs_dir : string := path_join server_logs_dir "groups".

(** ["=" * n] *)
Fixpoint rule (n : nat) : string :=
  match n with O => EmptyString | S k => String "=" (rule k) end.

(** [d.get(name, default)], formatted by an f-string. *)
Definition shown `{Python} (name default : string) (fields : list (string * json))
  : string :=
  match Dict.get name fields with Some v => py_str v | None => default end.

Definition format_message `{Python} (msg_data : json) (show_hash : bool)
  : fault + string :=
  match msg_data with
  | JObj fields =>
      let timestamp := shown "timestamp" "Unknown time" fields in
      let sender := shown "sender" "Unknown" fields in
      let receiver := shown "receiver" "Unknown" fields in
      let message := shown "message" EmptyString fields in
      let msg_type := default (JStr "direct") (Dict.get "type" fields) in
      let integrity :=
        if verify_message_integrity msg_data then "✓" else "⚠" in
      let formatted :=
        if match msg_type with JStr t => String.eqb t "group" | _ => false end
        then "[" +:+ timestamp +:+ "] " +:+ integrity +:+ " " +:+ sender
             +:+ " → [" +:+ receiver +:+ "]: " +:+ message
        else "[" +:+ timestamp +:+ "] " +:+ integrity +:+ " " +:+ sender
             +:+ " → " +:+ receiver +:+ ": " +:+ message in
      if show_hash
      then
        match default (JStr "No hash") (Dict.get "message_hash" fields) with
        | JStr h =>
            let msg_hash := take_chars 16 h +:+ "..." in
            inr (formatted +:+ " (Hash: " +:+ msg_hash +:+ ")")
        | v => inl (NoSlice v)
        end
      else inr formatted
  | v => inl (NoGet v)
  end.

(** The loop [for msg_data in chat_history: messages.append(...)]. *)
Fixpoint format_all `{Python} (items : list json) (show_hash : bool)
  : fault + list string :=
  match items with
  | [] => inr []
  | msg_data :: rest =>
      and_then (format_message msg_data show_hash) (fun line =>
      and_then (format_all rest show_hash) (fun lines =>
      inr (line :: lines)))
  end.

(** The file [view_direct_chat] reads. *)
Definition direct_chat_path (user1 user2 : string) : string :=
  let '(p0, p1) := Str.sorted2 user1 user2 in
  path_join server_logs_dir (p0 +:+ "_" +:+ p1 +:+ "_conversation.json").

Definition view_direct_chat `{Python} (fs : gmap string file)
    (user1 user2 : string) (show_hash : bool) : list string :=
  let filepath := direct_chat_path user1 user2 in
  match fs !! filepath with
  | None =>
      [ "❌ No chat history found between " +:+ user1 +:+ " and " +:+ user2 ]
  | Some (FCorrupt _) => [ "❌ Error: Chat file is corrupted" ]
  | Some (FJson chat_history) =>
      if negb (truthy chat_history)
      then [ "📝 Chat history between " +:+ user1 +:+ " and " +:+ user2
             +:+ " is empty" ]
      else
        match
          and_then (py_len chat_history) (fun total =>
          and_then (iterate chat_history) (fun items =>
          and_then (format_all items show_hash) (fun lines =>
          inr ([ "💬 Chat History: " +:+ user1 +:+ " ↔ " +:+ user2;
                 "📅 Total messages: " +:+ pretty total;
                 rule 80 ]
               ++ lines
               ++ [ rule 80;
                    "✅ End of chat history (" +:+ pretty total
                    +:+ " messages)" ]))))
        with
        | inr messages => messages
        | inl e => [ "❌ Error reading chat file: " +:+ exc_text e ]
        end
  end.

(** [', '.join(v)] *)
Definition join_members (v : json) : fault + string :=
  match v with
  | JArr items =>
      (fix go (l : list json) (acc : list string) : fault + string :=
         match l with
         | [] => inr (Str.join ", " (rev acc))
         | JStr s :: r => go r (s :: acc)
         | _ :: _ => inl (NoJoin v)
         end) items []
  | JObj fields => inr (Str.join ", " (map fst fields))
  | JStr s => inr (Str.join ", " (chars s))
  | _ => inl (NoJoin v)
  end.

(** The files [view_group_chat] reads. *)
Definition group_chat_path (group_name : string) : string :=
  path_join group_logs_dir (group_name +:+ "_group.json").
Definition group_info_path (group_name : string) : string :=
  path_join group_logs_dir (group_name +:+ "_info.json").

(** The three lines on the group, for a [group_info] that is truthy. *)
Definition info_lines `{Python} (group_info : json) : fault + list string :=
  match group_info with
  | JObj fields =>
      and_then (join_members (default (JArr []) (Dict.get "members" fields)))
        (fun members =>
           inr [ "👑 Admin: " +:+ shown "admin" "Unknown" fields;
                 "👤 Members: " +:+ members;
                 "📅 Created: " +:+ shown "created_date" "Unknown" fields ])
  | v => inl (NoGet v)
  end.

Definition view_group_chat `{Python} (fs : gmap string file)
    (group_name : string) (show_hash : bool) : list string :=
  let filepath := group_chat_path group_name in
  match fs !! filepath with
  | None => [ "❌ No group chat history found for '" +:+ group_name +:+ "'" ]
  | Some (FCorrupt _) => [ "❌ Error: Group chat file is corrupted" ]
  | Some (FJson chat_history) =>
      if negb (truthy chat_history)
      then [ "📝 Group chat history for '" +:+ group_name +:+ "' is empty" ]
      else
        match fs !! group_info_path group_name with
        | Some (FCorrupt _) => [ "❌ Error: Group chat file is corrupted" ]
        | info =>
            let group_info :=
              match info with Some (FJson v) => v | _ => JObj [] end in
            match
              and_then (if truthy group_info then info_lines group_info
                        else inr []) (fun about =>
              and_then (py_len chat_history) (fun total =>
              and_then (iterate chat_history) (fun items =>
              and_then (format_all items show_hash) (fun lines =>
              inr ([ "👥 Group Chat History: " +:+ group_name ]
                   ++ about
                   ++ [ "💬 Total messages: " +:+ pretty total; rule 80 ]
                   ++ lines
                   ++ [ rule 80;
                        "✅ End of group chat history (" +:+ pretty total
                        +:+ " messages)" ])))))
            with
            | inr messages => messages
            | inl e => [ "❌ Error reading group chat file: " +:+ exc_text e ]
            end
        end
  end.

(** A Python whose texts are short: for the runs. *)
Definition terse : Python :=
  {| repr := fun _ => "?"; exc_text := fun _ => "error" |}.

(** The value is a JSON object. *)
Definition is_object (v : json) : bool :=
  match v with JObj _ => true | _ => false end.

(** ** The connection threads of [start_server]

    [start_server] gives every accepted connection a thread of its own,
    which runs [handle_client] on it. A thread that has registered its name
    stays in the [while True] loop, with its socket and its [username], until
    a turn of its own breaks or raises; [remove_client] called for its socket
    by another thread takes the name out of the registry and leaves the
    thread where it is. *)
Record pool : Type := Pool {
  state : server;                 (* the ChatServer the threads share *)
  served : list (Sock * string)   (* threads in their loop: client_socket, username *)
}.

(** What the peers do: a connection is made (and [first] is what the [recv]
    for the name gives), or a connection in its loop gets the next result of
    [recv]. *)
Inductive action : Type :=
  | Accept (client_socket : Sock) (first : recv)
  | Turn (client_socket : Sock) (input : recv).

(** The thread of [client_socket] leaves [handle_client] through the
    [finally] block. *)
Definition finish `{Env} (client_socket : Sock) (threads : list (Sock * string))
    (σ : server) : pool :=
  Pool (teardown client_socket σ).2 (Dict.del client_socket threads).

(** One uninterrupted piece of one thread: [handle_client] from its start
    to the loop, or one turn of the loop. [accept] returns a socket that no
    thread holds; a turn is taken by a thread that is in its loop. *)
Definition step `{Env} (a : action) (p : pool) : pool :=
  match a with
  | Accept client_socket first =>
      if Dict.mem client_socket (served p)
         || Dict.mem client_socket (clients (state p))
      then p
      else
        match first with
        | Failed =>
            finish client_socket (served p)
              (send SPrompt client_socket "Enter your username: " (state p)).2
        | Data data =>
            match handshake client_socket data (state p) with
            | (Ok (Some username), σ) =>
                Pool σ (served p ++ [(client_socket, username)])
            | (_, σ) => finish client_socket (served p) σ
            end
        end
  | Turn client_socket input =>
      match Dict.get client_socket (served p) with
      | None => p
      | Some username =>
          match input with
          | Failed => finish client_socket (served p) (state p)
          | Data message =>
              match handle_message client_socket username message (state p) with
              | (Ok Continue, σ) => Pool σ (served p)
              | (_, σ) => finish client_socket (served p) σ
              end
          end
      end
  end.

Definition play `{Env} (actions : list action) (p : pool) : pool :=
  fold_left (fun p a => step a p) actions p.

(** The server as [__init__] leaves it, with no connection yet. *)
Definition idle : pool := Pool init [].

(** The text has a slash in it. *)
Definition has_slash (s : string) : bool :=
  existsb (Ascii.eqb "/"%char) (list_ascii_of_string s).

(** As [calm], with [server_logs/] and [server_logs/groups/] the only
    directories, as [__init__] makes them: a file whose name has a slash in
    it lies in a directory that does not exist and cannot be opened for
    writing. *)
Definition flat_logs : Env :=
  {| send_fails := fun _ _ => false;
     clock := second;
     unwritable := fun path =>
       has_slash
         (if Str.startswith "server_logs/groups/" path
          then Str.slice_from 19 path
          else if Str.startswith "server_logs/" path
               then Str.slice_from 12 path
               else path);
     set_iter := elements;
     set_iter_perm := fun s => Permutation_refl (elements s) |}.

(** alice connects on socket 1 and bo/b on socket 2, and alice sends [hi]
    to everyone. *)
Definition after_public_hi : pool :=
  play (H:=flat_logs)
    [ Accept 1 (Data "alice"); Accept 2 (Data "bo/b"); Turn 1 (Data "hi") ]
    idle.

(** * Verification *)

(** ** SHA-256 *)

Section Sha256Facts.
Import Sha256.
Local Open Scope N_scope.

Lemma add32_small a b : add32 a b < w32.
Proof. unfold add32. apply N.mod_lt. discriminate. Qed.

Lemma add_state_small s t : small (add_state s t).
Proof.
  destruct t as [[[[[[[a b] c] d] e] f] g] h].
  destruct s as [[[[[[[a0 b0] c0] d0] e0] f0] g0] h0].
  cbv [small add_state]. repeat split; apply add32_small.
Qed.

Lemma compress_small s block : small (compress s block).
Proof. unfold compress. cbv zeta. apply add_state_small. Qed.

Lemma fold_small {A} (f : state -> A -> state) (l : list A) :
  (forall s x, small (f s x)) -> forall s, small s -> small (fold_left f l s).
Proof.
  intros Hf. induction l as [|x l IH]; intros s Hs; simpl; [exact Hs|].
  apply IH, Hf.
Qed.

Lemma H0_small : small H0.
Proof. cbv [small H0 w32]. repeat split; reflexivity. Qed.

Lemma digest_small s : small (digest s).
Proof.
  unfold digest. cbv zeta.
  apply (fold_small compress _ compress_small), H0_small.
Qed.

Lemma digest_num_bound s : digest_num s < two256.
Proof.
  unfold digest_num. pose proof (digest_small s) as Hs.
  destruct (digest s) as [[[[[[[a b] c] d] e] f] g] h].
  cbv [small] in Hs. cbv [fold_left]. unfold w32, two256 in *. lia.
Qed.

Lemma letters_inj : Inj (=) (=) letters.
Proof.
  intros n. induction n as [|n IH]; intros [|m] E; simpl in E; try discriminate.
  - reflexivity.
  - injection E as E. f_equal. apply IH, E.
Qed.

(** No function into the 256-bit digests tells all strings apart. *)
Lemma digest_num_collision :
  ~ (forall a b : string, digest_num a = digest_num b -> a = b).
Proof.
  intros Hinj.
  set (f := fun i : nat => N.to_nat (digest_num (letters i))).
  assert (Hf : Inj (=) (=) f).
  { intros i j E. unfold f in E. apply letters_inj, Hinj. lia. }
  assert (Hb : forall i, (f i < N.to_nat two256)%nat).
  { intros i. unfold f. pose proof (digest_num_bound (letters i)). lia. }
  generalize dependent (N.to_nat two256). intros n Hb.
  assert (Hsub : f <$> seq 0 (S n) ⊆+ seq 0 n).
  { apply NoDup_submseteq.
    - apply NoDup_fmap_2; [exact Hf | apply NoDup_seq].
    - intros x [i [-> _]]%list_elem_of_fmap. apply elem_of_seq.
      specialize (Hb i). lia. }
  apply submseteq_length in Hsub.
  rewrite length_fmap, !length_seq in Hsub. lia.
Qed.






Lemma hexdigest_collision :
  ~ (forall a b : string, hexdigest a = hexdigest b -> a = b).
Proof.
  intros Hinj. apply digest_num_collision. intros a b E.
  apply Hinj. unfold hexdigest. now rewrite E.
Qed.
End Sha256Facts.

Example sha256_empty :
  Sha256.hexdigest EmptyString =
  "e3b0c44298fc1c149afbf4c8996fb92427ae41e4649b934ca495991b7852b855".
Proof. vm_compute. reflexivity. Qed.

Example sha256_abc :
  Sha256.hexdigest "abc" =
  "ba7816bf8f01cfea414140de5dae2223b00361a396177a9cb410ff61f20015ad".
Proof. vm_compute. reflexivity. Qed.


Example sha256_two_blocks :
  Sha256.hexdigest "abcdbcdecdefdefgefghfghighijhijkijkljklmklmnlmnomnopnopq" =
  "248d6a61d20638b8e5c026930c3e6039a33ce45964ff2167f6ecedd419db06c1".
Proof. vm_compute. reflexivity. Qed.




(** ** Dictionaries *)

Section DictFacts.
Context {K V : Type} `{EqDecision K}.
Implicit Types (d : list (K * V)) (k : K) (v : V).

Lemma get_set_eq d k v : Dict.get k (Dict.set k v d) = Some v.
Proof.
  induction d as [|[k' v'] d IH]; simpl.
  - now rewrite decide_True.
  - destruct (decide (k = k')) as [->|Hne]; simpl.
    + now rewrite decide_True.
    + now rewrite decide_False.
Qed.

Lemma get_set_ne d k k' v : k <> k' -> Dict.get k' (Dict.set k v d) = Dict.get k' d.
Proof.
  intros Hne. induction d as [|[k0 v0] d IH]; simpl.
  - rewrite decide_False; [reflexivity | congruence].
  - destruct (decide (k = k0)) as [->|Hk]; simpl.
    + rewrite !decide_False; [reflexivity | congruence | congruence].
    + destruct (decide (k' = k0)); [reflexivity | exact IH].
Qed.

Lemma get_del_eq d k : Dict.get k (Dict.del k d) = None.
Proof.
  induction d as [|[k' v'] d IH]; simpl; [reflexivity|].
  destruct (decide (k = k')) as [->|Hne]; simpl; [exact IH|].
  now rewrite decide_False.
Qed.

Lemma get_del_ne d k k' : k <> k' -> Dict.get k' (Dict.del k d) = Dict.get k' d.
Proof.
  intros Hne. induction d as [|[k0 v0] d IH]; simpl; [reflexivity|].
  destruct (decide (k = k0)) as [->|Hk]; simpl.
  - rewrite decide_False; [exact IH | congruence].
  - destruct (decide (k' = k0)); [reflexivity | exact IH].
Qed.

Lemma mem_true d k : Dict.mem k d = true <-> is_Some (Dict.get k d).
Proof.
  unfold Dict.mem. destruct (Dict.get k d); split; intros Hm;
    try discriminate; try reflexivity; eauto.
  destruct Hm; discriminate.
Qed.

Lemma mem_false d k : Dict.mem k d = false <-> Dict.get k d = None.
Proof. unfold Dict.mem. destruct (Dict.get k d); split; congruence. Qed.

Lemma elem_of_keys d k : k ∈ Dict.keys d <-> is_Some (Dict.get k d).
Proof.
  unfold Dict.keys. induction d as [|[k' v'] d IH]; simpl.
  - split; [intros Hk; inversion Hk | intros [? ?]; discriminate].
  - rewrite elem_of_cons, IH.
    destruct (decide (k = k')) as [->|Hne]; [split; eauto|].
    split; [intros [?|?]; congruence | auto].
Qed.

Lemma elem_of_get d k v : Dict.get k d = Some v -> (k, v) ∈ d.
Proof.
  induction d as [|[k' v'] d IH]; simpl; [discriminate|].
  destruct (decide (k = k')) as [->|Hne].
  - intros [= ->]. left.
  - intros Hg. right. auto.
Qed.

Lemma get_of_elem d k v : NoDup (Dict.keys d) -> (k, v) ∈ d -> Dict.get k d = Some v.
Proof.
  unfold Dict.keys. induction d as [|[k' v'] d IH]; simpl; intros Hnd Hin.
  - inversion Hin.
  - apply NoDup_cons in Hnd as [Hk' Hnd].
    apply elem_of_cons in Hin as [[= -> ->]|Hin].
    + now rewrite decide_True.
    + rewrite decide_False; [auto|].
      intros ->. apply Hk'. apply list_elem_of_fmap. exists (k', v). auto.
Qed.

Lemma keys_set d k v :
  Dict.keys (Dict.set k v d) =
  if Dict.mem k d then Dict.keys d else Dict.keys d ++ [k].
Proof.
  unfold Dict.keys, Dict.mem. induction d as [|[k' v'] d IH]; simpl; [reflexivity|].
  destruct (decide (k = k')) as [->|Hne]; simpl; [reflexivity|].
  rewrite IH. destruct (Dict.get k d); reflexivity.
Qed.

Lemma NoDup_keys_set d k v : NoDup (Dict.keys d) -> NoDup (Dict.keys (Dict.set k v d)).
Proof.
  intros Hnd. rewrite keys_set. destruct (Dict.mem k d) eqn:Hm; [exact Hnd|].
  apply NoDup_app. split; [exact Hnd|]. split; [|apply NoDup_singleton].
  intros x Hx ->%list_elem_of_singleton.
  apply elem_of_keys, mem_true in Hx. congruence.
Qed.

Lemma keys_del_subseteq d k : Dict.keys (Dict.del k d) ⊆ Dict.keys d.
Proof.
  intros x. rewrite !elem_of_keys. destruct (decide (k = x)) as [->|Hne].
  - rewrite get_del_eq. intros [? ?]; discriminate.
  - now rewrite get_del_ne.
Qed.

Lemma NoDup_keys_del d k : NoDup (Dict.keys d) -> NoDup (Dict.keys (Dict.del k d)).
Proof.
  unfold Dict.keys. induction d as [|[k' v'] d IH]; simpl; intros Hnd; [constructor|].
  apply NoDup_cons in Hnd as [Hk' Hnd].
  destruct (decide (k = k')); simpl; [auto|].
  apply NoDup_cons. split; [|auto].
  intros Hin. apply Hk'. now apply (keys_del_subseteq d k).
Qed.

Lemma length_del d k : is_Some (Dict.get k d) -> length (Dict.del k d) < length d.
Proof.
  induction d as [|[k' v'] d IH]; simpl; [intros [? ?]; discriminate|].
  assert (Hle : length (Dict.del k d) <= length d).
  { clear. induction d as [|[k0 v0] d IH]; simpl; [lia|].
    destruct (decide (k = k0)); simpl; lia. }
  destruct (decide (k = k')); simpl; intros Hs; [lia|].
  specialize (IH Hs). lia.
Qed.

(** Distinct keys with distinct values: the values do not repeat. *)
Lemma NoDup_values d :
  NoDup (Dict.keys d) ->
  (forall k1 k2 v, Dict.get k1 d = Some v -> Dict.get k2 d = Some v -> k1 = k2) ->
  NoDup (map snd d).
Proof.
  induction d as [|[k v] d IH]; intros Hnd Hinj; [constructor|].
  change (NoDup (v :: map snd d)).
  change (NoDup (k :: Dict.keys d)) in Hnd.
  apply NoDup_cons in Hnd as [Hk Hnd].
  assert (Hother : forall k1 v1, Dict.get k1 d = Some v1 ->
                     Dict.get k1 ((k, v) :: d) = Some v1).
  { intros k1 v1 Hg. simpl. rewrite decide_False; [exact Hg|].
    intros ->. apply Hk, elem_of_keys. eauto. }
  apply NoDup_cons. split.
  - intros [[k1 v1] [Hv Hin]]%list_elem_of_fmap. simpl in Hv. subst v1.
    apply (get_of_elem _ _ _ Hnd) in Hin.
    assert (k1 = k).
    { apply (Hinj k1 k v); [auto|]. simpl. now rewrite decide_True. }
    subst k1. apply Hk, elem_of_keys. eauto.
  - apply IH; [exact Hnd|]. intros k1 k2 v1 H1 H2. apply (Hinj k1 k2 v1); auto.
Qed.
End DictFacts.

(** ** Running methods *)

Section MonadFacts.
Context {R : relation server} `{!PreOrder R}.

Lemma rel_ret {A} (a : A) : rel R (ret a).
Proof. intros σ. simpl. reflexivity. Qed.

Lemma rel_raise {A} e : rel R (raise (A:=A) e).
Proof. intros σ. simpl. reflexivity. Qed.

Lemma rel_gets {A} (f : server -> A) : rel R (gets f).
Proof. intros σ. simpl. reflexivity. Qed.

Lemma rel_lookup {A} (o : option A) : rel R (lookup_or_raise o).
Proof. destruct o; [apply rel_ret | apply rel_raise]. Qed.

Lemma rel_bind {A B} (m : M A) (k : A -> M B) :
  rel R m -> (forall a, rel R (k a)) -> rel R (bind m k).
Proof.
  intros Hm Hk σ. unfold bind. specialize (Hm σ).
  destruct (m σ) as [[a|e] σ1]; simpl in *; [|exact Hm].
  etransitivity; [exact Hm | apply Hk].
Qed.

Lemma rel_try_except {A} (m h : M A) : rel R m -> rel R h -> rel R (try_except m h).
Proof.
  intros Hm Hh σ. unfold try_except. specialize (Hm σ).
  destruct (m σ) as [[a|e] σ1]; simpl in *; [exact Hm|].
  etransitivity; [exact Hm | apply Hh].
Qed.

Lemma rel_try_catch {A} c (m h : M A) : rel R m -> rel R h -> rel R (try_catch c m h).
Proof.
  intros Hm Hh σ. unfold try_catch. specialize (Hm σ).
  destruct (m σ) as [[a|e] σ1]; simpl in *; [exact Hm|].
  destruct (c e); simpl; [|exact Hm].
  etransitivity; [exact Hm | apply Hh].
Qed.

Lemma rel_try_finally {A} (m : M A) f : rel R m -> rel R f -> rel R (try_finally m f).
Proof.
  intros Hm Hf σ. unfold try_finally. specialize (Hm σ).
  destruct (m σ) as [r σ1]. specialize (Hf σ1). simpl in *.
  destruct (f σ1) as [[u|e] σ2]; simpl in *; etransitivity; eauto.
Qed.

Lemma rel_for_each {A} (l : list A) body :
  (forall x, rel R (body x)) -> rel R (for_each l body).
Proof.
  intros Hb. induction l as [|x l IH]; simpl; [apply rel_ret|].
  apply rel_bind; auto.
Qed.

Lemma rel_for_clients used items body :
  (forall k v, rel R (body k v)) -> rel R (for_clients used items body).
Proof.
  intros Hb. induction items as [|[k v] items IH]; simpl.
  - apply rel_bind; [apply rel_gets|]. intros size.
    destruct (negb _); [apply rel_raise | apply rel_ret].
  - apply rel_bind; [apply rel_gets|]. intros size.
    destruct (negb _); [apply rel_raise|]. apply rel_bind; auto.
Qed.

Lemma rel_map_m {A B} (f : A -> M B) l : (forall x, rel R (f x)) -> rel R (map_m f l).
Proof.
  intros Hf. induction l as [|x l IH]; simpl; [apply rel_ret|].
  apply rel_bind; [auto|]. intros y. apply rel_bind; [auto|]. intros ys. apply rel_ret.
Qed.

Lemma rel_modify (f : server -> server) : (forall σ, R σ (f σ)) -> rel R (modify f).
Proof. intros Hf σ. apply Hf. Qed.
End MonadFacts.

(** ** What each method leaves alone *)

Ltac rel_core :=
  lazymatch goal with
  | |- rel _ (ret _) => apply rel_ret
  | |- rel _ (raise _) => apply rel_raise
  | |- rel _ (gets _) => apply rel_gets
  | |- rel _ (lookup_or_raise _) => apply rel_lookup
  | |- rel _ (bind _ _) => apply rel_bind; [|intros ?]
  | |- rel _ (try_except _ _) => apply rel_try_except
  | |- rel _ (try_catch _ _ _) => apply rel_try_catch
  | |- rel _ (try_finally _ _) => apply rel_try_finally
  | |- rel _ (for_each _ _) => apply rel_for_each; intros ?
  | |- rel _ (for_clients _ _ _) => apply rel_for_clients; intros ? ?
  | |- rel _ (map_m _ _) => apply rel_map_m; intros ?
  | |- rel _ (match ?x with _ => _ end) => destruct x
  end.

Section Frames.
Context `{Env}.

Section quiet.
Context {R : relation server} `{!Quiet R}.

Lemma rel_now : rel R now.
Proof. intros σ. apply frame_ticks. Qed.

Lemma rel_json_load filename : rel R (json_load filename).
Proof. unfold json_load. repeat rel_core. Qed.

Lemma rel_json_dump filename v : rel R (json_dump filename v).
Proof.
  unfold json_dump. destruct (unwritable filename); [apply rel_raise|].
  intros σ. apply frame_files.
Qed.

Lemma rel_save_chat_history sender receiver message message_type :
  rel R (save_chat_history sender receiver message message_type).
Proof.
  unfold save_chat_history, history_append.
  repeat first [rel_core | apply rel_now | apply rel_json_load | apply rel_json_dump].
Qed.

Lemma rel_save_group_info group_name : rel R (save_group_info group_name).
Proof.
  unfold save_group_info.
  repeat first [rel_core | apply rel_now | apply rel_json_dump].
Qed.

End quiet.

Section sends.
Context {R : relation server} `{!Sends R}.

Lemma rel_send from to payload : rel R (send from to payload).
Proof. intros σ. unfold send. destruct (send_fails _ _); apply frame_trace. Qed.

Lemma rel_close s : rel R (close s).
Proof. intros σ. apply frame_trace. Qed.

Lemma rel_group_fanout members sender_name full_message :
  forall n, rel R (group_fanout members sender_name full_message n).
Proof.
  induction members as [|member rest IH]; intros n; simpl; [apply rel_ret|].
  repeat first [rel_core | apply rel_send | apply IH].
Qed.
End sends.

Section frame.
Context {R : relation server} `{!Frame R}.

Lemma rel_send_group_message message group_name sender_name :
  rel R (send_group_message message group_name sender_name).
Proof.
  unfold send_group_message.
  repeat first [rel_core | apply rel_group_fanout | apply rel_save_chat_history].
Qed.

Lemma rel_list_groups username : rel R (list_groups username).
Proof. unfold list_groups. repeat rel_core. Qed.

Lemma rel_list_group_members username group_name :
  rel R (list_group_members username group_name).
Proof. unfold list_group_members. repeat rel_core. Qed.

Lemma rel_send_private_message message sender_socket target_name :
  rel R (send_private_message message sender_socket target_name).
Proof.
  unfold send_private_message.
  repeat first [rel_core | apply rel_send | apply rel_save_chat_history].
Qed.
End frame.

Section group_frame.
Context {R : relation server} `{!GroupFrame R}.

Lemma rel_remove_client client_socket : rel R (remove_client client_socket).
Proof.
  unfold remove_client.
  repeat first [rel_core | apply rel_send
               | apply rel_modify; intros ?;
                 first [apply frame_clients | apply frame_client_names]].
Qed.

Lemma rel_broadcast_message message sender_socket :
  rel R (broadcast_message message sender_socket).
Proof.
  unfold broadcast_message, broadcast_to.
  repeat first [rel_core | apply rel_send | apply rel_save_chat_history
               | apply rel_remove_client].
Qed.

Lemma rel_handshake client_socket data : rel R (handshake client_socket data).
Proof.
  unfold handshake.
  repeat first [rel_core | apply rel_send | apply rel_close
               | apply rel_modify; intros ?;
                 first [apply frame_clients | apply frame_client_names]].
Qed.

Lemma rel_teardown client_socket : rel R (teardown client_socket).
Proof.
  unfold teardown. repeat first [rel_core | apply rel_remove_client | apply rel_close].
Qed.
End group_frame.

Section session_frame.
Context {R : relation server} `{!SessionFrame R}.

Lemma rel_create_group admin_name group_name :
  rel R (create_group admin_name group_name).
Proof.
  unfold create_group.
  repeat first [rel_core | apply rel_save_group_info
               | apply rel_modify; intros ?;
                 first [apply frame_groups | apply frame_group_admins]].
Qed.

Lemma rel_add_to_group admin_name group_name username :
  rel R (add_to_group admin_name group_name username).
Proof.
  unfold add_to_group.
  repeat first [rel_core | apply rel_save_group_info | apply rel_send
               | apply rel_send_group_message
               | apply rel_modify; intros ?; apply frame_groups].
Qed.

Lemma rel_leave_group username group_name : rel R (leave_group username group_name).
Proof.
  unfold leave_group, set_first.
  repeat first [rel_core | apply rel_save_group_info | apply rel_send
               | apply rel_send_group_message
               | apply rel_modify; intros ?;
                 first [apply frame_groups | apply frame_group_admins
                       | apply frame_files]].
Qed.
End session_frame.
End Frames.

(** ** Stepping through a method at a given state *)

Lemma bind_gets {A B} (f : server -> A) (k : A -> M B) σ :
  bind (gets f) k σ = k (f σ) σ.
Proof. reflexivity. Qed.

Lemma bind_modify {B} (f : server -> server) (k : unit -> M B) σ :
  bind (modify f) k σ = k tt (f σ).
Proof. reflexivity. Qed.

Lemma bind_ret {A B} (a : A) (k : A -> M B) σ : bind (ret a) k σ = k a σ.
Proof. reflexivity. Qed.

Lemma bind_raise {A B} e (k : A -> M B) σ : bind (raise e) k σ = (Raise e, σ).
Proof. reflexivity. Qed.

Lemma bind_bind {A B C} (m : M A) (f : A -> M B) (k : B -> M C) σ :
  bind (bind m f) k σ = bind m (fun a => bind (f a) k) σ.
Proof. unfold bind. destruct (m σ) as [[a|e] σ1]; reflexivity. Qed.

Lemma bind_if {A B} (b : bool) (m1 m2 : M A) (k : A -> M B) σ :
  bind (if b then m1 else m2) k σ = if b then bind m1 k σ else bind m2 k σ.
Proof. destruct b; reflexivity. Qed.

Lemma pres_run {A} (I : server -> Prop) (m : M A) σ :
  rel (pres I) m -> I σ -> I (m σ).2.
Proof. intros Hm. apply Hm. Qed.

#[global] Instance pres_preorder I : PreOrder (pres I).
Proof. split; [intros σ; exact id | intros σ1 σ2 σ3 H1 H2 HI; exact (H2 (H1 HI))]. Qed.

#[global] Instance pres_group_inv_frame : GroupFrame (pres group_inv).
Proof.
  split; [split; split; try apply _|..]; intros ? ? Hx; exact Hx.
Qed.

#[global] Instance pres_session_inv_frame : SessionFrame (pres session_inv).
Proof.
  split; [split; split; try apply _|..]; intros ? ? Hx; exact Hx.
Qed.

(** ** The group registry (C1) *)

Section Groups.
Context `{Env}.

Lemma set_iter_elem s x : x ∈ set_iter s <-> x ∈ s.
Proof. rewrite (set_iter_perm s). apply elem_of_elements. Qed.

Lemma set_iter_nil s : set_iter s = [] -> s = ∅.
Proof.
  intros Hs. apply leibniz_equiv. apply elements_empty_iff.
  apply Permutation_nil_r. rewrite <- Hs. symmetry. apply set_iter_perm.
Qed.

(** After group [g] got members [ms'] and admin [a'] among them. *)
Lemma group_inv_update σ σ' g ms' a' :
  group_inv σ ->
  groups σ' = Dict.set g ms' (groups σ) ->
  group_admins σ' = Dict.set g a' (group_admins σ) ->
  a' ∈ ms' ->
  group_inv σ'.
Proof.
  intros Hinv Hg Ha Hin g0 ms0. rewrite Hg, Ha.
  destruct (decide (g = g0)) as [<-|Hne].
  - rewrite !get_set_eq. intros [= <-]. eauto.
  - rewrite !get_set_ne by exact Hne. apply Hinv.
Qed.

Lemma set_same {K V} `{EqDecision K} (d : list (K * V)) k v :
  Dict.get k d = Some v -> Dict.set k v d = d.
Proof.
  induction d as [|[k' v'] d IH]; simpl; [discriminate|].
  destruct (decide (k = k')) as [->|Hne]; [intros [= ->]; reflexivity|].
  intros Hg. now rewrite IH.
Qed.

(** After group [g] was deleted. *)
Lemma group_inv_delete σ σ' g :
  group_inv σ ->
  (forall g0, g0 <> g -> Dict.get g0 (groups σ') = Dict.get g0 (groups σ)) ->
  Dict.get g (groups σ') = None ->
  group_admins σ' = Dict.del g (group_admins σ) ->
  group_inv σ'.
Proof.
  intros Hinv Hg Hgone Ha g0 ms0. rewrite Ha.
  destruct (decide (g = g0)) as [<-|Hne].
  - rewrite Hgone. discriminate.
  - rewrite Hg by congruence. rewrite get_del_ne by exact Hne. apply Hinv.
Qed.

Lemma create_group_inv admin_name group_name :
  rel (pres group_inv) (create_group admin_name group_name).
Proof.
  intros σ Hinv. unfold create_group. rewrite bind_gets.
  destruct (Dict.mem group_name (groups σ)) eqn:Hm; [exact Hinv|].
  rewrite !bind_modify. apply pres_run.
  { repeat first [rel_core | apply rel_save_group_info]. }
  eapply (group_inv_update σ _ group_name {[admin_name]} admin_name);
    [exact Hinv | reflexivity | reflexivity | set_solver].
Qed.

Lemma add_to_group_inv admin_name group_name username :
  rel (pres group_inv) (add_to_group admin_name group_name username).
Proof.
  intros σ Hinv. unfold add_to_group. rewrite bind_gets.
  destruct (Dict.get group_name (groups σ)) as [ms|] eqn:Hg; [|exact Hinv].
  destruct (Hinv _ _ Hg) as (a & Ha & Hin).
  rewrite bind_bind, bind_gets, Ha. cbn [lookup_or_raise]. rewrite bind_ret.
  destruct (negb (String.eqb a admin_name)); [exact Hinv|].
  rewrite bind_gets.
  destruct (Dict.get username (client_names σ)) as [user_socket|]; [|exact Hinv].
  destruct (bool_decide (username ∈ ms)); [exact Hinv|].
  rewrite bind_modify. apply pres_run.
  { repeat first [rel_core | apply rel_save_group_info | apply rel_send
                 | apply rel_send_group_message]. }
  eapply (group_inv_update σ _ group_name (ms ∪ {[username]}) a);
    [exact Hinv | reflexivity | | set_solver].
  simpl. symmetry. apply set_same, Ha.
Qed.

Lemma leave_group_inv username group_name :
  rel (pres group_inv) (leave_group username group_name).
Proof.
  intros σ Hinv. unfold leave_group. rewrite bind_gets.
  destruct (Dict.get group_name (groups σ)) as [ms|] eqn:Hg; [|exact Hinv].
  destruct (bool_decide (username ∈ ms)) eqn:Hmem; [|exact Hinv].
  apply bool_decide_eq_true in Hmem.
  destruct (Hinv _ _ Hg) as (a & Ha & Hin).
  cbn [negb]. rewrite bind_modify, bind_bind, bind_gets.
  cbn [group_admins with_groups]. rewrite Ha. cbn [lookup_or_raise].
  rewrite bind_ret.
  destruct (bool_decide (ms ∖ {[username]} = ∅)) eqn:He; cbn [negb].
  - (* the group is emptied and deleted *)
    rewrite andb_false_r, bind_ret, !bind_modify. cbn [ret snd].
    eapply (group_inv_delete σ _ group_name); [exact Hinv | | | reflexivity].
    + intros g0 Hne. cbn. rewrite get_del_ne, get_set_ne by congruence. reflexivity.
    + cbn. apply get_del_eq.
  - rewrite andb_true_r. apply bool_decide_eq_false in He.
    destruct (String.eqb a username) eqn:Hau.
    + (* the admin leaves: the first remaining member takes over *)
      rewrite bind_bind. unfold set_first.
      destruct (set_iter (ms ∖ {[username]})) as [|x l] eqn:Hit.
      { exfalso. apply He, set_iter_nil, Hit. }
      rewrite bind_ret, bind_bind, bind_modify. apply pres_run.
      { repeat first [rel_core | apply rel_save_group_info | apply rel_send
                     | apply rel_send_group_message]. }
      eapply (group_inv_update σ _ group_name (ms ∖ {[username]}) x);
        [exact Hinv | reflexivity | reflexivity |].
      apply set_iter_elem. rewrite Hit. left.
    + rewrite bind_ret. apply pres_run.
      { repeat first [rel_core | apply rel_save_group_info | apply rel_send
                     | apply rel_send_group_message]. }
      apply String.eqb_neq in Hau.
      eapply (group_inv_update σ _ group_name (ms ∖ {[username]}) a);
        [exact Hinv | reflexivity | | set_solver].
      cbn. symmetry. apply set_same, Ha.
Qed.

(** What [leave_group] does when the last member leaves. *)
Lemma leave_group_last σ username group_name ms :
  group_inv σ ->
  Dict.get group_name (groups σ) = Some ms ->
  username ∈ ms ->
  ms ∖ {[username]} = ∅ ->
  let r := leave_group username group_name σ in
  r.1 = Ok ("Left group '" +:+ group_name
            +:+ "'. Group was deleted as it became empty.")
  /\ Dict.get group_name (groups r.2) = None
  /\ Dict.get group_name (group_admins r.2) = None
  /\ files r.2 !! group_info_file group_name = None.
Proof.
  intros Hinv Hg Hmem He. unfold leave_group. rewrite bind_gets, Hg.
  rewrite bool_decide_eq_true_2 by exact Hmem.
  destruct (Hinv _ _ Hg) as (a & Ha & Hin).
  cbn [negb]. rewrite bind_modify, bind_bind, bind_gets.
  cbn [group_admins with_groups]. rewrite Ha. cbn [lookup_or_raise].
  rewrite bind_ret. rewrite (bool_decide_eq_true_2 _ He). cbn [negb].
  rewrite andb_false_r, bind_ret, !bind_modify. cbn.
  repeat split; [apply get_del_eq | apply get_del_eq | apply lookup_delete_eq].
Qed.
End Groups.

(** ** The session registry (C6) *)

Section Sessions.
Context `{Env}.

Lemma remove_client_inv client_socket :
  rel (pres session_inv) (remove_client client_socket).
Proof.
  intros σ Hinv. unfold remove_client. rewrite bind_gets.
  destruct (Dict.get client_socket (clients σ)) as [name|] eqn:Hc; [|exact Hinv].
  rewrite bind_modify, bind_gets. cbn [client_names with_clients].
  destruct Hinv as (Hnd & Hcn & Hnc).
  pose proof (Hcn _ _ Hc) as Hn.
  replace (Dict.mem name (client_names σ)) with true
    by (symmetry; apply mem_true; eauto).
  rewrite bind_modify. apply pres_run.
  { repeat first [rel_core | apply rel_send]. }
  split; [|split]; cbn.
  - apply NoDup_keys_del, Hnd.
  - intros s n Hs.
    destruct (decide (client_socket = s)) as [->|Hne];
      [rewrite get_del_eq in Hs; discriminate|].
    rewrite get_del_ne in Hs by exact Hne.
    rewrite get_del_ne; [auto|]. intros ->.
    apply Hcn in Hs. congruence.
  - intros n s Hs.
    destruct (decide (name = n)) as [->|Hne];
      [rewrite get_del_eq in Hs; discriminate|].
    rewrite get_del_ne in Hs by exact Hne.
    rewrite get_del_ne; [auto|]. intros ->.
    apply Hnc in Hs. congruence.
Qed.

Lemma broadcast_message_inv message sender_socket :
  rel (pres session_inv) (broadcast_message message sender_socket).
Proof.
  unfold broadcast_message, broadcast_to.
  repeat first [rel_core | apply rel_send | apply rel_save_chat_history
               | apply remove_client_inv].
Qed.

Lemma teardown_inv client_socket : rel (pres session_inv) (teardown client_socket).
Proof.
  unfold teardown. repeat first [rel_core | apply remove_client_inv | apply rel_close].
Qed.

(** Registering a name that is free, on a socket that is new. *)
Lemma session_inv_register σ σ' s u :
  session_inv σ ->
  Dict.get s (clients σ) = None ->
  Dict.get u (client_names σ) = None ->
  clients σ' = Dict.set s u (clients σ) ->
  client_names σ' = Dict.set u s (client_names σ) ->
  session_inv σ'.
Proof.
  intros (Hnd & Hcn & Hnc) Hs Hu Hc' Hn'. unfold session_inv.
  rewrite Hc', Hn'. split; [|split].
  - apply NoDup_keys_set, Hnd.
  - intros s0 n0. destruct (decide (s = s0)) as [<-|Hne].
    + rewrite get_set_eq. intros [= <-]. apply get_set_eq.
    + rewrite get_set_ne by exact Hne. intros Hg.
      rewrite get_set_ne; [auto|]. intros ->.
      apply Hcn in Hg. congruence.
  - intros n0 s0. destruct (decide (u = n0)) as [<-|Hne].
    + rewrite get_set_eq. intros [= <-]. apply get_set_eq.
    + rewrite get_set_ne by exact Hne. intros Hg.
      rewrite get_set_ne; [auto|]. intros ->.
      apply Hnc in Hg. congruence.
Qed.

Lemma handshake_inv σ client_socket data :
  session_inv σ ->
  Dict.get client_socket (clients σ) = None ->
  session_inv (handshake client_socket data σ).2.
Proof.
  intros Hinv Hfresh. unfold handshake.
  unfold bind at 1. unfold send at 1.
  destruct (send_fails _ _); [exact Hinv|].
  rewrite bind_gets. cbn [client_names with_trace].
  destruct (Dict.mem (Str.strip data) (client_names σ)) eqn:Hm.
  - apply pres_run; [|exact Hinv].
    repeat first [rel_core | apply rel_send | apply rel_close].
  - rewrite !bind_modify. apply pres_run.
    { repeat first [rel_core | apply rel_send]. }
    apply mem_false in Hm.
    eapply (session_inv_register σ _ client_socket (Str.strip data));
      [exact Hinv | exact Hfresh | exact Hm | reflexivity | reflexivity].
Qed.

Ltac rel_methods lemmas :=
  repeat first
    [ rel_core | apply rel_send | apply rel_close | lemmas
    | apply rel_list_groups | apply rel_list_group_members
    | apply rel_send_private_message | apply rel_send_group_message ].

Lemma handle_message_group_inv client_socket username message :
  rel (pres group_inv) (handle_message client_socket username message).
Proof.
  unfold handle_message.
  rel_methods ltac:(first [ apply create_group_inv | apply add_to_group_inv
                          | apply leave_group_inv | apply rel_broadcast_message ]).
Qed.

Lemma handle_message_session_inv client_socket username message :
  rel (pres session_inv) (handle_message client_socket username message).
Proof.
  unfold handle_message.
  rel_methods ltac:(first [ apply rel_create_group | apply rel_add_to_group
                          | apply rel_leave_group | apply broadcast_message_inv ]).
Qed.

Lemma run_group_inv o σ : group_inv σ -> group_inv (run o σ).
Proof.
  destruct o; cbn [run]; apply pres_run;
    first [ apply create_group_inv | apply add_to_group_inv | apply leave_group_inv
          | apply handle_message_group_inv | apply rel_handshake | apply rel_teardown
          | apply rel_send_group_message | apply rel_broadcast_message
          | apply rel_send_private_message | apply rel_remove_client ].
Qed.

Lemma run_session_inv o σ : enabled o σ -> session_inv σ -> session_inv (run o σ).
Proof.
  destruct o; cbn [run enabled]; intros Hen;
    try (apply pres_run;
         first [ apply handle_message_session_inv | apply teardown_inv
               | apply rel_create_group | apply rel_add_to_group
               | apply rel_leave_group | apply rel_send_group_message
               | apply broadcast_message_inv | apply rel_send_private_message
               | apply remove_client_inv ]).
  intros Hinv. apply handshake_inv; assumption.
Qed.

Lemma init_group_inv : group_inv init.
Proof. intros g ms Hg. discriminate. Qed.

Lemma init_session_inv : session_inv init.
Proof. split; [constructor|]. split; intros ? ? Hg; discriminate. Qed.

Lemma reachable_inv σ : reachable σ -> group_inv σ /\ session_inv σ.
Proof.
  induction 1 as [|σ o Hr [IHg IHs] Hen].
  - split; [apply init_group_inv | apply init_session_inv].
  - split; [apply run_group_inv, IHg | apply run_session_inv; assumption].
Qed.
End Sessions.

(** ** The claims about the registries *)

Section RegistryClaims.
Context `{Env}.

(** C1. In every state the server can reach (by [create_group],
    [add_to_group] and [leave_group], and by anything else it does), each
    group of the registry has its admin among its members, so that its
    member set is not empty; and when [leave_group] removes the last
    member of a group, the group is gone from [self.groups] and
    [self.group_admins] and its metadata file is gone from the disk. *)
Theorem group_registry_invariant σ :
  reachable σ ->
  (forall g ms, Dict.get g (groups σ) = Some ms ->
     (exists a, Dict.get g (group_admins σ) = Some a /\ a ∈ ms) /\ ms <> ∅)
  /\ (forall username g ms,
        Dict.get g (groups σ) = Some ms ->
        username ∈ ms ->
        ms ∖ {[username]} = ∅ ->
        let σ' := (leave_group username g σ).2 in
        Dict.get g (groups σ') = None
        /\ Dict.get g (group_admins σ') = None
        /\ files σ' !! group_info_file g = None).
Proof.
  intros Hr. apply reachable_inv in Hr as [Hg _]. split.
  - intros g ms Hgm. destruct (Hg g ms Hgm) as (a & Ha & Hin).
    split; [eauto|]. intros ->. set_solver.
  - intros username g ms Hgm Hin He.
    destruct (leave_group_last σ username g ms Hg Hgm Hin He) as (_ & H1 & H2 & H3).
    auto.
Qed.

(** X25. In every state the server can reach, two sessions of
    [self.clients] never have the same name; and when the name received
    on a newly accepted socket is already a key of [self.client_names],
    [handle_client] sends the rejection (after the prompt, which was
    delivered), closes the socket, leaves both dictionaries as they were
    and returns. A rejection whose send fails is followed by the close
    of the [finally] block alone. *)
Theorem session_names_unique σ :
  reachable σ ->
  (forall s1 s2 n,
     Dict.get s1 (clients σ) = Some n -> Dict.get s2 (clients σ) = Some n -> s1 = s2)
  /\ NoDup (map snd (clients σ))
  /\ (forall client_socket data rest,
        Dict.get client_socket (clients σ) = None ->
        Dict.mem (Str.strip data) (client_names σ) = true ->
        send_fails (length (trace σ)) client_socket = false ->
        let r := handle_client client_socket (Data data :: rest) σ in
        let ok := negb (send_fails (S (length (trace σ))) client_socket) in
        r.1 = Ok tt
        /\ clients r.2 = clients σ
        /\ client_names r.2 = client_names σ
        /\ emitted σ r.2 =
             [ EvSend SPrompt client_socket "Enter your username: " true;
               EvSend SReject client_socket
                 "Username already taken. Please try again." ok ]
             ++ (if ok then [EvClose client_socket] else [])
             ++ [EvClose client_socket]).
Proof.
  intros Hr. apply reachable_inv in Hr as [_ (Hnd & Hcn & Hnc)].
  assert (Hinj : forall s1 s2 n,
             Dict.get s1 (clients σ) = Some n ->
             Dict.get s2 (clients σ) = Some n -> s1 = s2).
  { intros s1 s2 n H1 H2. apply Hcn in H1, H2. congruence. }
  split; [exact Hinj|]. split; [apply NoDup_values; assumption|].
  intros client_socket data rest Hfresh Htaken Hprompt.
  unfold emitted, handle_client, handshake.
  generalize dependent (Str.strip data). intros u Htaken.
  cbv [handle_client try_finally try_except handshake teardown remove_client
       close bind send gets modify ret raise].
  rewrite Hprompt. cbn [client_names with_trace trace]. rewrite Htaken.
  change (trace (with_trace ?t ?s)) with t.
  rewrite length_app. cbn [length]. rewrite Nat.add_1_r.
  destruct (send_fails (S (length (trace σ))) client_socket);
    simpl; rewrite Hfresh; simpl;
    (repeat split; []); rewrite <- !app_assoc; apply drop_app_length.
Qed.
End RegistryClaims.

(** ** What is sent to whom *)

#[global] Instance emits_preorder Q : PreOrder (emits Q).
Proof.
  split.
  - intros σ. exists []. split; [symmetry; apply app_nil_r | constructor].
  - intros σ1 σ2 σ3 (e1 & H1 & Q1) (e2 & H2 & Q2). exists (e1 ++ e2). split.
    + rewrite H2, H1. symmetry. apply app_assoc.
    + apply Forall_app. split; assumption.
Qed.

#[global] Instance emits_quiet Q : Quiet (emits Q).
Proof.
  split; [apply _|..]; intros σ x; exists [];
    (split; [symmetry; apply app_nil_r | constructor]).
Qed.

#[global] Instance emits_keeping_names_preorder Q : PreOrder (emits_keeping_names Q).
Proof.
  split.
  - intros σ. split; reflexivity.
  - intros σ1 σ2 σ3 [H1 E1] [H2 E2]. split; [congruence | etransitivity; eassumption].
Qed.

#[global] Instance emits_keeping_names_quiet Q : Quiet (emits_keeping_names Q).
Proof.
  split; [apply _|..]; intros σ x; (split; [reflexivity | apply emits_quiet]).
Qed.

Lemma emits_emitted Q σ σ' : emits Q σ σ' -> Forall Q (emitted σ σ').
Proof. intros (evs & Ht & HQ). unfold emitted. now rewrite Ht, drop_app_length. Qed.

Lemma rel_bind_at {R : relation server} `{!PreOrder R} {A B} (m : M A) (k : A -> M B) σ :
  R σ (m σ).2 -> (forall a σ1, R σ1 (k a σ1).2) -> R σ (bind m k σ).2.
Proof.
  intros Hm Hk. unfold bind. destruct (m σ) as [[a|e] σ1]; simpl in *; [|exact Hm].
  etransitivity; [exact Hm | apply Hk].
Qed.

Section Delivery.
Context `{Env}.

Lemma emits_send (Q : event -> Prop) from to payload :
  (forall ok, Q (EvSend from to payload ok)) -> rel (emits Q) (send from to payload).
Proof.
  intros HQ σ. unfold send.
  destruct (send_fails _ _); cbn; eexists; (split; [reflexivity|]);
    repeat constructor; apply HQ.
Qed.

Lemma emits_silent (Q : event -> Prop) (f : server -> server) :
  (forall σ, trace (f σ) = trace σ) -> rel (emits Q) (modify f).
Proof.
  intros Hf σ. exists []. cbn. rewrite Hf. split; [symmetry; apply app_nil_r | constructor].
Qed.

Lemma emits_remove_client (Q : event -> Prop) client_socket :
  (forall s payload ok, Q (EvSend SLeft s payload ok)) ->
  rel (emits Q) (remove_client client_socket).
Proof.
  intros HQ. unfold remove_client.
  repeat first [ rel_core | apply emits_send; intros ?; apply HQ
               | apply emits_silent; intros ?; reflexivity ].
Qed.

Lemma emits_broadcast_message message sender_socket :
  rel (emits (fun e => to_socket sender_socket e -> sent_from SLeft e))
      (broadcast_message message sender_socket).
Proof.
  unfold broadcast_message, broadcast_to. apply rel_bind; [apply rel_gets|]. intros cl.
  apply rel_for_clients. intros client_socket client_name.
  destruct (Nat.eqb client_socket sender_socket) eqn:Hs; cbn [negb]; [apply rel_ret|].
  apply Nat.eqb_neq in Hs. apply rel_try_except.
  - apply rel_bind; [|intros ?; apply rel_save_chat_history].
    apply emits_send. intros ok Hto. contradiction.
  - apply emits_remove_client. intros s payload ok _. reflexivity.
Qed.

Lemma emits_group_fanout sender_socket sender_name full_message members :
  forall n σ,
    only_name_of sender_socket sender_name (client_names σ) ->
    emits_keeping_names (fun e => ~ to_socket sender_socket e) σ
      (group_fanout members sender_name full_message n σ).2.
Proof.
  induction members as [|member rest IH]; intros n σ Hsafe; [reflexivity|].
  cbn [group_fanout]. rewrite bind_gets.
  destruct (Dict.mem member (client_names σ)
            && negb (String.eqb member sender_name)) eqn:Hc; [|apply IH, Hsafe].
  apply andb_true_iff in Hc as [Hm Hne].
  apply mem_true in Hm as [s Hs].
  apply negb_true_iff, String.eqb_neq in Hne.
  pose proof (Hsafe member s Hne Hs) as Hother.
  rewrite Hs. cbn [lookup_or_raise].
  unfold bind at 1, try_except, bind at 1, ret at 1, bind at 1, send.
  destruct (send_fails _ _); cbn [ret].
  all: etransitivity; [|apply IH; exact Hsafe].
  all: split; [reflexivity|]; eexists; (split; [reflexivity|]);
    repeat constructor; exact Hother.
Qed.

Lemma emits_send_group_message sender_socket message group_name sender_name σ :
  only_name_of sender_socket sender_name (client_names σ) ->
  emits (fun e => ~ to_socket sender_socket e) σ
    (send_group_message message group_name sender_name σ).2.
Proof.
  intros Hsafe. unfold send_group_message. rewrite bind_gets.
  destruct (Dict.get group_name (groups σ)) as [members|]; [|reflexivity].
  destruct (negb _ && negb _); [reflexivity|].
  apply rel_bind_at.
  - apply emits_group_fanout, Hsafe.
  - intros n. change (rel (emits (fun e => ~ to_socket sender_socket e))
      ((if negb (String.eqb sender_name "SYSTEM")
        then save_chat_history sender_name group_name message "group"
        else ret tt) ;;
       ret ("Message sent to " +:+ pretty n +:+ " group members"))).
    repeat first [rel_core | apply rel_save_chat_history].
Qed.

(** C7. From any state the server can reach: [broadcast_message] sends
    nothing of its own to the sender's socket (all that can reach that
    socket during the call is the departure notice [remove_client] sends
    for a recipient it dropped), and [send_group_message], called for the
    connection whose socket is [sender_socket] and whose name is
    [username], sends nothing at all to that socket, member or not. *)
Theorem delivery_excludes_sender σ :
  reachable σ ->
  (forall message sender_socket e,
     e ∈ emitted σ (broadcast_message message sender_socket σ).2 ->
     to_socket sender_socket e ->
     sent_from SLeft e /\ ~ sent_from SPublic e)
  /\ (forall message group_name username sender_socket e,
        (forall n, Dict.get sender_socket (clients σ) = Some n -> n = username) ->
        e ∈ emitted σ (send_group_message message group_name username σ).2 ->
        ~ to_socket sender_socket e).
Proof.
  intros Hr. apply reachable_inv in Hr as [_ (Hnd & Hcn & Hnc)]. split.
  - intros message sender_socket e He Hto.
    pose proof (emits_emitted _ _ _ (emits_broadcast_message message sender_socket σ))
      as Hall.
    rewrite Forall_forall in Hall. specialize (Hall e He Hto).
    split; [exact Hall|]. destruct e; cbn in *; congruence.
  - intros message group_name username sender_socket e Hname He.
    assert (Hsafe : only_name_of sender_socket username (client_names σ)).
    { intros m s Hne Hs ->. apply Hnc in Hs. apply Hname in Hs. congruence. }
    pose proof (emits_emitted _ _ _
      (emits_send_group_message sender_socket message group_name username σ Hsafe))
      as Hall.
    rewrite Forall_forall in Hall. exact (Hall e He).
Qed.
End Delivery.

(** ** The persistence store *)

Section Store.
Context `{Env}.

(** All that [save_chat_history] can do, by what the log file holds. *)
Lemma save_chat_history_run σ sender receiver message message_type :
  let path := log_filename sender receiver message_type in
  let e := chat_entry (clock (ticks σ)) sender receiver message message_type in
  let σ1 := with_ticks (S (ticks σ)) σ in
  save_chat_history sender receiver message message_type σ =
    match files σ !! path with
    | Some (FCorrupt _) => (Raise JSONDecodeError, σ1)
    | f =>
        match history_of f with
        | None => (Raise AttributeError, σ1)
        | Some items =>
            if unwritable path then (Raise OSError, σ1)
            else (Ok tt,
                  with_files (<[path := FJson (JArr (items ++ [e]))]> (files σ)) σ1)
        end
    end.
Proof.
  cbv zeta. unfold save_chat_history, now, try_catch, json_load, history_append,
    json_dump, bind, gets, raise, ret, modify, history_of.
  cbn [files with_ticks ticks].
  destruct (files σ !! log_filename sender receiver message_type) as [[v|raw]|];
    [destruct v| |]; cbn; try reflexivity;
    destruct (unwritable (log_filename sender receiver message_type)); reflexivity.
Qed.

(** C2, as the code has it. When the log file does not exist,
    [save_chat_history] starts a fresh array that holds the new entry
    alone. When the file exists and its contents fail to decode as JSON,
    [json.JSONDecodeError] leaves [save_chat_history] and the file stays
    as it was: only [FileNotFoundError] is caught. *)
Theorem save_chat_history_on_read σ sender receiver message message_type :
  let path := log_filename sender receiver message_type in
  let r := save_chat_history sender receiver message message_type σ in
  (files σ !! path = None -> unwritable path = false ->
     r.1 = Ok tt
     /\ files r.2 =
          <[path := FJson (JArr [chat_entry (clock (ticks σ)) sender receiver
                                   message message_type])]> (files σ))
  /\ (forall raw, files σ !! path = Some (FCorrupt raw) ->
        r.1 = Raise JSONDecodeError /\ files r.2 = files σ).
Proof.
  cbv zeta. rewrite save_chat_history_run. split.
  - intros -> ->. cbn. split; reflexivity.
  - intros raw ->. split; reflexivity.
Qed.

Lemma sorted2_swap a b : Str.sorted2 a b = Str.sorted2 b a.
Proof.
  unfold Str.sorted2, Str.lt. rewrite (String.compare_antisym a b).
  destruct (String.compare b a) eqn:Hc; cbn; try reflexivity.
  apply String.compare_eq_iff in Hc. now subst.
Qed.

(** C8. The log of a direct message is named after the two names in
    ascending order, whichever of them is the sender: [save_chat_history]
    computes the same file name for (a, b) and for (b, a), and that file
    is the only one either call can write. *)
Theorem conversation_key_symmetric (a b : string) :
  conversation_log a b = conversation_log b a
  /\ log_filename a b "direct" = log_filename b a "direct"
  /\ (forall σ message,
        let path := log_filename a b "direct" in
        let σ1 := (save_chat_history a b message "direct" σ).2 in
        let σ2 := (save_chat_history b a message "direct" σ).2 in
        (files σ1 = files σ \/ exists v, files σ1 = <[path := v]> (files σ))
        /\ (files σ2 = files σ \/ exists v, files σ2 = <[path := v]> (files σ))).
Proof.
  assert (Hc : conversation_log a b = conversation_log b a).
  { unfold conversation_log. now rewrite sorted2_swap. }
  assert (Hl : log_filename a b "direct" = log_filename b a "direct").
  { unfold log_filename. cbn. exact Hc. }
  split; [exact Hc|]. split; [exact Hl|].
  intros σ message. cbv zeta. rewrite !save_chat_history_run. rewrite <- Hl.
  destruct (files σ !! log_filename a b "direct") as [[v|raw]|];
    [destruct v| |]; cbn; auto;
    destruct (unwritable (conversation_log a b)); cbn;
    split; first [left; reflexivity | right; eexists; reflexivity].
Qed.

Lemma verify_entry ts s r m h ty :
  verify_message_integrity (entry ts s r m h ty) = String.eqb h (Sha256.hexdigest m).
Proof. reflexivity. Qed.

(** Equal digests are not equal texts: with the stored hash kept as it was
    written, some altered text is accepted. *)
Lemma kept_hash_accepts_some_altered_text :
  ~ (forall timestamp sender receiver message_type message altered,
       verify_message_integrity
         (entry timestamp sender receiver altered (hash_message message)
            message_type) = true ->
       altered = message).
Proof.
  intros Hc. apply hexdigest_collision. intros a b E.
  apply (Hc EmptyString EmptyString EmptyString EmptyString b a).
  rewrite verify_entry. unfold hash_message. rewrite E. apply String.eqb_refl.
Qed.


Lemma save_group_info_run σ group_name admin members :
  Dict.get group_name (group_admins σ) = Some admin ->
  Dict.get group_name (groups σ) = Some members ->
  unwritable (group_info_file group_name) = false ->
  save_group_info group_name σ =
    (Ok tt,
     with_files
       (<[group_info_file group_name :=
            FJson (JObj [ ("group_name", JStr group_name);
                          ("admin", JStr admin);
                          ("members", JArr (map JStr (set_iter members)));
                          ("created_date", JStr (clock (ticks σ))) ])]> (files σ))
       (with_ticks (S (ticks σ)) σ)).
Proof.
  intros Ha Hg Hw. unfold save_group_info, json_dump.
  rewrite bind_bind, bind_gets, Ha. cbn [lookup_or_raise]. rewrite bind_ret.
  rewrite bind_bind, bind_gets, Hg. cbn [lookup_or_raise]. rewrite bind_ret.
  rewrite Hw. reflexivity.
Qed.

Lemma created_date_written (fs : gmap string file) (path : string) g a ms d :
  (<[path := FJson (JObj [ ("group_name", g); ("admin", a); ("members", ms);
                           ("created_date", JStr d) ])]> fs) !! path
    ≫= created_date = Some d.
Proof. rewrite lookup_insert_eq. reflexivity. Qed.

#[local] Instance sends_only_preorder : PreOrder sends_only.
Proof.
  split; [intros σ; repeat split|].
  intros σ1 σ2 σ3 (A1 & A2 & A3 & A4 & A5 & A6) (B1 & B2 & B3 & B4 & B5 & B6).
  repeat split; congruence.
Qed.

#[local] Instance sends_only_sends : Sends sends_only.
Proof. split; [apply _|]. intros σ t. repeat split. Qed.

Lemma harmless_ret {A} (a : A) : harmless (ret a).
Proof. intros σ. split; [eexists|]; reflexivity. Qed.

Lemma harmless_bind {A B} (m : M A) (k : A -> M B) :
  harmless m -> (forall a, harmless (k a)) -> harmless (bind m k).
Proof.
  intros Hm Hk σ. unfold bind. destruct (Hm σ) as [[a Ha] Hs].
  destruct (m σ) as [r σ1]. cbn in *. subst r.
  destruct (Hk a σ1) as [Hr Hs1]. split; [exact Hr|].
  etransitivity; eassumption.
Qed.

Lemma harmless_try_send from to payload :
  harmless (try_except (send from to payload) (ret tt)).
Proof.
  intros σ. unfold try_except, send.
  destruct (send_fails _ _); cbn; (split; [eexists; reflexivity | repeat split]).
Qed.

Lemma harmless_group_fanout members sender_name full_message :
  forall n, harmless (group_fanout members sender_name full_message n).
Proof.
  induction members as [|member rest IH]; intros n; [apply harmless_ret|].
  cbn [group_fanout]. intros σ. rewrite bind_gets.
  destruct (_ && _); [|apply IH].
  apply harmless_bind; [|intros c; apply IH].
  intros σ'. destruct (Dict.get member (client_names σ)) as [s|];
    cbn [lookup_or_raise].
  - unfold try_except, bind, send, ret.
    destruct (send_fails _ _); cbn; (split; [eexists; reflexivity | repeat split]).
  - split; [eexists; reflexivity | repeat split].
Qed.

(** A notice of the server to a group does nothing but send. *)
Lemma harmless_system_notice message group_name :
  harmless (send_group_message message group_name "SYSTEM").
Proof.
  unfold send_group_message. intros σ. rewrite bind_gets.
  destruct (Dict.get group_name (groups σ)) as [members|]; [|apply harmless_ret].
  cbn [String.eqb Ascii.eqb Bool.eqb negb andb].
  apply harmless_bind; [apply harmless_group_fanout|].
  intros c. apply harmless_bind; intros; apply harmless_ret.
Qed.

(** A send whose failure is passed over. *)
Lemma bind_try_send {B} from to payload (k : unit -> M B) σ :
  bind (try_except (send from to payload) (ret tt)) k σ =
  k tt (with_trace
          (trace σ ++ [EvSend from to payload
                         (negb (send_fails (length (trace σ)) to))]) σ).
Proof. unfold bind, try_except, send. destruct (send_fails _ _); reflexivity. Qed.

Lemma replies_ret {A} (b : A) : replies b (ret b).
Proof. intros σ. split; reflexivity. Qed.

Lemma replies_bind {A B} (m : M A) (k : A -> M B) (b : B) :
  harmless m -> (forall a, replies b (k a)) -> replies b (bind m k).
Proof.
  intros Hm Hk σ. unfold bind. destruct (Hm σ) as [[a Ha] Hs].
  destruct (m σ) as [r σ1]. cbn in *. subst r.
  destruct (Hk a σ1) as [Hr Hs1]. split; [exact Hr|].
  etransitivity; eassumption.
Qed.

(** Writing the metadata and then only sending: the file holds the time
    of the write. *)
Lemma save_then {B} σ g admin members (k : M B) (b : B) :
  Dict.get g (group_admins σ) = Some admin ->
  Dict.get g (groups σ) = Some members ->
  unwritable (group_info_file g) = false ->
  replies b k ->
  let r := (save_group_info g ;; k) σ in
  r.1 = Ok b
  /\ files r.2 !! group_info_file g ≫= created_date = Some (clock (ticks σ)).
Proof.
  intros Ha Hg Hw Hk. cbv zeta.
  pose proof (save_group_info_run σ g admin members Ha Hg Hw) as Hrun.
  set (σ1 := with_files _ _) in Hrun.
  assert (E : (save_group_info g ;; k) σ = k σ1).
  { unfold bind at 1. rewrite Hrun. reflexivity. }
  rewrite E. destruct (Hk σ1) as [Hr (Hf & _)].
  split; [exact Hr|]. rewrite Hf. subst σ1. cbn [files with_files].
  apply created_date_written.
Qed.

(** C10, as the code has it. Every write of a group's metadata file puts
    the clock reading of that write into [created_date]: so does
    [save_group_info] whenever it returns, and so do an [add_to_group]
    that adds a member and a [leave_group] that leaves members behind,
    whose file then holds the time of the add or the leave. That time
    differs from the time of creation only if the clock shows another
    second. *)
Theorem created_date_is_last_write σ :
  (forall g,
     (save_group_info g σ).1 = Ok tt ->
     files (save_group_info g σ).2 !! group_info_file g ≫= created_date
       = Some (clock (ticks σ)))
  /\ (forall admin_name g username ms s,
        Dict.get g (groups σ) = Some ms ->
        Dict.get g (group_admins σ) = Some admin_name ->
        Dict.get username (client_names σ) = Some s ->
        username ∉ ms ->
        unwritable (group_info_file g) = false ->
        let r := add_to_group admin_name g username σ in
        r.1 = Ok ("User '" +:+ username +:+ "' added to group '" +:+ g +:+ "'")
        /\ files r.2 !! group_info_file g ≫= created_date
             = Some (clock (ticks σ)))
  /\ (forall username g ms,
        group_inv σ ->
        Dict.get g (groups σ) = Some ms ->
        username ∈ ms ->
        ms ∖ {[username]} <> ∅ ->
        unwritable (group_info_file g) = false ->
        let r := leave_group username g σ in
        r.1 = Ok ("Left group '" +:+ g +:+ "'")
        /\ files r.2 !! group_info_file g ≫= created_date
             = Some (clock (ticks σ))).
Proof.
  split; [|split].
  - intros g. unfold save_group_info, json_dump.
    rewrite bind_bind, bind_gets.
    destruct (Dict.get g (group_admins σ)) as [a|]; cbn [lookup_or_raise];
      [|discriminate].
    rewrite bind_ret, bind_bind, bind_gets.
    destruct (Dict.get g (groups σ)) as [ms|]; cbn [lookup_or_raise];
      [|discriminate].
    rewrite bind_ret. unfold bind, now.
    destruct (unwritable (group_info_file g)); [discriminate|].
    intros _. cbn [modify snd files with_files]. apply created_date_written.
  - intros admin_name g username ms s Hg Ha Hs Hnot Hw. cbv zeta.
    unfold add_to_group. rewrite bind_gets, Hg, bind_bind, bind_gets, Ha.
    cbn [lookup_or_raise]. rewrite bind_ret, String.eqb_refl. cbn [negb].
    rewrite bind_gets, Hs. rewrite bool_decide_eq_false_2 by exact Hnot.
    rewrite bind_modify.
    apply (save_then (with_groups (Dict.set g (ms ∪ {[username]}) (groups σ)) σ)
             g admin_name (ms ∪ {[username]}));
      [exact Ha | apply get_set_eq | exact Hw |].
    apply replies_bind; [apply harmless_try_send|]. intros _.
    apply replies_bind; [apply harmless_system_notice|]. intros _.
    apply replies_ret.
  - intros username g ms Hinv Hg Hin Hne Hw. cbv zeta.
    unfold leave_group. rewrite bind_gets, Hg.
    rewrite bool_decide_eq_true_2 by exact Hin. cbn [negb].
    destruct (Hinv _ _ Hg) as (a & Ha & Hain).
    rewrite bind_modify, bind_bind, bind_gets.
    cbn [group_admins with_groups]. rewrite Ha. cbn [lookup_or_raise].
    rewrite bind_ret, (bool_decide_eq_false_2 _ Hne). cbn [negb].
    rewrite andb_true_r.
    assert (Hk : replies ("Left group '" +:+ g +:+ "'")
                   (send_group_message (username +:+ " has left the group") g "SYSTEM" ;;
                    ret ("Left group '" +:+ g +:+ "'"))).
    { apply replies_bind; [apply harmless_system_notice|]. intros _. apply replies_ret. }
    destruct (String.eqb a username) eqn:Hau.
    + rewrite bind_bind. unfold set_first.
      destruct (set_iter (ms ∖ {[username]})) as [|x l] eqn:Hit.
      { exfalso. apply Hne, set_iter_nil, Hit. }
      rewrite bind_ret, bind_bind, bind_modify, bind_bind, bind_gets.
      cbn [client_names with_group_admins with_groups].
      destruct (Dict.get x (client_names σ)) as [admin_socket|].
      * rewrite bind_try_send.
          match goal with
          | |- context [bind (save_group_info g) _ ?s] =>
              apply (save_then s g x (ms ∖ {[username]}))
          end; first [apply get_set_eq | exact Hw | exact Hk].
      * rewrite bind_ret.
        match goal with
        | |- context [bind (save_group_info g) _ ?s] =>
            apply (save_then s g x (ms ∖ {[username]}))
        end; first [apply get_set_eq | exact Hw | exact Hk].
    + rewrite bind_ret.
      match goal with
      | |- context [bind (save_group_info g) _ ?s] =>
          apply (save_then s g a (ms ∖ {[username]}))
      end; first [exact Ha | apply get_set_eq | exact Hw | exact Hk].
Qed.
End Store.

(** ** The message router *)

Section Router.
Context `{Env}.

Lemma send_run from to payload σ :
  send from to payload σ =
    (sent (negb (send_fails (length (trace σ)) to)),
     with_trace (trace σ ++ [EvSend from to payload
                               (negb (send_fails (length (trace σ)) to))]) σ).
Proof. unfold send. destruct (send_fails _ _); reflexivity. Qed.

Lemma emitted_app σ σ' evs : trace σ' = trace σ ++ evs -> emitted σ σ' = evs.
Proof. intros Ht. unfold emitted. rewrite Ht. apply drop_app_length. Qed.

(** C5, as the code has it. [send_private_message] reports an error to
    the sender and appends no entry when the target has no session, and
    also when the target has one and the send to it fails; whenever the
    files have changed, both sends succeeded and the log was readable
    and writable. When that is so the target is sent
    "[Private] <sender>: <text>", the sender "[Private to <target>]:
      <text>", and one entry (sender, target, direct) is appended to the
    log of the sorted pair. *)
Theorem send_private_message_outcomes σ message sender_socket target_name :
  let sender_name := default "Unknown" (Dict.get sender_socket (clients σ)) in
  let path := conversation_log sender_name target_name in
  let r := send_private_message message sender_socket target_name σ in
  let t := length (trace σ) in
  (Dict.get target_name (client_names σ) = None ->
     files r.2 = files σ
     /\ emitted σ r.2 =
          [EvSend SPrivateError sender_socket
             ("Error: User " +:+ target_name +:+ " not found")
             (negb (send_fails t sender_socket))])
  /\ (forall target_socket,
        Dict.get target_name (client_names σ) = Some target_socket ->
        (send_fails t target_socket = true ->
           files r.2 = files σ
           /\ emitted σ r.2 =
                [EvSend SPrivate target_socket
                   ("[Private] " +:+ sender_name +:+ ": " +:+ message) false;
                 EvSend SPrivateError sender_socket
                   ("Error: Could not send message to " +:+ target_name)
                   (negb (send_fails (S t) sender_socket))])
        /\ (forall items,
              send_fails t target_socket = false ->
              send_fails (S t) sender_socket = false ->
              history_of (files σ !! path) = Some items ->
              unwritable path = false ->
              r.1 = Ok tt
              /\ emitted σ r.2 =
                   [EvSend SPrivate target_socket
                      ("[Private] " +:+ sender_name +:+ ": " +:+ message) true;
                    EvSend SPrivateConfirm sender_socket
                      ("[Private to " +:+ target_name +:+ "]: " +:+ message) true]
              /\ files r.2 =
                   <[path := FJson (JArr (items ++
                       [chat_entry (clock (ticks σ)) sender_name target_name
                          message "direct"]))]> (files σ))
        /\ (files r.2 <> files σ ->
              send_fails t target_socket = false
              /\ send_fails (S t) sender_socket = false
              /\ is_Some (history_of (files σ !! path))
              /\ unwritable path = false)).
Proof.
  cbv zeta.
  destruct (send_private_message message sender_socket target_name σ)
    as [res σ'] eqn:Hrun.
  cbn [fst snd]. unfold send_private_message in Hrun. rewrite !bind_gets in Hrun.
  set (sender_name := default "Unknown" (Dict.get sender_socket (clients σ))) in *.
  split.
  - intros Hnone. rewrite Hnone, send_run in Hrun. injection Hrun as <- <-.
    split; [reflexivity | apply emitted_app; reflexivity].
  - intros target_socket Hts. rewrite Hts in Hrun.
    unfold try_except in Hrun. unfold bind at 1 in Hrun. rewrite send_run in Hrun.
    destruct (send_fails (length (trace σ)) target_socket) eqn:E1;
      cbn [negb sent] in Hrun; cbv beta iota in Hrun.
    + (* the send to the target fails *)
      rewrite send_run in Hrun. simpl (trace _) in Hrun.
      rewrite length_app, Nat.add_1_r in Hrun. cbn [length] in Hrun.
      injection Hrun as <- <-.
      split; [|split]; [| intros; discriminate | intros Hf; now destruct Hf].
      intros _. split; [reflexivity|]. apply emitted_app. cbn [trace with_trace].
      now rewrite <- app_assoc.
    + unfold bind at 1 in Hrun. rewrite send_run in Hrun. simpl (trace _) in Hrun.
      rewrite length_app, Nat.add_1_r in Hrun. cbn [length] in Hrun.
      destruct (send_fails (S (length (trace σ))) sender_socket) eqn:E2;
        cbn [negb sent] in Hrun; cbv beta iota in Hrun.
      * (* the confirmation fails *)
        rewrite send_run in Hrun. injection Hrun as <- <-.
        split; [|split]; [intros; discriminate | intros; discriminate
                         | intros Hf; now destruct Hf].
      * rewrite save_chat_history_run in Hrun.
        cbn [files with_trace with_ticks ticks log_filename String.eqb Ascii.eqb
             Bool.eqb] in Hrun.
        split; [intros; discriminate|].
        destruct (files σ !! conversation_log sender_name target_name)
          as [[v|raw]|]; [destruct v| |]; cbn [history_of] in *;
          try (rewrite send_run in Hrun; injection Hrun as <- <-;
               split; [intros; discriminate | intros Hf; now destruct Hf]);
          (destruct (unwritable (conversation_log sender_name target_name));
           [ rewrite send_run in Hrun; injection Hrun as <- <-;
             split; [intros; discriminate | intros Hf; now destruct Hf]
           | injection Hrun as <- <-; split;
             [ intros items' _ _ [= <-] _; split; [reflexivity|];
               split; [|reflexivity]; apply emitted_app; cbn [trace with_trace
                 with_files with_ticks]; now rewrite <- app_assoc
             | intros _; repeat split; eauto ] ]).
Qed.

#[local] Instance quietly_preorder : PreOrder quietly.
Proof.
  split; [intros σ; repeat split|].
  intros σ1 σ2 σ3 (A1 & A2 & A3) (B1 & B2 & B3). repeat split; congruence.
Qed.

#[local] Instance quietly_quiet : Quiet quietly.
Proof. split; [apply _|..]; intros σ x; repeat split. Qed.

(** The notices of [remove_client]: one send to each socket of [l]. *)
Lemma notices_run payload l :
  forall σ,
    let r := for_each l (fun s => try_except (send SLeft s payload) (ret tt)) σ in
    r.1 = Ok tt
    /\ clients r.2 = clients σ /\ client_names r.2 = client_names σ
    /\ exists evs, trace r.2 = trace σ ++ evs
                   /\ Forall (sent_from SLeft) evs
                   /\ forall s, s ∈ l -> exists ok, EvSend SLeft s payload ok ∈ evs.
Proof.
  induction l as [|x l IH]; intros σ; cbv zeta.
  - cbn. repeat split. exists []. rewrite app_nil_r. repeat split; [constructor|].
    intros s Hs. inversion Hs.
  - cbn [for_each]. rewrite bind_try_send.
    destruct (IH (with_trace
                    (trace σ ++ [EvSend SLeft x payload
                                   (negb (send_fails (length (trace σ)) x))]) σ))
      as (Hr & Hc & Hn & evs & Ht & Hall & Hin).
    split; [exact Hr|]. split; [exact Hc|]. split; [exact Hn|].
    eexists (_ :: evs). split; [rewrite Ht; cbn [trace with_trace];
                                 rewrite <- app_assoc; reflexivity|].
    split; [constructor; [reflexivity | exact Hall]|].
    intros s [->|Hs]%elem_of_cons.
    + eexists. left.
    + destruct (Hin s Hs) as [ok Hok]. exists ok. right. exact Hok.
Qed.

Lemma remove_client_run σ client_socket name :
  Dict.get client_socket (clients σ) = Some name ->
  let r := remove_client client_socket σ in
  r.1 = Ok tt
  /\ clients r.2 = Dict.del client_socket (clients σ)
  /\ Dict.get name (client_names r.2) = None
  /\ exists evs, trace r.2 = trace σ ++ evs
                 /\ Forall (sent_from SLeft) evs
                 /\ forall s, s ∈ Dict.keys (clients r.2) ->
                      exists ok, EvSend SLeft s (name +:+ " has left the chat") ok ∈ evs.
Proof.
  intros Hc. cbv zeta. unfold remove_client.
  rewrite bind_gets, Hc, bind_modify, bind_gets.
  cbn [client_names with_clients].
  destruct (Dict.mem name (client_names σ)) eqn:Hm;
    [rewrite bind_modify | rewrite bind_ret]; rewrite bind_gets;
    match goal with
    | |- context [for_each ?l ?body ?s] =>
        destruct (notices_run (name +:+ " has left the chat") l s)
          as (Hr & Hcl & Hn & evs & Ht & Hall & Hin)
    end;
    (split; [exact Hr|]); (split; [rewrite Hcl; reflexivity|]);
    (split; [rewrite Hn; cbn; first [apply get_del_eq | now apply mem_false]|]);
    exists evs; (split; [exact Ht|]); (split; [exact Hall|]);
    intros s Hs; apply Hin; rewrite Hcl in Hs; exact Hs.
Qed.

(** Once an entry is gone from [self.clients], the next step of the
    iterator raises. *)
Lemma for_clients_changed used items body σ :
  length (clients σ) <> used ->
  for_clients used items body σ = (Raise RuntimeError, σ).
Proof.
  intros Hne. apply Nat.eqb_neq in Hne.
  destruct items as [|[k v] items]; cbn [for_clients]; rewrite bind_gets, Hne;
    reflexivity.
Qed.

Lemma not_failed_public_of_left evs c p :
  Forall (sent_from SLeft) evs -> EvSend SPublic c p false ∉ evs.
Proof.
  intros Hall Hin. rewrite Forall_forall in Hall. specialize (Hall _ Hin).
  discriminate.
Qed.

Lemma broadcast_to_run sender_name message sender_socket cs cn σ :
  is_Some (Dict.get cs (clients σ)) ->
  let r := broadcast_to sender_name message sender_socket cs cn σ in
  r.1 = Ok tt
  /\ exists evs, trace r.2 = trace σ ++ evs
                 /\ (kept σ r.2 evs \/ exists name, dropped σ r.2 evs cs name).
Proof.
  intros [name Hname]. cbv zeta.
  destruct (broadcast_to sender_name message sender_socket cs cn σ)
    as [res σ1] eqn:Hrun.
  cbn [fst snd]. unfold broadcast_to in Hrun.
  destruct (negb (Nat.eqb cs sender_socket)).
  2:{ injection Hrun as <- <-. split; [reflexivity|]. exists [].
      rewrite app_nil_r. split; [reflexivity|]. left. split; [reflexivity|].
      intros c p Hin. inversion Hin. }
  unfold try_except in Hrun. unfold bind at 1 in Hrun. rewrite send_run in Hrun.
  set (full := sender_name +:+ ": " +:+ message) in *.
  destruct (send_fails (length (trace σ)) cs); cbn [negb sent] in Hrun;
    cbv beta iota in Hrun.
  - (* the send fails: the recipient is removed *)
    set (σa := with_trace _ σ) in Hrun.
    destruct (remove_client_run σa cs name Hname)
      as (Hr & Hcl & Hn & evs & Ht & Hall & Hin).
    rewrite Hrun in Hr, Hcl, Hn, Ht, Hin. cbn [fst snd] in *.
    split; [exact Hr|]. exists (EvSend SPublic cs full false :: evs).
    split; [rewrite Ht; subst σa; cbn [trace with_trace];
            rewrite <- app_assoc; reflexivity|].
    right. exists name. repeat split; try assumption.
    + intros c p [[= -> _]|Hc]%elem_of_cons; [reflexivity|].
      now apply not_failed_public_of_left in Hc.
    + intros s Hs. destruct (Hin s Hs) as [ok Hok]. exists ok. right. exact Hok.
  - set (σa := with_trace _ σ) in Hrun.
    pose proof (rel_save_chat_history (R:=quietly) sender_name cn message "direct" σa)
      as (Hqt & Hqc & Hqn).
    destruct (save_chat_history sender_name cn message "direct" σa)
      as [[[]|e] σb]; cbn [snd] in Hqt, Hqc, Hqn; cbv beta iota in Hrun.
    + (* delivered and logged *)
      injection Hrun as <- <-. split; [reflexivity|].
      exists [EvSend SPublic cs full true]. split; [rewrite Hqt; reflexivity|].
      left. split; [rewrite Hqc; reflexivity|].
      intros c p [[=]|Hc]%elem_of_cons. inversion Hc.
    + (* delivered, but the log could not be written: removed all the same *)
      assert (Hname' : Dict.get cs (clients σb) = Some name)
        by (rewrite Hqc; exact Hname).
      destruct (remove_client_run σb cs name Hname')
        as (Hr & Hcl & Hn & evs & Ht & Hall & Hin).
      rewrite Hrun in Hr, Hcl, Hn, Ht, Hin. cbn [fst snd] in *.
      split; [exact Hr|]. exists (EvSend SPublic cs full true :: evs).
      split; [rewrite Ht, Hqt; subst σa; cbn [trace with_trace];
              rewrite <- app_assoc; reflexivity|].
      right. exists name. repeat split; try assumption.
      * rewrite Hcl, Hqc. reflexivity.
      * intros c p [[=]|Hc]%elem_of_cons.
        now apply not_failed_public_of_left in Hc.
      * intros s Hs. destruct (Hin s Hs) as [ok Hok]. exists ok. right. exact Hok.
Qed.

Lemma broadcast_loop sender_name message sender_socket used items :
  forall σ,
    length (clients σ) = used ->
    (forall cs cn, (cs, cn) ∈ items -> is_Some (Dict.get cs (clients σ))) ->
    let r := for_clients used items
               (broadcast_to sender_name message sender_socket) σ in
    exists evs, trace r.2 = trace σ ++ evs
                /\ (kept σ r.2 evs
                    \/ exists cs name, r.1 = Raise RuntimeError
                                       /\ dropped σ r.2 evs cs name).
Proof.
  induction items as [|[cs cn] rest IH]; intros σ Hlen Hreg; cbv zeta.
  - cbn [for_clients]. rewrite bind_gets, Hlen, Nat.eqb_refl. cbn.
    exists []. rewrite app_nil_r. split; [reflexivity|]. left.
    split; [reflexivity|]. intros c p Hin. inversion Hin.
  - cbn [for_clients]. rewrite bind_gets, Hlen, Nat.eqb_refl. cbn [negb].
    destruct (broadcast_to_run sender_name message sender_socket cs cn σ)
      as (Hok & evs1 & Ht1 & Hcase); [apply (Hreg cs cn); left|].
    unfold bind.
    destruct (broadcast_to sender_name message sender_socket cs cn σ) as [res σ1].
    cbn [fst snd] in Hok, Ht1, Hcase. subst res.
    destruct Hcase as [[Hcl Hnf]|[name Hdrop]].
    + (* nothing failed: on to the next entry *)
      destruct (IH σ1) as (evs2 & Ht2 & Hcase2).
      { rewrite Hcl. exact Hlen. }
      { intros c n Hin. rewrite Hcl. apply (Hreg c n). right. exact Hin. }
      exists (evs1 ++ evs2). split; [rewrite Ht2, Ht1; apply eq_sym, app_assoc|].
      destruct Hcase2 as [[Hcl2 Hnf2]|(cs2 & name2 & Hres & D1 & D2 & D3 & D4 & D5)].
      * left. split; [congruence|]. intros c p [Hin|Hin]%elem_of_app.
        -- exact (Hnf c p Hin).
        -- exact (Hnf2 c p Hin).
      * right. exists cs2, name2. split; [exact Hres|].
        split; [rewrite <- Hcl; exact D1|]. split; [rewrite <- Hcl; exact D2|].
        split; [exact D3|]. split.
        -- intros c p [Hin|Hin]%elem_of_app;
             [destruct (Hnf c p Hin) | exact (D4 c p Hin)].
        -- intros s Hs. destruct (D5 s Hs) as [ok Hin]. exists ok.
           apply elem_of_app. right. exact Hin.
    + (* a recipient was removed: the iterator raises *)
      destruct Hdrop as (D1 & D2 & D3 & D4 & D5).
      rewrite for_clients_changed.
      2:{ rewrite D2. pose proof (length_del (clients σ) cs (mk_is_Some _ _ D1)). lia. }
      exists evs1. split; [exact Ht1|]. right. exists cs, name.
      repeat split; assumption.
Qed.

(** C3, as the code has it. When a send of [broadcast_message] to a
    recipient fails, the failure is caught inside the loop and the
    recipient is dropped: [remove_client] takes it out of both
    dictionaries and sends its departure to every session that is left,
    the sender's included. The exception of the failed send does not
    leave [broadcast_message]. *)
Theorem broadcast_drops_failed_recipient σ message sender_socket recipient payload :
  let r := broadcast_message message sender_socket σ in
  EvSend SPublic recipient payload false ∈ emitted σ r.2 ->
  exists name,
    Dict.get recipient (clients σ) = Some name
    /\ r.1 <> Raise BrokenPipeError
    /\ Dict.get recipient (clients r.2) = None
    /\ Dict.get name (client_names r.2) = None
    /\ (forall s, s ∈ Dict.keys (clients r.2) ->
          exists ok,
            EvSend SLeft s (name +:+ " has left the chat") ok ∈ emitted σ r.2).
Proof.
  cbv zeta. unfold broadcast_message. rewrite bind_gets.
  set (sender_name := default "Unknown" (Dict.get sender_socket (clients σ))).
  destruct (broadcast_loop sender_name message sender_socket
              (length (clients σ)) (clients σ) σ eq_refl)
    as (evs & Ht & Hcase).
  { intros cs cn Hin. apply elem_of_keys. apply list_elem_of_fmap.
    exists (cs, cn). split; [reflexivity | exact Hin]. }
  rewrite (emitted_app _ _ _ Ht). intros Hfail.
  destruct Hcase as [[_ Hnf]|(cs & name & Hres & D1 & D2 & D3 & D4 & D5)].
  - destruct (Hnf _ _ Hfail).
  - apply D4 in Hfail. subst cs. exists name.
    split; [exact D1|]. split; [rewrite Hres; discriminate|].
    split; [rewrite D2; apply get_del_eq|]. split; [exact D3 | exact D5].
Qed.

Lemma startswith_hash rest : Str.startswith "#" (String "#" rest) = true.
Proof. destruct rest; reflexivity. Qed.

(** C4, where the code departs from it. When the group of a
    "#<group> <text>" line does not exist, or the sender is not one of
    its members, [send_group_message] returns the error text and
    [handle_client] drops it: the one line the sender is sent is the echo
    "[<group>] <sender>: <text>", the same as for a delivered message. *)
Theorem group_error_reply_dropped σ client_socket username rest group_name text :
  Str.split_space rest = (group_name, Some text) ->
  (Dict.get group_name (groups σ) = None
   \/ exists ms, Dict.get group_name (groups σ) = Some ms
                 /\ username <> "SYSTEM" /\ username ∉ ms) ->
  let r := handle_message client_socket username (String "#" rest) σ in
  (exists error,
     send_group_message text group_name username σ = (Ok error, σ)
     /\ (error = "Group '" +:+ group_name +:+ "' does not exist"
         \/ error = "You are not a member of group '" +:+ group_name +:+ "'"))
  /\ emitted σ r.2 =
       [EvSend SEcho client_socket
          ("[" +:+ group_name +:+ "] " +:+ username +:+ ": " +:+ text)
          (negb (send_fails (length (trace σ)) client_socket))].
Proof.
  intros Hsplit Hcase. cbv zeta.
  assert (Hsend : exists error,
             send_group_message text group_name username σ = (Ok error, σ)
             /\ (error = "Group '" +:+ group_name +:+ "' does not exist"
                 \/ error = "You are not a member of group '" +:+ group_name +:+ "'")).
  { unfold send_group_message. rewrite bind_gets.
    destruct Hcase as [->|(ms & -> & Hsys & Hnot)]; [eexists; split; eauto|].
    apply String.eqb_neq in Hsys. rewrite Hsys.
    rewrite bool_decide_eq_false_2 by exact Hnot. cbn [negb andb].
    eexists; split; eauto. }
  split; [exact Hsend|]. destruct Hsend as (error & Hrun & _).
  unfold handle_message.
  change (String.eqb (String "#" rest) EmptyString) with false.
  change (Str.startswith "/quit" (String "#" rest)) with false.
  change (Str.startswith "/users" (String "#" rest)) with false.
  change (Str.startswith "/creategroup " (String "#" rest)) with false.
  change (Str.startswith "/addtogroup " (String "#" rest)) with false.
  change (Str.startswith "/leavegroup " (String "#" rest)) with false.
  change (Str.startswith "/listgroups" (String "#" rest)) with false.
  change (Str.startswith "/groupmembers " (String "#" rest)) with false.
  change (Str.startswith "@" (String "#" rest)) with false.
  rewrite startswith_hash. cbv iota.
  change (Str.slice_from 1 (String "#" rest)) with rest. rewrite Hsplit.
  rewrite bind_bind. unfold bind at 1. rewrite Hrun. cbv beta iota.
  unfold bind. rewrite send_run.
  apply emitted_app.
  destruct (negb (send_fails (length (trace σ)) client_socket)); reflexivity.
Qed.
End Router.

(** ** More on the session registry and the connection handler *)

Section MoreSessions.
Context `{Env}.

Lemma with_trace_nil σ : with_trace (trace σ ++ []) σ = σ.
Proof. rewrite app_nil_r. destruct σ; reflexivity. Qed.

(** A loop of sends whose failures are passed over is a fan-out. *)
Lemma for_each_fan from payload l :
  forall σ,
    for_each l (fun s => try_except (send from s payload) (ret tt)) σ =
      (Ok tt, with_trace (trace σ ++ fan from payload (length (trace σ)) l) σ).
Proof.
  induction l as [|x l IH]; intros σ; cbn [for_each fan].
  - now rewrite with_trace_nil.
  - rewrite bind_try_send, IH. simpl (trace _).
    rewrite length_app, Nat.add_1_r. cbn [length].
    rewrite <- app_assoc. reflexivity.
Qed.

Lemma for_each_fan_guarded from payload (guard : Sock -> bool) l :
  forall σ,
    for_each l (fun s => if guard s
                         then try_except (send from s payload) (ret tt)
                         else ret tt) σ =
      (Ok tt, with_trace (trace σ ++ fan from payload (length (trace σ))
                                       (List.filter guard l)) σ).
Proof.
  induction l as [|x l IH]; intros σ; cbn [for_each fan List.filter].
  - now rewrite with_trace_nil.
  - destruct (guard x); cbn [fan].
    + rewrite bind_try_send, IH. simpl (trace _).
      rewrite length_app, Nat.add_1_r. cbn [length].
      rewrite <- app_assoc. reflexivity.
    + rewrite bind_ret. apply IH.
Qed.

Lemma remove_client_absent σ client_socket :
  Dict.get client_socket (clients σ) = None ->
  remove_client client_socket σ = (Ok tt, σ).
Proof. intros Hc. unfold remove_client. now rewrite bind_gets, Hc. Qed.

Lemma remove_client_present σ client_socket name :
  Dict.get client_socket (clients σ) = Some name ->
  remove_client client_socket σ =
    (Ok tt,
     with_trace
       (trace σ ++ fan SLeft (name +:+ " has left the chat") (length (trace σ))
                     (Dict.keys (Dict.del client_socket (clients σ))))
       (with_client_names
          (if Dict.mem name (client_names σ)
           then Dict.del name (client_names σ) else client_names σ)
          (with_clients (Dict.del client_socket (clients σ)) σ))).
Proof.
  intros Hc. unfold remove_client.
  rewrite bind_gets, Hc, bind_modify, bind_gets.
  simpl (client_names _).
  destruct (Dict.mem name (client_names σ));
    [rewrite bind_modify | rewrite bind_ret]; rewrite bind_gets, for_each_fan;
    reflexivity.
Qed.

(** X6. [remove_client] on a socket that has no session does nothing at
    all. On a socket that has one, it never raises; the socket and its
    name are gone from the two dictionaries and every other session is
    kept; each session that is left is sent the departure once, in the
    order of registration, also after a send that failed; the group
    registry is left as it was. Removing the same socket again does
    nothing. *)
Theorem remove_client_effect σ client_socket :
  reachable σ ->
  let r := remove_client client_socket σ in
  r.1 = Ok tt
  /\ (Dict.get client_socket (clients σ) = None -> r.2 = σ)
  /\ (forall name,
        Dict.get client_socket (clients σ) = Some name ->
        Dict.get client_socket (clients r.2) = None
        /\ Dict.get name (client_names r.2) = None
        /\ (forall s, s <> client_socket ->
              Dict.get s (clients r.2) = Dict.get s (clients σ))
        /\ (forall n, n <> name ->
              Dict.get n (client_names r.2) = Dict.get n (client_names σ))
        /\ emitted σ r.2 =
             fan SLeft (name +:+ " has left the chat") (length (trace σ))
               (Dict.keys (clients r.2))
        /\ groups r.2 = groups σ /\ group_admins r.2 = group_admins σ)
  /\ remove_client client_socket r.2 = (Ok tt, r.2).
Proof.
  intros Hr. apply reachable_inv in Hr as [_ (Hnd & Hcn & Hnc)]. cbv zeta.
  destruct (Dict.get client_socket (clients σ)) as [name|] eqn:Hc.
  - rewrite (remove_client_present σ client_socket name Hc).
    pose proof (Hcn _ _ Hc) as Hn.
    replace (Dict.mem name (client_names σ)) with true
      by (symmetry; apply mem_true; eauto).
    cbn [fst snd]. split; [reflexivity|]. split; [discriminate|]. split.
    + intros name' [= <-]. simpl.
      split; [apply get_del_eq|]. split; [apply get_del_eq|].
      split; [intros s Hs; apply get_del_ne; congruence|].
      split; [intros n Hn'; apply get_del_ne; congruence|].
      split; [apply drop_app_length|]. split; reflexivity.
    + apply remove_client_absent. simpl. apply get_del_eq.
  - rewrite (remove_client_absent σ client_socket Hc). cbn [fst snd].
    split; [reflexivity|]. split; [reflexivity|]. split; [discriminate|].
    apply remove_client_absent, Hc.
Qed.

Lemma try_except_ret_ok {A} (m : M A) (a : A) σ :
  exists b, (try_except m (ret a) σ).1 = Ok b.
Proof. unfold try_except. destruct (m σ) as [[b|e] σ1]; eexists; reflexivity. Qed.

Lemma teardown_run σ client_socket :
  let r := teardown client_socket σ in
  r.1 = Ok tt
  /\ Dict.get client_socket (clients r.2) = None
  /\ last (trace r.2) = Some (EvClose client_socket).
Proof.
  cbv zeta. unfold teardown, close. unfold bind.
  destruct (Dict.get client_socket (clients σ)) as [name|] eqn:Hc.
  - rewrite (remove_client_present σ client_socket name Hc). cbn.
    split; [reflexivity|]. split; [apply get_del_eq | apply last_snoc].
  - rewrite (remove_client_absent σ client_socket Hc). cbn.
    split; [reflexivity|]. split; [exact Hc | apply last_snoc].
Qed.

(** X8. Whatever the peer sends and whichever sends fail,
    [handle_client] never raises, leaves no session on its socket, and
    the last thing it does is to close the socket. *)
Theorem handle_client_releases σ client_socket inputs :
  let r := handle_client client_socket inputs σ in
  r.1 = Ok tt
  /\ Dict.get client_socket (clients r.2) = None
  /\ last (trace r.2) = Some (EvClose client_socket).
Proof.
  cbv zeta. unfold handle_client, try_finally.
  match goal with
  | |- context [try_except ?m (ret tt) σ] =>
      destruct (try_except_ret_ok m tt σ) as [[] Hok];
      destruct (try_except m (ret tt) σ) as [res σ1]
  end.
  cbn [fst] in Hok. subst res.
  destruct (teardown_run σ1 client_socket) as (Hr & Hc & Hl).
  destruct (teardown client_socket σ1) as [[[]|e] σ2]; cbn [fst snd] in *;
    [|discriminate].
  split; [reflexivity|]. split; assumption.
Qed.

Lemma set_absent {K V} `{EqDecision K} (d : list (K * V)) k v :
  Dict.get k d = None -> Dict.set k v d = d ++ [(k, v)].
Proof.
  induction d as [|[k' v'] d IH]; simpl; [reflexivity|].
  destruct (decide (k = k')); [discriminate|]. intros Hg. now rewrite IH.
Qed.

Lemma filter_others (cl : list (Sock * string)) s u :
  Dict.get s cl = None ->
  List.filter (fun x => negb (Nat.eqb x s)) (Dict.keys (cl ++ [(s, u)])) = Dict.keys cl.
Proof.
  intros Hs. unfold Dict.keys. rewrite map_app, List.filter_app. cbn.
  rewrite Nat.eqb_refl. cbn. rewrite app_nil_r.
  induction cl as [|[k v] cl IH]; [reflexivity|].
  simpl in Hs. destruct (decide (s = k)) as [->|Hne]; [discriminate|].
  cbn. replace (Nat.eqb k s) with false
    by (symmetry; apply Nat.eqb_neq; congruence).
  cbn. f_equal. apply IH, Hs.
Qed.

Lemma length_fan from payload t l : length (fan from payload t l) = length l.
Proof. revert t. induction l as [|x l IH]; intros t; cbn; [reflexivity|]. now rewrite IH. Qed.

(** The handshake on a new socket, with a prompt that went through and a
    name that is free. *)
Lemma handshake_run σ client_socket data :
  Dict.get client_socket (clients σ) = None ->
  send_fails (length (trace σ)) client_socket = false ->
  Dict.mem (Str.strip data) (client_names σ) = false ->
  let username := Str.strip data in
  let t := length (trace σ) in
  let welcomed := negb (send_fails (S t + length (clients σ)) client_socket) in
  handshake client_socket data σ =
    (if welcomed then Ok (Some username) else Raise BrokenPipeError,
     with_trace
       (trace σ ++
          EvSend SPrompt client_socket "Enter your username: " true
          :: fan SJoin (username +:+ " has joined the chat") (S t)
               (Dict.keys (clients σ))
          ++ [EvSend SWelcome client_socket (welcome_msg username) welcomed])
       (with_client_names (client_names σ ++ [(username, client_socket)])
          (with_clients (clients σ ++ [(client_socket, username)]) σ))).
Proof.
  intros Hfresh Hprompt Hfree. cbv zeta. unfold handshake.
  generalize dependent (Str.strip data). intros u Hfree.
  pose proof (proj1 (mem_false _ _) Hfree) as Hnone.
  unfold bind at 1. rewrite send_run, Hprompt.
  cbn [negb sent]. cbv beta iota.
  rewrite bind_gets. simpl (client_names _). rewrite Hfree.
  rewrite !bind_modify, bind_gets. simpl (clients _).
  rewrite (set_absent _ _ _ Hfresh), (set_absent _ _ _ Hnone).
  unfold bind at 1. rewrite for_each_fan_guarded.
  cbv beta iota. rewrite (filter_others _ _ _ Hfresh).
  unfold bind at 1. rewrite send_run. simpl (trace _).
  rewrite !length_app, length_fan. cbn [length].
  rewrite !Nat.add_1_r.
  replace (length (Dict.keys (clients σ))) with (length (clients σ))
    by (unfold Dict.keys; now rewrite length_map).
  destruct (send_fails (S (length (trace σ)) + length (clients σ)) client_socket);
    cbn [negb sent]; cbv beta iota; unfold ret;
    (f_equal; [idtac]); simpl; rewrite <- !app_assoc; reflexivity.
Qed.

(** X7. A handshake on a new socket, with a prompt that went through and
    a name that is free, registers the name it received with the white
    space around it stripped (be it empty) as the last entry of both
    dictionaries, tells every session that was there before, once each
    and in the order of registration, and sends the welcome text last;
    only a failure of that last send is raised, with the session
    registered all the same. *)
Theorem handshake_registers σ client_socket data :
  Dict.get client_socket (clients σ) = None ->
  send_fails (length (trace σ)) client_socket = false ->
  Dict.mem (Str.strip data) (client_names σ) = false ->
  let username := Str.strip data in
  let t := length (trace σ) in
  let welcomed := negb (send_fails (S t + length (clients σ)) client_socket) in
  let r := handshake client_socket data σ in
  r.1 = (if welcomed then Ok (Some username) else Raise BrokenPipeError)
  /\ clients r.2 = clients σ ++ [(client_socket, username)]
  /\ client_names r.2 = client_names σ ++ [(username, client_socket)]
  /\ emitted σ r.2 =
       EvSend SPrompt client_socket "Enter your username: " true
       :: fan SJoin (username +:+ " has joined the chat") (S t)
            (Dict.keys (clients σ))
       ++ [EvSend SWelcome client_socket (welcome_msg username) welcomed]
  /\ groups r.2 = groups σ /\ group_admins r.2 = group_admins σ
  /\ files r.2 = files σ.
Proof.
  intros Hfresh Hprompt Hfree. cbv zeta.
  rewrite (handshake_run σ client_socket data Hfresh Hprompt Hfree).
  cbn [fst snd]. split; [reflexivity|]. split; [reflexivity|].
  split; [reflexivity|]. split; [|repeat split].
  apply emitted_app. reflexivity.
Qed.

Lemma get_app_new {K V} `{EqDecision K} (d : list (K * V)) k v :
  Dict.get k d = None -> Dict.get k (d ++ [(k, v)]) = Some v.
Proof. intros Hd. rewrite <- (set_absent _ _ _ Hd). apply get_set_eq. Qed.

Lemma del_app_new {K V} `{EqDecision K} (d : list (K * V)) k v :
  Dict.get k d = None -> Dict.del k (d ++ [(k, v)]) = d.
Proof.
  induction d as [|[k' v'] d IH]; simpl.
  - intros _. now rewrite decide_True.
  - destruct (decide (k = k')); [discriminate|]. intros Hd. now rewrite IH.
Qed.

Lemma handle_message_quit σ client_socket username message :
  message = EmptyString \/ Str.startswith "/quit" message = true ->
  handle_message client_socket username message σ = (Ok Break, σ).
Proof.
  intros Hq. unfold handle_message.
  destruct (String.eqb_spec message EmptyString) as [|Hne]; [reflexivity|].
  destruct Hq as [Hq|Hq]; [contradiction | now rewrite Hq].
Qed.

(** X12. A connection that registers and at once quits, closes or
    breaks leaves both dictionaries as it found them. On a new socket,
    with a prompt that went through and a name that is free, when the
    first thing [recv] gives after the name is no bytes, a text that
    begins with [/quit] or an error, [handle_client] returns; the
    sessions that were there are told of the arrival and then of the
    departure, once each; the socket is closed last; and the two
    registries are what they were, whether the welcome text went through
    or not. *)
Theorem session_leaves_registry_as_found σ client_socket data rest :
  Dict.get client_socket (clients σ) = None ->
  send_fails (length (trace σ)) client_socket = false ->
  Dict.mem (Str.strip data) (client_names σ) = false ->
  (forall message more,
     rest = Data message :: more ->
     message = EmptyString \/ Str.startswith "/quit" message = true) ->
  let username := Str.strip data in
  let t := length (trace σ) in
  let n := length (clients σ) in
  let r := handle_client client_socket (Data data :: rest) σ in
  r.1 = Ok tt
  /\ same_sessions σ r.2 /\ same_groups σ r.2
  /\ emitted σ r.2 =
       EvSend SPrompt client_socket "Enter your username: " true
       :: fan SJoin (username +:+ " has joined the chat") (S t)
            (Dict.keys (clients σ))
       ++ [EvSend SWelcome client_socket (welcome_msg username)
             (negb (send_fails (S t + n) client_socket))]
       ++ fan SLeft (username +:+ " has left the chat") (S (S t) + n)
            (Dict.keys (clients σ))
       ++ [EvClose client_socket].
Proof.
  intros Hfresh Hprompt Hfree Hrest. cbv zeta.
  pose proof (handshake_run σ client_socket data Hfresh Hprompt Hfree) as Hhs.
  cbv zeta in Hhs.
  pose proof (proj1 (mem_false _ _) Hfree) as Hnone.
  destruct (handle_client client_socket (Data data :: rest) σ)
    as [res σ'] eqn:Hrun.
  unfold handle_client, try_finally in Hrun. cbv beta iota in Hrun.
  cbn [tail] in Hrun. unfold try_except at 1, bind at 1 in Hrun.
  generalize dependent (Str.strip data). intros u Hfree Hhs Hnone.
  set (welcomed := negb (send_fails (S (length (trace σ)) + length (clients σ))
                           client_socket)) in *.
  match type of Hhs with _ = (_, ?s) => set (σ1 := s) in * end.
  rewrite Hhs in Hrun. clear Hhs.
  assert (Hserve : exists res1, serve client_socket u rest σ1 = (res1, σ1)).
  { destruct rest as [|[q|] more]; cbn [serve].
    - eexists; reflexivity.
    - unfold bind.
      rewrite (handle_message_quit _ _ _ _ (Hrest q more eq_refl)).
      eexists; reflexivity.
    - eexists; reflexivity. }
  assert (Hget : Dict.get client_socket (clients σ1) = Some u)
    by (subst σ1; simpl; now apply get_app_new).
  assert (Hlen : length (trace σ1) = S (S (length (trace σ))) + length (clients σ)).
  { subst σ1. simpl. rewrite length_app. cbn [length].
    rewrite length_app, length_fan. cbn [length].
    unfold Dict.keys. rewrite length_map. lia. }
  assert (Htd : teardown client_socket σ1 =
                (Ok tt,
                 with_trace
                   (trace σ1
                    ++ fan SLeft (u +:+ " has left the chat")
                         (S (S (length (trace σ))) + length (clients σ))
                         (Dict.keys (clients σ))
                    ++ [EvClose client_socket])
                   (with_client_names (client_names σ)
                      (with_clients (clients σ) σ1)))).
  { unfold teardown, bind, close, modify.
    rewrite (remove_client_present σ1 client_socket u Hget), Hlen.
    subst σ1. simpl.
    rewrite (del_app_new _ _ _ Hfresh).
    replace (Dict.mem u (client_names σ ++ [(u, client_socket)])) with true
      by (symmetry; apply mem_true; rewrite (get_app_new _ _ _ Hnone); eauto).
    rewrite (del_app_new _ _ _ Hnone), <- !app_assoc. reflexivity. }
  assert (Hfinal : (res, σ') =
                   (Ok tt,
                    with_trace
                      (trace σ1
                       ++ fan SLeft (u +:+ " has left the chat")
                            (S (S (length (trace σ))) + length (clients σ))
                            (Dict.keys (clients σ))
                       ++ [EvClose client_socket])
                      (with_client_names (client_names σ)
                         (with_clients (clients σ) σ1)))).
  { rewrite <- Hrun. destruct welcomed.
    - destruct Hserve as [[[]|e] Hs]; rewrite Hs; cbn [ret]; rewrite Htd;
        reflexivity.
    - cbn [ret]. rewrite Htd. reflexivity. }
  injection Hfinal as -> ->. cbn [fst snd].
  split; [reflexivity|]. split; [split; reflexivity|].
  split; [split; reflexivity|].
  apply emitted_app. subst σ1. simpl (trace _).
  rewrite <- !app_assoc. cbn [app]. rewrite <- !app_assoc. reflexivity.
Qed.
End MoreSessions.

(** ** The connection threads *)

Section Threads.
Context `{Env}.

Lemma get_app_old {K V} `{EqDecision K} (d d' : list (K * V)) k v :
  Dict.get k d = Some v -> Dict.get k (d ++ d') = Some v.
Proof.
  induction d as [|[k' v'] d IH]; simpl; [discriminate|].
  destruct (decide (k = k')); [trivial | exact IH].
Qed.

Lemma elem_of_values {K V} `{EqDecision K} (d : list (K * V)) k v :
  Dict.get k d = Some v -> v ∈ map snd d.
Proof.
  induction d as [|[k' v'] d IH]; simpl; [discriminate|].
  destruct (decide (k = k')).
  - intros [= ->]. left.
  - intros Hd. right. exact (IH Hd).
Qed.

Lemma elem_of_fan from payload t targets e :
  e ∈ fan from payload t targets ->
  exists to ok, e = EvSend from to payload ok.
Proof.
  revert t. induction targets as [|s rest IH]; intros t; cbn [fan].
  - intros He. inversion He.
  - rewrite elem_of_cons. intros [->|He]; [eauto | exact (IH _ He)].
Qed.

Lemma play_cons a actions p : play (a :: actions) p = play actions (step a p).
Proof. reflexivity. Qed.

(** A thread that is not in its loop takes no turn. *)
Lemma play_turns_idle s inputs p :
  Dict.get s (served p) = None -> play (map (Turn s) inputs) p = p.
Proof.
  intros Hs. induction inputs as [|i inputs IH]; [reflexivity|].
  cbn [map]. rewrite play_cons. unfold step. rewrite Hs. exact IH.
Qed.

(** The turns of one thread, taken one after the other with no other
    thread in between, are the loop of [handle_client] followed by its
    [finally] block. *)
Lemma play_turns_serve s username inputs : forall p,
  Dict.get s (served p) = Some username ->
  play (map (Turn s) inputs ++ [Turn s (Data EmptyString)]) p =
    Pool (teardown s (serve s username inputs (state p)).2).2
         (Dict.del s (served p)).
Proof.
  assert (Hdone : forall l threads σ,
             play (map (Turn s) l ++ [Turn s (Data EmptyString)])
               (finish s threads σ) = finish s threads σ).
  { intros l threads σ. change [Turn s (Data EmptyString)] with (map (Turn s) [Data EmptyString]).
    rewrite <- map_app.
    apply play_turns_idle. apply get_del_eq. }
  induction inputs as [|i inputs IH]; intros p Hs.
  - cbn [map app]. rewrite play_cons. unfold step. rewrite Hs. reflexivity.
  - cbn [map app]. rewrite play_cons. unfold step. rewrite Hs.
    destruct i as [message|].
    + cbn [serve]. unfold bind.
      destruct (handle_message s username message (state p)) as [[[]|e] σ1].
      * rewrite (IH (Pool σ1 (served p)) Hs). reflexivity.
      * apply Hdone.
      * apply Hdone.
    + apply Hdone.
Qed.

(** A thread run from [accept] to its end with no other thread in between
    leaves the server as [handle_client] does, and the other threads where
    they were. *)
Lemma play_thread s first rest p :
  Dict.get s (served p) = None ->
  Dict.get s (clients (state p)) = None ->
  play (Accept s first :: map (Turn s) rest ++ [Turn s (Data EmptyString)]) p =
    Pool (handle_client s (first :: rest) (state p)).2 (served p).
Proof.
  intros Hs Hc.
  assert (Hdel : Dict.del s (served p) = served p).
  { clear Hc. induction (served p) as [|[k v] d IH]; [reflexivity|].
    simpl in Hs |- *. destruct (decide (s = k)); [discriminate|].
    now rewrite (IH Hs). }
  assert (Hdone : forall l σ,
             play (map (Turn s) l ++ [Turn s (Data EmptyString)])
               (finish s (served p) σ) = Pool (teardown s σ).2 (served p)).
  { intros l σ. change [Turn s (Data EmptyString)] with (map (Turn s) [Data EmptyString]).
    rewrite <- map_app.
    rewrite play_turns_idle by apply get_del_eq.
    unfold finish. now rewrite Hdel. }
  rewrite play_cons. unfold step.
  rewrite (proj2 (mem_false _ _) Hs), (proj2 (mem_false _ _) Hc). cbn [orb].
  unfold handle_client, try_finally, try_except.
  destruct first as [data|].
  - cbn [tail]. unfold bind at 1.
    destruct (handshake s data (state p)) as [[[username|]|e] σ1].
    + rewrite (play_turns_serve s username rest)
        by (cbn [served]; now apply get_app_new).
      cbn [state served]. rewrite (del_app_new _ _ _ Hs).
      destruct (serve s username rest σ1) as [[[]|e] σ2];
        unfold ret; cbv beta iota; cbn [fst snd];
        destruct (teardown s σ2) as [[[]|e'] σ3]; reflexivity.
    + rewrite Hdone. unfold ret. cbv beta iota.
      destruct (teardown s σ1) as [[[]|e'] σ3]; reflexivity.
    + rewrite Hdone. unfold ret. cbv beta iota.
      destruct (teardown s σ1) as [[[]|e'] σ3]; reflexivity.
  - rewrite Hdone. unfold bind, raise, ret.
    destruct (send SPrompt s "Enter your username: " (state p)) as [[[]|e] σ1];
      cbv beta iota; cbn [snd];
      destruct (teardown s σ1) as [[[]|e'] σ3]; reflexivity.
Qed.

(** C6, where the code departs from it. The names of the connections that
    are served are not kept distinct. A connection that is in its loop
    under a name which is not in the registry (the [except] branch of
    [broadcast_message] took it out, and its thread runs on) does not
    hold that name: a new connection that proposes it is not rejected and
    not closed but registered under it, and two connections are then in
    their loops under one display name. *)
Theorem deregistered_name_taken_again p s username s' data :
  Dict.get s (served p) = Some username ->
  Dict.get username (client_names (state p)) = None ->
  Dict.get s' (served p) = None ->
  Dict.get s' (clients (state p)) = None ->
  Str.strip data = username ->
  (forall t, send_fails t s' = false) ->
  let p' := step (Accept s' (Data data)) p in
  served p' = served p ++ [(s', username)]
  /\ Dict.get s (served p') = Some username
  /\ Dict.get s' (served p') = Some username
  /\ s <> s'
  /\ ~ NoDup (map snd (served p'))
  /\ Dict.get s' (clients (state p')) = Some username
  /\ Dict.get username (client_names (state p')) = Some s'
  /\ (forall payload ok,
        EvSend SReject s' payload ok ∉ emitted (state p) (state p'))
  /\ EvClose s' ∉ emitted (state p) (state p').
Proof.
  intros Hs Hname Hs' Hc' Hdata Hsend. cbv zeta.
  assert (Hne : s <> s') by (intros ->; congruence).
  assert (Hstep : step (Accept s' (Data data)) p =
            Pool (handshake s' data (state p)).2 (served p ++ [(s', username)])
          /\ (handshake s' data (state p)).1 = Ok (Some username)).
  { unfold step.
    rewrite (proj2 (mem_false _ _) Hs'), (proj2 (mem_false _ _) Hc'). cbn [orb].
    rewrite (handshake_run (state p) s' data Hc' (Hsend _))
      by (rewrite Hdata; now apply mem_false).
    cbv zeta. rewrite Hsend, Hdata. cbn [negb fst snd]. split; reflexivity. }
  destruct Hstep as [Hstep _]. rewrite Hstep. cbn [served state].
  rewrite (handshake_run (state p) s' data Hc' (Hsend _))
    by (rewrite Hdata; now apply mem_false).
  cbv zeta. rewrite Hsend, Hdata. cbn [negb snd].
  split; [reflexivity|].
  split; [now apply get_app_old|].
  split; [now apply get_app_new|].
  split; [exact Hne|].
  split.
  { rewrite map_app. intros Hnd. apply NoDup_app in Hnd as (_ & Hdisj & _).
    apply (Hdisj username (elem_of_values _ _ _ Hs)). cbn. left. }
  split; [simpl; now apply get_app_new|].
  split; [simpl; now apply get_app_new|].
  assert (Hem : emitted (state p)
              (with_trace
                 (trace (state p) ++
                  EvSend SPrompt s' "Enter your username: " true
                  :: fan SJoin (username +:+ " has joined the chat")
                       (S (length (trace (state p))))
                       (Dict.keys (clients (state p)))
                  ++ [EvSend SWelcome s' (welcome_msg username) true])
                 (with_client_names
                    (client_names (state p) ++ [(username, s')])
                    (with_clients (clients (state p) ++ [(s', username)])
                       (state p)))) =
            EvSend SPrompt s' "Enter your username: " true
            :: fan SJoin (username +:+ " has joined the chat")
                 (S (length (trace (state p))))
                 (Dict.keys (clients (state p)))
            ++ [EvSend SWelcome s' (welcome_msg username) true])
    by (apply emitted_app; reflexivity).
  rewrite Hem.
  split; [intros payload ok Hin | intros Hin];
    apply elem_of_cons in Hin as [Hin|Hin]; try discriminate;
    apply elem_of_app in Hin as [Hin|Hin];
    [ apply elem_of_fan in Hin as (to & ok' & Hin); discriminate
    | apply list_elem_of_singleton in Hin; discriminate
    | apply elem_of_fan in Hin as (to & ok' & Hin); discriminate
    | apply list_elem_of_singleton in Hin; discriminate ].
Qed.
End Threads.

(** ** More on the group registry *)

Section MoreGroups.
Context `{Env}.

(** All that [save_group_info] can do for a group that is registered. *)
Lemma save_group_info_outcome σ group_name admin members :
  Dict.get group_name (group_admins σ) = Some admin ->
  Dict.get group_name (groups σ) = Some members ->
  save_group_info group_name σ =
    if unwritable (group_info_file group_name)
    then (Raise OSError, with_ticks (S (ticks σ)) σ)
    else (Ok tt,
          with_files
            (<[group_info_file group_name :=
                 FJson (JObj [ ("group_name", JStr group_name);
                               ("admin", JStr admin);
                               ("members", JArr (map JStr (set_iter members)));
                               ("created_date", JStr (clock (ticks σ))) ])]> (files σ))
            (with_ticks (S (ticks σ)) σ)).
Proof.
  intros Ha Hg. unfold save_group_info, json_dump.
  rewrite bind_bind, bind_gets, Ha. cbn [lookup_or_raise]. rewrite bind_ret.
  rewrite bind_bind, bind_gets, Hg. cbn [lookup_or_raise]. rewrite bind_ret.
  unfold bind, now. destruct (unwritable _); reflexivity.
Qed.

Lemma set_iter_singleton (x : string) : set_iter {[x]} = [x].
Proof.
  apply Permutation_singleton_r. rewrite (set_iter_perm {[x]}).
  now rewrite elements_singleton.
Qed.

(** What [create_group] does with a name that is not registered. *)
Lemma create_group_run σ admin_name group_name :
  Dict.get group_name (groups σ) = None ->
  let σ1 :=
    with_group_admins (Dict.set group_name admin_name (group_admins σ))
      (with_groups (groups σ ++ [(group_name, {[admin_name]})]) σ) in
  create_group admin_name group_name σ =
    if unwritable (group_info_file group_name)
    then (Raise OSError, with_ticks (S (ticks σ)) σ1)
    else (Ok ("Group '" +:+ group_name
              +:+ "' created successfully. You are the admin."),
          with_files
            (<[group_info_file group_name :=
                 FJson (JObj [ ("group_name", JStr group_name);
                               ("admin", JStr admin_name);
                               ("members", JArr [JStr admin_name]);
                               ("created_date", JStr (clock (ticks σ))) ])]>
               (files σ))
            (with_ticks (S (ticks σ)) σ1)).
Proof.
  intros Hg. cbv zeta. unfold create_group. rewrite bind_gets.
  apply mem_false in Hg as Hm. rewrite Hm.
  rewrite !bind_modify. unfold bind at 1.
  rewrite (save_group_info_outcome _ group_name admin_name {[admin_name]})
    by (simpl; apply get_set_eq).
  rewrite set_iter_singleton. simpl (groups _).
  rewrite (set_absent _ _ _ Hg).
  destruct (unwritable (group_info_file group_name)); reflexivity.
Qed.

(** X1. [create_group] on a name that is registered changes nothing. On
    a new name it registers the group last, with the caller as its admin
    and only member, and writes the metadata file; when that file cannot
    be written [OSError] leaves the method with the group registered all
    the same. It sends nothing and leaves the sessions alone. *)
Theorem create_group_effect σ admin_name group_name :
  let r := create_group admin_name group_name σ in
  let path := group_info_file group_name in
  (is_Some (Dict.get group_name (groups σ)) ->
     r = (Ok ("Group '" +:+ group_name +:+ "' already exists"), σ))
  /\ (Dict.get group_name (groups σ) = None ->
        r.1 = (if unwritable path then Raise OSError
               else Ok ("Group '" +:+ group_name
                        +:+ "' created successfully. You are the admin."))
        /\ groups r.2 = groups σ ++ [(group_name, {[admin_name]})]
        /\ group_admins r.2 = Dict.set group_name admin_name (group_admins σ)
        /\ files r.2 =
             (if unwritable path then files σ
              else <[path := FJson (JObj [ ("group_name", JStr group_name);
                                           ("admin", JStr admin_name);
                                           ("members", JArr [JStr admin_name]);
                                           ("created_date", JStr (clock (ticks σ))) ])]>
                     (files σ))
        /\ same_sessions σ r.2 /\ trace r.2 = trace σ).
Proof.
  cbv zeta. split.
  - intros Hg. unfold create_group. rewrite bind_gets.
    apply mem_true in Hg. now rewrite Hg.
  - intros Hg. rewrite (create_group_run σ admin_name group_name Hg).
    destruct (unwritable (group_info_file group_name)); repeat split; reflexivity.
Qed.

Lemma delivered_cons from s payload ok evs :
  delivered (EvSend from s payload ok :: evs) =
    (if ok then 1 else 0) + delivered evs.
Proof. unfold delivered. cbn. destruct ok; reflexivity. Qed.

(** The loop of [send_group_message] is a fan-out to the recipients, and
    counts the sends that went through. *)
Lemma group_fanout_run members sender_name full_message :
  forall n σ,
    let evs := fan SGroup full_message (length (trace σ))
                 (recipients (client_names σ) sender_name members) in
    group_fanout members sender_name full_message n σ =
      (Ok (n + delivered evs), with_trace (trace σ ++ evs) σ).
Proof.
  induction members as [|member rest IH]; intros n σ; cbv zeta;
    cbn [group_fanout recipients fan].
  - rewrite with_trace_nil. unfold delivered. cbn. now rewrite Nat.add_0_r.
  - rewrite bind_gets. unfold Dict.mem.
    destruct (Dict.get member (client_names σ)) as [s|] eqn:Hs; cbn [andb].
    + destruct (String.eqb member sender_name); cbn [negb].
      * apply IH.
      * cbn [lookup_or_raise fan]. unfold bind at 1, try_except.
        rewrite bind_ret. unfold bind at 1. rewrite send_run.
        rewrite delivered_cons.
        destruct (send_fails (length (trace σ)) s); cbn [negb sent];
          unfold ret; cbv beta iota; rewrite IH; simpl (trace _);
          simpl (client_names _); rewrite length_app, Nat.add_1_r;
          cbn [length]; rewrite <- app_assoc; cbn [app Nat.add];
          rewrite ?Nat.add_succ_r, ?Nat.add_0_r; reflexivity.
    + apply IH.
Qed.

Lemma elem_of_recipients names sender_name members s :
  s ∈ recipients names sender_name members <->
  exists member, member ∈ members /\ member <> sender_name
                 /\ Dict.get member names = Some s.
Proof.
  induction members as [|m rest IH]; cbn [recipients].
  - split; [intros Hs; inversion Hs | intros (m & Hm & _); inversion Hm].
  - destruct (Dict.get m names) as [s'|] eqn:Hm;
      [destruct (String.eqb_spec m sender_name) as [->|Hne]|].
    + rewrite IH. split; intros (m & Hin & Hne & Hg).
      * exists m. split; [now right|]. now split.
      * exists m. apply elem_of_cons in Hin as [->|Hin]; [congruence|]. now split.
    + rewrite elem_of_cons, IH. split.
      * intros [->|(m' & Hin & Hne' & Hg)].
        -- exists m. split; [now left|]. now split.
        -- exists m'. split; [now right|]. now split.
      * intros (m' & Hin & Hne' & Hg).
        apply elem_of_cons in Hin as [->|Hin]; [left; congruence|].
        right. exists m'. now split.
    + rewrite IH. split; intros (m' & Hin & Hne & Hg).
      * exists m'. split; [now right|]. now split.
      * exists m'. apply elem_of_cons in Hin as [->|Hin]; [congruence|]. now split.
Qed.

Lemma elem_of_recipients_set names sender_name (ms : gset string) s :
  s ∈ recipients names sender_name (set_iter ms) <->
  exists member, member ∈ ms /\ member <> sender_name
                 /\ Dict.get member names = Some s.
Proof.
  rewrite elem_of_recipients.
  split; intros (m & Hm & Hrest); exists m; (split; [|exact Hrest]);
    now apply set_iter_elem.
Qed.

(** What [send_group_message] does once the group and the sender are
    accepted. *)
Lemma send_group_message_run σ message group_name sender_name ms :
  Dict.get group_name (groups σ) = Some ms ->
  String.eqb sender_name "SYSTEM" = true \/ sender_name ∈ ms ->
  let full_message :=
    if String.eqb sender_name "SYSTEM"
    then "[" +:+ group_name +:+ "] " +:+ message
    else "[" +:+ group_name +:+ "] " +:+ sender_name +:+ ": " +:+ message in
  let evs := fan SGroup full_message (length (trace σ))
               (recipients (client_names σ) sender_name (set_iter ms)) in
  send_group_message message group_name sender_name σ =
    ((if String.eqb sender_name "SYSTEM" then ret tt
      else save_chat_history sender_name group_name message "group") ;;
     ret ("Message sent to " +:+ pretty (delivered evs) +:+ " group members"))
      (with_trace (trace σ ++ evs) σ).
Proof.
  intros Hg Hin. cbv zeta. unfold send_group_message.
  rewrite bind_gets, Hg.
  replace (negb (String.eqb sender_name "SYSTEM")
           && negb (bool_decide (sender_name ∈ ms))) with false.
  2:{ destruct Hin as [->| Hin]; [reflexivity|].
      rewrite (bool_decide_eq_true_2 _ Hin). now rewrite andb_false_r. }
  unfold bind at 1. rewrite group_fanout_run. cbv zeta. cbn [Nat.add].
  destruct (String.eqb sender_name "SYSTEM"); reflexivity.
Qed.

(** X4. A message to a group from a member whose name is not [SYSTEM]
    is sent, as [[group] sender: text], once to the socket of each member
    that is online, the sender left out, in the order the set is
    iterated, a failed send being passed over; the members that are not
    online get nothing. When the group log can be read and written, one
    entry is appended to it and the reply counts the sends that went
    through. The registries are left as they were. *)
Theorem send_group_message_delivery σ message group_name sender_name ms :
  Dict.get group_name (groups σ) = Some ms ->
  sender_name ∈ ms ->
  sender_name <> "SYSTEM" ->
  let full_message :=
    "[" +:+ group_name +:+ "] " +:+ sender_name +:+ ": " +:+ message in
  let targets := recipients (client_names σ) sender_name (set_iter ms) in
  let evs := fan SGroup full_message (length (trace σ)) targets in
  let r := send_group_message message group_name sender_name σ in
  emitted σ r.2 = evs
  /\ (forall s, s ∈ targets <->
        exists member, member ∈ ms /\ member <> sender_name
                       /\ Dict.get member (client_names σ) = Some s)
  /\ same_groups σ r.2 /\ same_sessions σ r.2
  /\ (forall items,
        history_of (files σ !! group_log group_name) = Some items ->
        unwritable (group_log group_name) = false ->
        r.1 = Ok ("Message sent to " +:+ pretty (delivered evs)
                  +:+ " group members")
        /\ files r.2 !! group_log group_name =
             Some (FJson (JArr (items ++
               [chat_entry (clock (ticks σ)) sender_name group_name message
                  "group"])))).
Proof.
  intros Hg Hin Hsys. cbv zeta.
  apply String.eqb_neq in Hsys.
  destruct (send_group_message message group_name sender_name σ)
    as [res σ'] eqn:Hrun.
  rewrite (send_group_message_run σ _ _ _ ms Hg (or_intror Hin)) in Hrun.
  cbv zeta in Hrun. rewrite Hsys in Hrun.
  unfold bind at 1 in Hrun. rewrite save_chat_history_run in Hrun.
  cbv zeta in Hrun. cbn [log_filename String.eqb Ascii.eqb Bool.eqb] in Hrun.
  simpl (files _) in Hrun. simpl (ticks _) in Hrun.
  cbn [fst snd].
  assert (Hrec : forall s,
             s ∈ recipients (client_names σ) sender_name (set_iter ms) <->
             exists member, member ∈ ms /\ member <> sender_name
                            /\ Dict.get member (client_names σ) = Some s).
  { intros s. rewrite elem_of_recipients.
    split; intros (m & Hm & Hrest); exists m; (split; [|exact Hrest]);
      now apply set_iter_elem. }
  destruct (files σ !! group_log group_name) as [[v|raw]|] eqn:Hf;
    [destruct (history_of (Some (FJson v))) as [items0|] eqn:Hh;
      [destruct (unwritable (group_log group_name)) eqn:Hw|] | |
     cbn [history_of] in Hrun;
       destruct (unwritable (group_log group_name)) eqn:Hw];
    injection Hrun as <- <-;
    (split; [apply emitted_app; reflexivity|]);
    (split; [exact Hrec|]);
    (split; [split; reflexivity|]);
    (split; [split; reflexivity|]);
    intros items Hitems Hw'; try discriminate; try congruence.
  - injection Hitems as <-. split; [reflexivity|].
    simpl. now rewrite lookup_insert_eq.
  - injection Hitems as <-. split; [reflexivity|].
    simpl. now rewrite lookup_insert_eq.
Qed.

(** X5. The sender name [SYSTEM], which [add_to_group] and [leave_group]
    use for their notices, is not checked against the members: a message
    sent under it to any group that exists is sent, as [[group] text]
    with no name in it, once to each member that is online and whose own
    name is not [SYSTEM] (the loop leaves out the member equal to the
    sender name, so a member of that name gets nothing); it is not
    written to the group log, and the method returns the count of the
    sends that went through. *)
Theorem system_sender_unchecked σ message group_name ms :
  Dict.get group_name (groups σ) = Some ms ->
  let evs := fan SGroup ("[" +:+ group_name +:+ "] " +:+ message)
               (length (trace σ))
               (recipients (client_names σ) "SYSTEM" (set_iter ms)) in
  let r := send_group_message message group_name "SYSTEM" σ in
  r.1 = Ok ("Message sent to " +:+ pretty (delivered evs) +:+ " group members")
  /\ emitted σ r.2 = evs
  /\ files r.2 = files σ /\ ticks r.2 = ticks σ
  /\ same_groups σ r.2 /\ same_sessions σ r.2
  /\ (forall s,
        s ∈ recipients (client_names σ) "SYSTEM" (set_iter ms) <->
        exists member, member ∈ ms /\ member <> "SYSTEM"
                       /\ Dict.get member (client_names σ) = Some s).
Proof.
  intros Hg. cbv zeta.
  destruct (send_group_message message group_name "SYSTEM" σ)
    as [res σ'] eqn:Hrun.
  rewrite (send_group_message_run σ message group_name "SYSTEM" ms Hg
             (or_introl eq_refl)) in Hrun.
  cbv zeta in Hrun. cbn [String.eqb Ascii.eqb Bool.eqb] in Hrun.
  rewrite bind_ret in Hrun. injection Hrun as <- <-.
  split; [reflexivity|]. split; [apply emitted_app; reflexivity|].
  do 2 (split; [reflexivity|]). do 2 (split; [split; reflexivity|]).
  intros s. apply elem_of_recipients_set.
Qed.

(** X2. [add_to_group] adds a user when the group exists, the caller is
    its admin, the user is online and not yet a member: the user joins
    the members, the admin stays, the metadata file is written, the user
    is told first, and then the notice is sent once to each member that
    is online and whose name is not [SYSTEM], the new member among them
    unless that is its name; when the file cannot be written [OSError]
    leaves the method with the user added and nobody told. In every
    other case nothing is changed and nothing is sent. *)
Theorem add_to_group_effect σ admin_name group_name username :
  let r := add_to_group admin_name group_name username σ in
  let t := length (trace σ) in
  (forall ms s,
     Dict.get group_name (groups σ) = Some ms ->
     Dict.get group_name (group_admins σ) = Some admin_name ->
     Dict.get username (client_names σ) = Some s ->
     username ∉ ms ->
     groups r.2 = Dict.set group_name (ms ∪ {[username]}) (groups σ)
     /\ group_admins r.2 = group_admins σ
     /\ same_sessions σ r.2
     /\ (forall s',
           s' ∈ recipients (client_names σ) "SYSTEM"
                  (set_iter (ms ∪ {[username]})) <->
           exists member, (member ∈ ms \/ member = username)
                          /\ member <> "SYSTEM"
                          /\ Dict.get member (client_names σ) = Some s')
     /\ (username <> "SYSTEM" ->
           s ∈ recipients (client_names σ) "SYSTEM"
                 (set_iter (ms ∪ {[username]})))
     /\ (if unwritable (group_info_file group_name)
         then r.1 = Raise OSError /\ emitted σ r.2 = []
         else r.1 = Ok ("User '" +:+ username +:+ "' added to group '"
                        +:+ group_name +:+ "'")
              /\ emitted σ r.2 =
                   EvSend SAdded s
                     ("You have been added to group '" +:+ group_name
                      +:+ "' by " +:+ admin_name)
                     (negb (send_fails t s))
                   :: fan SGroup
                        ("[" +:+ group_name +:+ "] " +:+ username
                         +:+ " has been added to the group by " +:+ admin_name)
                        (S t)
                        (recipients (client_names σ) "SYSTEM"
                           (set_iter (ms ∪ {[username]})))))
  /\ (r.2 <> σ ->
        exists ms s,
          Dict.get group_name (groups σ) = Some ms
          /\ Dict.get group_name (group_admins σ) = Some admin_name
          /\ Dict.get username (client_names σ) = Some s
          /\ username ∉ ms).
Proof.
  cbv zeta. split.
  - intros ms s Hg Ha Hs Hnin.
    destruct (add_to_group admin_name group_name username σ)
      as [res σ'] eqn:Hrun.
    unfold add_to_group in Hrun. rewrite bind_gets, Hg in Hrun.
    rewrite bind_bind, bind_gets, Ha in Hrun. cbn [lookup_or_raise] in Hrun.
    rewrite bind_ret, String.eqb_refl in Hrun. cbn [negb] in Hrun.
    rewrite bind_gets, Hs, (bool_decide_eq_false_2 _ Hnin) in Hrun.
    rewrite bind_modify in Hrun. unfold bind at 1 in Hrun.
    rewrite (save_group_info_outcome _ group_name admin_name (ms ∪ {[username]}))
      in Hrun by first [exact Ha | simpl; apply get_set_eq].
    assert (Hrec : forall s',
               s' ∈ recipients (client_names σ) "SYSTEM"
                      (set_iter (ms ∪ {[username]})) <->
               exists member, (member ∈ ms \/ member = username)
                              /\ member <> "SYSTEM"
                              /\ Dict.get member (client_names σ) = Some s').
    { intros s'. rewrite elem_of_recipients_set.
      split; intros (m & Hm & Hrest); exists m; (split; [|exact Hrest]).
      - apply elem_of_union in Hm as [Hm|Hm]; [now left|].
        right. now apply elem_of_singleton in Hm.
      - apply elem_of_union. destruct Hm as [Hm| ->]; [now left|].
        right. now apply elem_of_singleton. }
    assert (Hnew : username <> "SYSTEM" ->
                   s ∈ recipients (client_names σ) "SYSTEM"
                         (set_iter (ms ∪ {[username]}))).
    { intros Hne. apply Hrec. exists username.
      split; [now right|]. now split. }
    destruct (unwritable (group_info_file group_name)).
    + injection Hrun as <- <-. cbn [fst snd].
      split; [reflexivity|]. split; [reflexivity|].
      split; [split; reflexivity|]. split; [exact Hrec|].
      split; [exact Hnew|]. split; [reflexivity|].
      apply emitted_app. simpl. now rewrite app_nil_r.
    + rewrite bind_try_send in Hrun. unfold bind at 1 in Hrun.
      rewrite (send_group_message_run _ _ group_name "SYSTEM"
                 (ms ∪ {[username]})) in Hrun
        by first [left; reflexivity | simpl; apply get_set_eq].
      cbv zeta in Hrun. cbn [String.eqb Ascii.eqb Bool.eqb] in Hrun.
      unfold bind, ret in Hrun.
      simpl (trace _) in Hrun. simpl (client_names _) in Hrun.
      rewrite length_app, Nat.add_1_r in Hrun.
      injection Hrun as <- <-. cbn [fst snd].
      split; [reflexivity|]. split; [reflexivity|].
      split; [split; reflexivity|]. split; [exact Hrec|].
      split; [exact Hnew|]. split; [reflexivity|].
      apply emitted_app. simpl. now rewrite <- app_assoc.
  - intros Hne.
    destruct (Dict.get group_name (groups σ)) as [ms|] eqn:Hg.
    2:{ exfalso. apply Hne. unfold add_to_group. now rewrite bind_gets, Hg. }
    destruct (Dict.get group_name (group_admins σ)) as [a|] eqn:Ha.
    2:{ exfalso. apply Hne. unfold add_to_group.
        now rewrite bind_gets, Hg, bind_bind, bind_gets, Ha. }
    destruct (String.eqb_spec a admin_name) as [->|Hadm].
    2:{ exfalso. apply Hne. unfold add_to_group.
        rewrite bind_gets, Hg, bind_bind, bind_gets, Ha.
        cbn [lookup_or_raise]. rewrite bind_ret.
        apply String.eqb_neq in Hadm. now rewrite Hadm. }
    destruct (Dict.get username (client_names σ)) as [s|] eqn:Hs.
    2:{ exfalso. apply Hne. unfold add_to_group.
        rewrite bind_gets, Hg, bind_bind, bind_gets, Ha.
        cbn [lookup_or_raise]. rewrite bind_ret, String.eqb_refl.
        cbn [negb]. now rewrite bind_gets, Hs. }
    destruct (decide (username ∈ ms)) as [Hin|Hnin].
    { exfalso. apply Hne. unfold add_to_group.
      rewrite bind_gets, Hg, bind_bind, bind_gets, Ha.
      cbn [lookup_or_raise]. rewrite bind_ret, String.eqb_refl.
      cbn [negb]. now rewrite bind_gets, Hs, (bool_decide_eq_true_2 _ Hin). }
    exists ms, s. repeat split; assumption.
Qed.

Lemma set_first_run (s : gset string) σ :
  s <> ∅ ->
  exists x, set_first s σ = (Ok x, σ) /\ head (set_iter s) = Some x /\ x ∈ s.
Proof.
  intros Hne. unfold set_first.
  destruct (set_iter s) as [|x l] eqn:Hs.
  - now apply set_iter_nil in Hs.
  - exists x. split; [reflexivity|]. split; [reflexivity|].
    apply set_iter_elem. rewrite Hs. now left.
Qed.

(** X3. When a member leaves a group in which others remain, the group
    keeps exactly the others. If the one who left was the admin, the new
    admin is the first of the remaining members in the order of
    iteration, so a member and not the one who left, and is told so
    before anything else is sent if online; otherwise the admin stays.
    This holds also when writing the metadata file fails. The sessions
    are left alone. *)
Theorem leave_group_succession σ username group_name ms admin :
  Dict.get group_name (groups σ) = Some ms ->
  Dict.get group_name (group_admins σ) = Some admin ->
  admin ∈ ms ->
  username ∈ ms ->
  ms ∖ {[username]} <> ∅ ->
  let remaining := ms ∖ {[username]} in
  let r := leave_group username group_name σ in
  groups r.2 = Dict.set group_name remaining (groups σ)
  /\ same_sessions σ r.2
  /\ exists new_admin,
       group_admins r.2 = Dict.set group_name new_admin (group_admins σ)
       /\ new_admin ∈ remaining
       /\ new_admin <> username
       /\ (admin <> username -> new_admin = admin)
       /\ (admin = username ->
             head (set_iter remaining) = Some new_admin
             /\ forall s, Dict.get new_admin (client_names σ) = Some s ->
                  head (emitted σ r.2) =
                    Some (EvSend SNewAdmin s
                            ("You are now the admin of group '" +:+ group_name
                             +:+ "'")
                            (negb (send_fails (length (trace σ)) s)))).
Proof.
  intros Hg Ha Hadm Hin Hrem. cbv zeta.
  destruct (leave_group username group_name σ) as [res σ'] eqn:Hrun.
  unfold leave_group in Hrun. rewrite bind_gets, Hg in Hrun.
  rewrite (bool_decide_eq_true_2 _ Hin) in Hrun. cbn [negb] in Hrun.
  rewrite bind_modify, bind_bind, bind_gets in Hrun.
  simpl (group_admins _) in Hrun. rewrite Ha in Hrun.
  cbn [lookup_or_raise] in Hrun. rewrite bind_ret in Hrun.
  rewrite (bool_decide_eq_false_2 _ Hrem) in Hrun.
  cbn [negb] in Hrun. rewrite andb_true_r in Hrun. cbv beta iota in Hrun.
  set (σ1 := with_groups (Dict.set group_name (ms ∖ {[username]}) (groups σ)) σ)
    in Hrun.
  assert (Hstep : exists new_admin evs σ2,
             σ2 = with_trace (trace σ ++ evs)
                    (with_group_admins
                       (Dict.set group_name new_admin (group_admins σ)) σ1)
             /\ (res, σ') =
                  (save_group_info group_name ;;
                   send_group_message (username +:+ " has left the group")
                     group_name "SYSTEM" ;;
                   ret ("Left group '" +:+ group_name +:+ "'")) σ2
             /\ new_admin ∈ ms ∖ {[username]}
             /\ (admin <> username -> new_admin = admin)
             /\ (admin = username ->
                   head (set_iter (ms ∖ {[username]})) = Some new_admin
                   /\ forall s, Dict.get new_admin (client_names σ) = Some s ->
                        evs = [EvSend SNewAdmin s
                                 ("You are now the admin of group '"
                                  +:+ group_name +:+ "'")
                                 (negb (send_fails (length (trace σ)) s))])).
  { rewrite <- Hrun. clear Hrun.
    destruct (String.eqb_spec admin username) as [->|Hne].
    - destruct (set_first_run (ms ∖ {[username]}) σ1 Hrem) as (x & Hx & Hhd & Hxin).
      rewrite bind_bind. unfold bind at 1. rewrite Hx.
      rewrite bind_bind, bind_modify, bind_bind, bind_gets.
      simpl (client_names _).
      destruct (Dict.get x (client_names σ)) as [s|] eqn:Hs.
      + exists x, [EvSend SNewAdmin s
                     ("You are now the admin of group '" +:+ group_name +:+ "'")
                     (negb (send_fails (length (trace σ)) s))].
        eexists. split; [reflexivity|].
        split; [rewrite bind_try_send; reflexivity|].
        split; [exact Hxin|]. split; [congruence|].
        intros _. split; [exact Hhd|]. intros s' Hs'.
        rewrite Hs in Hs'. now injection Hs' as <-.
      + exists x, []. eexists. split; [reflexivity|].
        split; [rewrite bind_ret, app_nil_r; reflexivity|].
        split; [exact Hxin|]. split; [congruence|].
        intros _. split; [exact Hhd|]. intros s' Hs'. congruence.
    - exists admin, []. eexists. split; [reflexivity|].
      split.
      { rewrite bind_ret, app_nil_r, (set_same _ _ _ Ha). reflexivity. }
      split; [set_solver|]. split; [reflexivity|]. congruence. }
  destruct Hstep as (new_admin & evs & σ2 & -> & Hrun' & Hnew & Hkeep & Hsucc).
  clear Hrun. unfold bind at 1 in Hrun'.
  rewrite (save_group_info_outcome _ group_name new_admin (ms ∖ {[username]}))
    in Hrun' by (simpl; apply get_set_eq).
  assert (Hfinal : groups σ' = Dict.set group_name (ms ∖ {[username]}) (groups σ)
                   /\ same_sessions σ σ'
                   /\ group_admins σ' =
                        Dict.set group_name new_admin (group_admins σ)
                   /\ exists more, trace σ' = trace σ ++ evs ++ more).
  { destruct (unwritable (group_info_file group_name)).
    - injection Hrun' as -> ->. simpl.
      split; [reflexivity|]. split; [split; reflexivity|].
      split; [reflexivity|]. exists []. now rewrite app_nil_r.
    - unfold bind at 1 in Hrun'.
      rewrite (send_group_message_run _ _ group_name "SYSTEM"
                 (ms ∖ {[username]})) in Hrun'
        by first [left; reflexivity | simpl; apply get_set_eq].
      cbv zeta in Hrun'. cbn [String.eqb Ascii.eqb Bool.eqb] in Hrun'.
      unfold bind, ret in Hrun'. injection Hrun' as -> ->. simpl.
      split; [reflexivity|]. split; [split; reflexivity|].
      split; [reflexivity|]. eexists. now rewrite <- app_assoc. }
  destruct Hfinal as (Hgs & Hsess & Hadmins & more & Htrace).
  cbn [fst snd]. split; [exact Hgs|]. split; [exact Hsess|].
  exists new_admin. split; [exact Hadmins|]. split; [exact Hnew|].
  split.
  { intros ->. apply elem_of_difference in Hnew as [_ Hn].
    apply Hn. now apply elem_of_singleton. }
  split; [exact Hkeep|].
  intros Heq. destruct (Hsucc Heq) as [Hhd Hev]. split; [exact Hhd|].
  intros s Hs. rewrite (emitted_app _ _ _ Htrace), (Hev s Hs). reflexivity.
Qed.
End MoreGroups.

(** ** The listings *)

Section Listings.
Context `{Env}.

Lemma bind_ok {A B} (m : M A) (k : A -> M B) σ a σ1 :
  m σ = (Ok a, σ1) -> bind m k σ = k a σ1.
Proof. intros Hm. unfold bind. now rewrite Hm. Qed.

Lemma map_m_pure {A B} (f : A -> M B) (l : list A) σ :
  (forall x, x ∈ l -> exists y, f x σ = (Ok y, σ)) ->
  exists ys, map_m f l σ = (Ok ys, σ).
Proof.
  induction l as [|x l IH]; intros Hf; cbn [map_m]; [eexists; reflexivity|].
  destruct (Hf x) as [y Hy]; [now left|].
  destruct IH as [ys Hys]; [intros x' Hin; apply Hf; now right|].
  exists (y :: ys). unfold bind at 1. rewrite Hy.
  unfold bind at 1. now rewrite Hys.
Qed.

(** X10. In the states the server can reach, [list_groups] and
    [list_group_members] always return a text, no lookup of an admin
    raising [KeyError], and change nothing at all; the members of a
    group are not listed for one who is not a member. *)
Theorem listings_read_only σ username group_name :
  reachable σ ->
  (exists text, list_groups username σ = (Ok text, σ))
  /\ (exists text, list_group_members username group_name σ = (Ok text, σ))
  /\ (forall ms,
        Dict.get group_name (groups σ) = Some ms -> username ∉ ms ->
        list_group_members username group_name σ =
          (Ok ("You are not a member of group '" +:+ group_name +:+ "'"), σ)).
Proof.
  intros Hr. apply reachable_inv in Hr as [Hinv _].
  split; [|split].
  - unfold list_groups. rewrite bind_gets.
    destruct (map fst (filter (fun gm => username ∈ gm.2) (groups σ)))
      as [|g0 l] eqn:Hl; [eexists; reflexivity|].
    rewrite <- Hl.
    match goal with
    | |- context [map_m ?f _] => destruct (map_m_pure f
          (map fst (filter (fun gm => username ∈ gm.2) (groups σ))) σ)
          as [ys Hys]
    end.
    + intros x Hx.
      apply list_elem_of_In, in_map_iff in Hx as ([g ms] & <- & Hin).
      apply list_elem_of_In, list_elem_of_filter in Hin as [_ Hin]. cbn [fst].
      assert (Hsome : is_Some (Dict.get g (groups σ))).
      { apply elem_of_keys. unfold Dict.keys.
        apply list_elem_of_In, in_map_iff. exists (g, ms).
        split; [reflexivity | now apply list_elem_of_In]. }
      destruct Hsome as [ms' Hg]. destruct (Hinv g ms' Hg) as (a & Ha & _).
      rewrite bind_bind, bind_gets, Ha. cbn [lookup_or_raise].
      rewrite bind_ret, Hg. cbn [lookup_or_raise]. rewrite bind_ret.
      eexists. reflexivity.
    + rewrite (bind_ok _ _ _ _ _ Hys). eexists. reflexivity.
  - unfold list_group_members. rewrite bind_gets.
    destruct (Dict.get group_name (groups σ)) as [ms|] eqn:Hg;
      [|eexists; reflexivity].
    destruct (negb (bool_decide (username ∈ ms))); [eexists; reflexivity|].
    destruct (Hinv group_name ms Hg) as (a & Ha & _).
    rewrite bind_bind, bind_gets, Ha. cbn [lookup_or_raise]. rewrite bind_ret.
    eexists. reflexivity.
  - intros ms Hg Hnin. unfold list_group_members.
    now rewrite bind_gets, Hg, (bool_decide_eq_false_2 _ Hnin).
Qed.
End Listings.

(** ** More on the message router *)

#[local] Instance same_groups_preorder : PreOrder same_groups.
Proof.
  split.
  - intros σ. split; reflexivity.
  - intros σ1 σ2 σ3 [H1 H2] [H3 H4]. split; congruence.
Qed.

#[local] Instance same_groups_frame : GroupFrame same_groups.
Proof. split; [split; split; try apply _|..]; intros σ x; split; reflexivity. Qed.

#[local] Instance same_sessions_preorder : PreOrder same_sessions.
Proof.
  split.
  - intros σ. split; reflexivity.
  - intros σ1 σ2 σ3 [H1 H2] [H3 H4]. split; congruence.
Qed.

#[local] Instance same_sessions_frame : SessionFrame same_sessions.
Proof. split; [split; split; try apply _|..]; intros σ x; split; reflexivity. Qed.

Lemma split_space_no_space s : no_space (Str.split_space s).1 = true.
Proof.
  induction s as [|c r IH]; [reflexivity|]. cbn [Str.split_space].
  destruct (Ascii.eqb c " ") eqn:Hc; [reflexivity|].
  destruct (Str.split_space r) as [a b]. cbn [fst] in *.
  unfold no_space in *. cbn [list_ascii_of_string forallb]. now rewrite Hc, IH.
Qed.

Lemma split_space_join target text :
  no_space target = true ->
  Str.split_space (target +:+ " " +:+ text) = (target, Some text).
Proof.
  induction target as [|c r IH]; intros Hns; [reflexivity|].
  unfold no_space in Hns. cbn [list_ascii_of_string forallb] in Hns.
  apply andb_true_iff in Hns as [Hc Hr]. apply negb_true_iff in Hc.
  change (String c r +:+ " " +:+ text) with (String c (r +:+ " " +:+ text)).
  cbn [Str.split_space]. rewrite Hc, (IH Hr). reflexivity.
Qed.

Lemma split_space_none s :
  no_space s = true -> Str.split_space s = (s, None).
Proof.
  induction s as [|c r IH]; intros Hns; [reflexivity|].
  unfold no_space in Hns. cbn [list_ascii_of_string forallb] in Hns.
  apply andb_true_iff in Hns as [Hc Hr]. apply negb_true_iff in Hc.
  cbn [Str.split_space]. rewrite Hc, (IH Hr). reflexivity.
Qed.

Section MoreRouter.
Context `{Env}.

(** X9. The operations on sessions leave the groups alone: registering
    a session, removing one, the [finally] block, a broadcast and a
    private message leave every group with the members and the admin it
    had, so one who disconnects stays a member, and an admin stays
    admin. This holds for runs that raise as well. *)
Theorem session_ops_keep_groups σ :
  (forall client_socket data,
     same_groups σ (handshake client_socket data σ).2)
  /\ (forall client_socket, same_groups σ (remove_client client_socket σ).2)
  /\ (forall client_socket, same_groups σ (teardown client_socket σ).2)
  /\ (forall message sender_socket,
        same_groups σ (broadcast_message message sender_socket σ).2)
  /\ (forall message sender_socket target_name,
        let σ' := (send_private_message message sender_socket target_name σ).2 in
        same_groups σ σ' /\ same_sessions σ σ').
Proof.
  split; [intros; apply rel_handshake|].
  split; [intros; apply rel_remove_client|].
  split; [intros; apply rel_teardown|].
  split; [intros; apply rel_broadcast_message|].
  intros; split; apply rel_send_private_message.
Qed.

(** X24. The operations on groups leave the sessions alone: creating a
    group, adding to one, leaving one and a group message leave both
    dictionaries of the sessions as they were, and a group message
    leaves the groups as they were too. This holds for runs that raise
    as well. *)
Theorem group_ops_keep_sessions σ :
  (forall admin_name group_name,
     same_sessions σ (create_group admin_name group_name σ).2)
  /\ (forall admin_name group_name username,
        same_sessions σ (add_to_group admin_name group_name username σ).2)
  /\ (forall username group_name,
        same_sessions σ (leave_group username group_name σ).2)
  /\ (forall message group_name sender_name,
        let σ' := (send_group_message message group_name sender_name σ).2 in
        same_groups σ σ' /\ same_sessions σ σ').
Proof.
  split; [intros; apply rel_create_group|].
  split; [intros; apply rel_add_to_group|].
  split; [intros; apply rel_leave_group|].
  intros; split; apply rel_send_group_message.
Qed.

Lemma bind_continue {A} (m : M A) (k : A -> M flow) σ :
  (forall a σ1, (k a σ1).1 <> Ok Break) -> (bind m k σ).1 <> Ok Break.
Proof.
  intros Hk. unfold bind. destruct (m σ) as [[a|e] σ1]; [apply Hk | discriminate].
Qed.

(** X11. A turn of the loop ends the session exactly when [recv] gave no
    bytes or the text begins with [/quit], whatever follows those five
    characters; the turn then changes nothing and sends nothing. Every
    other text is handled and the loop goes on, unless the handling
    raises. *)
Theorem session_ends_on_quit σ client_socket username message :
  let r := handle_message client_socket username message σ in
  (r.1 = Ok Break <-> message = EmptyString \/ Str.startswith "/quit" message = true)
  /\ (r.1 = Ok Break -> r.2 = σ).
Proof.
  cbv zeta. unfold handle_message.
  destruct (String.eqb_spec message EmptyString) as [->|Hne].
  { split; [split; [now left | reflexivity] | reflexivity]. }
  destruct (Str.startswith "/quit" message).
  { split; [split; [now right | reflexivity] | reflexivity]. }
  assert (Hcont : forall m : M flow,
             (m σ).1 <> Ok Break ->
             ((m σ).1 = Ok Break <-> message = EmptyString \/ false = true)
             /\ ((m σ).1 = Ok Break -> (m σ).2 = σ)).
  { intros m Hm. split; [split|]; [contradiction | intros [?|?] | contradiction];
      [contradiction | discriminate]. }
  repeat match goal with
         | |- context [Str.startswith ?p message] =>
             destruct (Str.startswith p message)
         end;
    apply Hcont; repeat (apply bind_continue; intros); discriminate.
Qed.

(** The branch taken by a line that begins with [@]. *)
Lemma handle_message_at σ client_socket username rest :
  handle_message client_socket username (String "@" rest) σ =
    ((match Str.split_space rest with
      | (target_user, Some private_msg) =>
          send_private_message private_msg client_socket target_user
      | (_, None) =>
          send SReply client_socket
            "Invalid private message format. Use: @username message"
      end) ;; ret Continue) σ.
Proof. unfold handle_message. destruct rest; reflexivity. Qed.

(** X13. A line [@target text], with a target that has no space in it,
    is a private message of [text], spaces and all, to [target]: the
    target ends at the first space. A line [@target] with no space at all
    is answered with the usage text and does nothing else. *)
Theorem private_line_parsed σ client_socket username target :
  no_space target = true ->
  (forall text,
     handle_message client_socket username ("@" +:+ target +:+ " " +:+ text) σ =
       (send_private_message text client_socket target ;; ret Continue) σ)
  /\ handle_message client_socket username ("@" +:+ target) σ =
       (send SReply client_socket
          "Invalid private message format. Use: @username message" ;;
        ret Continue) σ.
Proof.
  intros Hns. split.
  - intros text.
    change ("@" +:+ target +:+ " " +:+ text)
      with (String "@" (target +:+ " " +:+ text)).
    now rewrite handle_message_at, (split_space_join _ _ Hns).
  - change ("@" +:+ target) with (String "@" target).
    now rewrite handle_message_at, (split_space_none _ Hns).
Qed.
(** *** Where private messages can go *)

Section Sites.
Context (Q : event -> Prop).
Hypothesis HQ : forall e, ~ sent_from SPrivate e -> Q e.

Lemma emits_other_group_fanout members sender_name full_message :
  forall n, rel (emits Q) (group_fanout members sender_name full_message n).
Proof.
  induction members as [|member rest IH]; intros n; cbn [group_fanout];
    [apply rel_ret|].
  repeat first [ rel_core | apply IH
               | apply emits_send; intros ?; apply HQ; cbn; discriminate ].
Qed.

Lemma emits_other_send_group_message message group_name sender_name :
  rel (emits Q) (send_group_message message group_name sender_name).
Proof.
  unfold send_group_message.
  repeat first [ rel_core | apply emits_other_group_fanout
               | apply rel_save_chat_history ].
Qed.

Ltac emits_other :=
  repeat first
    [ rel_core
    | apply emits_send; intros ?; apply HQ; cbn; discriminate
    | apply emits_silent; intros ?; reflexivity
    | apply emits_remove_client; intros ? ? ?; apply HQ; cbn; discriminate
    | apply emits_other_send_group_message
    | apply rel_save_group_info | apply rel_save_chat_history ].

(** A turn of the loop sends [SPrivate] only to the socket registered
    for a name that has no space in it. *)
Lemma handle_message_emits σ client_socket username message :
  (forall target s payload ok,
     no_space target = true ->
     Dict.get target (client_names σ) = Some s ->
     Q (EvSend SPrivate s payload ok)) ->
  emits Q σ (handle_message client_socket username message σ).2.
Proof.
  intros HP. unfold handle_message.
  destruct (String.eqb message EmptyString); [reflexivity|].
  repeat match goal with
         | |- emits Q σ ((if Str.startswith ?p message then _ else _) σ).2 =>
             destruct (Str.startswith p message) eqn:?
         end.
  all: try solve
         [ lazymatch goal with
           | |- emits Q ?s (?m ?s).2 =>
               cut (rel (emits Q) m); [intros Hrel; apply Hrel|]
           end;
           unfold create_group, add_to_group, leave_group, set_first,
             list_groups, list_group_members, broadcast_message, broadcast_to;
           emits_other ].
  apply rel_bind_at; [|intros; reflexivity].
  pose proof (split_space_no_space (Str.slice_from 1 message)) as Hns.
  destruct (Str.split_space (Str.slice_from 1 message)) as [target [text|]];
    cbn [fst] in Hns.
  2:{ apply emits_send. intros ?. apply HQ. cbn. discriminate. }
  unfold send_private_message. rewrite !bind_gets.
  destruct (Dict.get target (client_names σ)) as [target_socket|] eqn:Ht.
  2:{ apply emits_send. intros ?. apply HQ. cbn. discriminate. }
  lazymatch goal with
  | |- emits Q ?s (?m ?s).2 =>
      cut (rel (emits Q) m); [intros Hrel; apply Hrel|]
  end.
  apply rel_try_except; [apply rel_bind; [|intros ?]|]; [| emits_other ..].
  apply emits_send. intros ok. exact (HP target target_socket _ ok Hns Ht).
Qed.
End Sites.

(** X14. A name with a space in it can be registered, but the session
    under it is out of reach of private messages: in the states the
    server can reach, whatever line a connection sends, no private
    message is sent to the socket of such a name. *)
Theorem spaced_name_unreachable σ client_socket username message s name :
  reachable σ ->
  Dict.get s (clients σ) = Some name ->
  no_space name = false ->
  forall payload ok,
    EvSend SPrivate s payload ok
      ∉ emitted σ (handle_message client_socket username message σ).2.
Proof.
  intros Hr Hs Hsp payload ok Hin.
  apply reachable_inv in Hr as [_ (Hnd & Hcn & Hnc)].
  pose (Q := fun e => forall p o, e <> EvSend SPrivate s p o).
  assert (Hall : Forall Q (emitted σ
                   (handle_message client_socket username message σ).2)).
  { apply emits_emitted, handle_message_emits.
    - intros e He p o ->. apply He. reflexivity.
    - intros target s' p o Hns Ht p' o' [= -> _ _].
      apply Hnc in Ht. rewrite Hs in Ht. injection Ht as ->.
      rewrite Hns in Hsp. discriminate. }
  rewrite Forall_forall in Hall. exact (Hall _ Hin payload ok eq_refl).
Qed.
End MoreRouter.

(** ** More on public messages *)

Section MoreBroadcast.
Context `{Env}.

(** One turn of the loop of [broadcast_message] on which nothing fails. *)
Lemma broadcast_to_ok sender_name message sender_socket cs cn σ items :
  cs <> sender_socket ->
  send_fails (length (trace σ)) cs = false ->
  history_of (files σ !! conversation_log sender_name cn) = Some items ->
  unwritable (conversation_log sender_name cn) = false ->
  broadcast_to sender_name message sender_socket cs cn σ =
    (Ok tt,
     with_files
       (<[conversation_log sender_name cn :=
            FJson (JArr (items ++ [chat_entry (clock (ticks σ)) sender_name cn
                                     message "direct"]))]> (files σ))
       (with_ticks (S (ticks σ))
          (with_trace
             (trace σ ++ [EvSend SPublic cs (sender_name +:+ ": " +:+ message) true])
             σ))).
Proof.
  intros Hne Hsend Hh Hw. unfold broadcast_to.
  apply Nat.eqb_neq in Hne. rewrite Hne. cbn [negb].
  unfold try_except, bind at 1. rewrite send_run, Hsend. cbn [negb sent].
  cbv beta iota. rewrite save_chat_history_run. cbv zeta.
  cbn [log_filename String.eqb Ascii.eqb Bool.eqb].
  simpl (files _). simpl (ticks _).
  destruct (files σ !! conversation_log sender_name cn) as [[v|raw]|];
    [rewrite Hh | discriminate | rewrite Hh]; rewrite Hw; reflexivity.
Qed.

(** One turn on which the message goes through and the log cannot be
    read or written. *)
Lemma broadcast_to_unsaved sender_name message sender_socket cs cn σ :
  cs <> sender_socket ->
  send_fails (length (trace σ)) cs = false ->
  history_of (files σ !! conversation_log sender_name cn) = None
  \/ unwritable (conversation_log sender_name cn) = true ->
  broadcast_to sender_name message sender_socket cs cn σ =
    remove_client cs
      (with_ticks (S (ticks σ))
         (with_trace
            (trace σ ++ [EvSend SPublic cs (sender_name +:+ ": " +:+ message) true])
            σ)).
Proof.
  intros Hne Hsend Hbad. unfold broadcast_to.
  apply Nat.eqb_neq in Hne. rewrite Hne. cbn [negb].
  unfold try_except, bind at 1. rewrite send_run, Hsend. cbn [negb sent].
  cbv beta iota. rewrite save_chat_history_run. cbv zeta.
  cbn [log_filename String.eqb Ascii.eqb Bool.eqb].
  simpl (files _). simpl (ticks _).
  destruct (files σ !! conversation_log sender_name cn) as [[v|raw]|];
    [| reflexivity |].
  - destruct (history_of (Some (FJson v))); [|reflexivity].
    destruct Hbad as [Hb|Hb]; [discriminate | now rewrite Hb].
  - cbn [history_of] in *.
    destruct Hbad as [Hb|Hb]; [discriminate | now rewrite Hb].
Qed.

Lemma logged_insert path e fs path' items e' :
  history_of (fs !! path') = Some items ->
  logged path e fs ->
  logged path e (<[path' := FJson (JArr (items ++ [e']))]> fs).
Proof.
  intros Hh (before & after & Hf). unfold logged.
  destruct (decide (path' = path)) as [->|Hne].
  - rewrite lookup_insert_eq. rewrite Hf in Hh. cbn in Hh. injection Hh as <-.
    exists before, (after ++ [e']). now rewrite <- app_assoc.
  - rewrite lookup_insert_ne by exact Hne. eauto.
Qed.

Lemma readable_insert (fs : gmap string file) path path' v :
  is_Some (history_of (fs !! path)) ->
  is_Some (history_of (<[path' := FJson (JArr v)]> fs !! path)).
Proof.
  intros Hs. destruct (decide (path' = path)) as [->|Hne].
  - rewrite lookup_insert_eq. cbn. eauto.
  - now rewrite lookup_insert_ne.
Qed.

(** The loop of [broadcast_message] when no send fails and every log can
    be read and written. *)
Lemma broadcast_loop_ok sender_name message sender_socket used items :
  (forall t s, send_fails t s = false) ->
  (forall p, unwritable p = false) ->
  forall σ,
    length (clients σ) = used ->
    (forall cs cn, (cs, cn) ∈ items -> cs <> sender_socket ->
       is_Some (history_of (files σ !! conversation_log sender_name cn))) ->
    let r := for_clients used items
               (broadcast_to sender_name message sender_socket) σ in
    r.1 = Ok tt
    /\ trace r.2 =
         trace σ ++ map (fun s => EvSend SPublic s
                                    (sender_name +:+ ": " +:+ message) true)
                      (others sender_socket items)
    /\ same_sessions σ r.2 /\ same_groups σ r.2
    /\ ticks r.2 = ticks σ + length (others sender_socket items)
    /\ (forall p, is_Some (history_of (files σ !! p)) ->
                  is_Some (history_of (files r.2 !! p)))
    /\ (forall p e, logged p e (files σ) -> logged p e (files r.2))
    /\ (forall cs cn, (cs, cn) ∈ items -> cs <> sender_socket ->
          exists ts, logged (conversation_log sender_name cn)
                       (chat_entry ts sender_name cn message "direct")
                       (files r.2)).
Proof.
  intros Hsend Hw.
  induction items as [|[cs cn] rest IH]; intros σ Hlen Hread; cbv zeta.
  - cbn [for_clients]. rewrite bind_gets, Hlen, Nat.eqb_refl. cbn.
    rewrite app_nil_r, Nat.add_0_r. repeat split; try tauto.
    intros cs cn Hin. inversion Hin.
  - cbn [for_clients]. rewrite bind_gets, Hlen, Nat.eqb_refl. cbn [negb].
    unfold others, Dict.keys. cbn [map List.filter fst].
    fold (Dict.keys rest). fold (others sender_socket rest).
    destruct (Nat.eqb_spec cs sender_socket) as [->|Hne]; cbn [negb].
    + assert (E : (broadcast_to sender_name message sender_socket sender_socket cn ;;
                   for_clients used rest
                     (broadcast_to sender_name message sender_socket)) σ =
                  for_clients used rest
                    (broadcast_to sender_name message sender_socket) σ).
      { unfold broadcast_to at 1. now rewrite Nat.eqb_refl. }
      rewrite E. clear E.
      destruct (IH σ Hlen) as (H1 & H2 & H3 & H4 & H5 & H6 & H7 & H8).
      { intros c n Hin Hc. apply (Hread c n); [now right | exact Hc]. }
      split; [exact H1|]. split; [exact H2|]. split; [exact H3|].
      split; [exact H4|]. split; [exact H5|]. split; [exact H6|].
      split; [exact H7|].
      intros c n Hin Hc. apply elem_of_cons in Hin as [[= -> ->]|Hin];
        [contradiction | exact (H8 c n Hin Hc)].
    + destruct (Hread cs cn) as [items0 Hitems]; [now left | exact Hne |].
      pose proof (broadcast_to_ok sender_name message sender_socket cs cn σ
                    items0 Hne (Hsend _ _) Hitems (Hw _)) as Hstep.
      set (σ1 := with_files _ _) in Hstep.
      assert (E : (broadcast_to sender_name message sender_socket cs cn ;;
                   for_clients used rest
                     (broadcast_to sender_name message sender_socket)) σ =
                  for_clients used rest
                    (broadcast_to sender_name message sender_socket) σ1).
      { unfold bind at 1. now rewrite Hstep. }
      rewrite E. clear E.
      destruct (IH σ1) as (H1 & H2 & H3 & H4 & H5 & H6 & H7 & H8).
      { exact Hlen. }
      { intros c n Hin Hc. subst σ1. simpl. apply readable_insert.
        apply (Hread c n); [now right | exact Hc]. }
      split; [exact H1|].
      split; [rewrite H2; subst σ1; simpl; now rewrite <- app_assoc|].
      split; [destruct H3 as [Ha Hb]; split; [rewrite Ha|rewrite Hb]; reflexivity|].
      split; [destruct H4 as [Ha Hb]; split; [rewrite Ha|rewrite Hb]; reflexivity|].
      split; [rewrite H5; subst σ1; simpl; lia|].
      split.
      { intros p Hp. apply H6. subst σ1. simpl. now apply readable_insert. }
      split.
      { intros p e Hp. apply H7. subst σ1. simpl.
        now apply logged_insert. }
      intros c n Hin Hc. apply elem_of_cons in Hin as [[= -> ->]|Hin];
        [|exact (H8 c n Hin Hc)].
      exists (clock (ticks σ)). apply H7. subst σ1. simpl.
      exists items0, []. now rewrite lookup_insert_eq.
Qed.

(** X18. When no send fails and every conversation log involved can be
    read and written, [broadcast_message] returns; each session other
    than the sender's is sent [sender: text] once, in the order of
    registration, and nothing else is sent; the registries are left as
    they were; and for each recipient the log of the sender and that
    recipient holds an entry for the message. *)
Theorem broadcast_message_delivers σ message sender_socket :
  (forall t s, send_fails t s = false) ->
  (forall p, unwritable p = false) ->
  let sender_name := default "Unknown" (Dict.get sender_socket (clients σ)) in
  (forall cs cn, (cs, cn) ∈ clients σ -> cs <> sender_socket ->
     is_Some (history_of (files σ !! conversation_log sender_name cn))) ->
  let r := broadcast_message message sender_socket σ in
  r.1 = Ok tt
  /\ emitted σ r.2 =
       map (fun s => EvSend SPublic s (sender_name +:+ ": " +:+ message) true)
         (others sender_socket (clients σ))
  /\ same_sessions σ r.2 /\ same_groups σ r.2
  /\ (forall cs cn, (cs, cn) ∈ clients σ -> cs <> sender_socket ->
        exists ts, logged (conversation_log sender_name cn)
                     (chat_entry ts sender_name cn message "direct")
                     (files r.2)).
Proof.
  intros Hsend Hw sender_name Hread. cbv zeta.
  unfold broadcast_message. rewrite bind_gets. fold sender_name.
  destruct (broadcast_loop_ok sender_name message sender_socket
              (length (clients σ)) (clients σ) Hsend Hw σ eq_refl Hread)
    as (H1 & H2 & H3 & H4 & _ & _ & _ & H8).
  split; [exact H1|]. split; [exact (emitted_app _ _ _ H2)|].
  split; [exact H3|]. split; [exact H4|]. exact H8.
Qed.

(** X15. A line that is not empty and begins with none of the prefixes
    [handle_client] looks for, a mistyped command included, is a public
    message: when no send fails and the logs can be read and written, it
    is sent as it is, under the name registered for the socket, to every
    other session, and the loop goes on. *)
Theorem unmatched_line_is_broadcast σ client_socket username message :
  message <> EmptyString ->
  forallb (fun p => negb (Str.startswith p message)) command_prefixes = true ->
  (forall t s, send_fails t s = false) ->
  (forall p, unwritable p = false) ->
  let sender_name := default "Unknown" (Dict.get client_socket (clients σ)) in
  (forall cs cn, (cs, cn) ∈ clients σ -> cs <> client_socket ->
     is_Some (history_of (files σ !! conversation_log sender_name cn))) ->
  let r := handle_message client_socket username message σ in
  r.1 = Ok Continue
  /\ emitted σ r.2 =
       map (fun s => EvSend SPublic s (sender_name +:+ ": " +:+ message) true)
         (others client_socket (clients σ)).
Proof.
  intros Hne Hpre Hsend Hw sender_name Hread. cbv zeta.
  destruct (broadcast_loop_ok sender_name message client_socket
              (length (clients σ)) (clients σ) Hsend Hw σ eq_refl Hread)
    as (H1 & H2%emitted_app & _).
  unfold handle_message.
  apply String.eqb_neq in Hne. rewrite Hne.
  unfold command_prefixes in Hpre. cbn [forallb] in Hpre.
  repeat match type of Hpre with
         | (negb ?b && _)%bool = true =>
             let Hb := fresh "Hb" in
             apply andb_true_iff in Hpre as [Hb Hpre];
             apply negb_true_iff in Hb; rewrite Hb
         end.
  unfold broadcast_message. rewrite bind_bind, bind_gets. fold sender_name.
  unfold bind.
  destruct (for_clients (length (clients σ)) (clients σ)
              (broadcast_to sender_name message client_socket) σ)
    as [[[]|e] σ1]; cbn [fst snd] in *; [|discriminate].
  split; [reflexivity | exact H2].
Qed.

Lemma for_clients_skip used body σ pre :
  forall items,
    length (clients σ) = used ->
    (forall k v, (k, v) ∈ pre -> body k v σ = (Ok tt, σ)) ->
    for_clients used (pre ++ items) body σ = for_clients used items body σ.
Proof.
  induction pre as [|[k v] pre IH]; intros items Hlen Hskip; [reflexivity|].
  cbn [app for_clients]. rewrite bind_gets, Hlen, Nat.eqb_refl. cbn [negb].
  unfold bind at 1. rewrite (Hskip k v) by now left.
  rewrite IH; [|exact Hlen|intros k' v' Hin; apply Hskip; now right].
  destruct items as [|[k' v'] items]; cbn [for_clients];
    now rewrite bind_gets, Hlen, Nat.eqb_refl.
Qed.

(** X19. A recipient whose conversation log with the sender cannot be
    read as an array or cannot be written is dropped: when that
    recipient is the first session, other than the sender's, that the
    loop of [broadcast_message] comes to, the message is sent to it and
    goes through, then the recipient is removed from both dictionaries,
    the sessions that are left are sent its departure, and nobody else
    gets the message, the loop ending in [RuntimeError]; no file is
    changed. *)
Theorem broadcast_unsaved_drops_recipient σ message sender_socket pre cs cn rest :
  NoDup (Dict.keys (clients σ)) ->
  clients σ = pre ++ (cs, cn) :: rest ->
  (forall s n, (s, n) ∈ pre -> s = sender_socket) ->
  cs <> sender_socket ->
  send_fails (length (trace σ)) cs = false ->
  let sender_name := default "Unknown" (Dict.get sender_socket (clients σ)) in
  let path := conversation_log sender_name cn in
  history_of (files σ !! path) = None \/ unwritable path = true ->
  let r := broadcast_message message sender_socket σ in
  r.1 = Raise RuntimeError
  /\ clients r.2 = Dict.del cs (clients σ)
  /\ Dict.get cn (client_names r.2) = None
  /\ emitted σ r.2 =
       EvSend SPublic cs (sender_name +:+ ": " +:+ message) true
       :: fan SLeft (cn +:+ " has left the chat") (S (length (trace σ)))
            (Dict.keys (Dict.del cs (clients σ)))
  /\ files r.2 = files σ.
Proof.
  intros Hnd Hcl Hpre Hne Hsend sender_name path Hbad. cbv zeta.
  assert (Hget : Dict.get cs (clients σ) = Some cn).
  { apply get_of_elem; [exact Hnd|]. rewrite Hcl.
    apply elem_of_app. right. now left. }
  destruct (broadcast_message message sender_socket σ) as [res σ'] eqn:Hrun.
  unfold broadcast_message in Hrun. rewrite bind_gets in Hrun.
  fold sender_name in Hrun. rewrite Hcl in Hrun at 2.
  rewrite for_clients_skip in Hrun; [|reflexivity|].
  2:{ intros k v Hin. rewrite (Hpre k v Hin). unfold broadcast_to.
      now rewrite Nat.eqb_refl. }
  cbn [for_clients] in Hrun. rewrite bind_gets, Nat.eqb_refl in Hrun.
  cbn [negb] in Hrun. unfold bind at 1 in Hrun.
  rewrite (broadcast_to_unsaved _ _ _ _ _ _ Hne Hsend Hbad) in Hrun.
  rewrite (remove_client_present _ cs cn) in Hrun by exact Hget.
  rewrite for_clients_changed in Hrun.
  2:{ simpl. pose proof (length_del (clients σ) cs (mk_is_Some _ _ Hget)). lia. }
  injection Hrun as <- <-. cbn [fst snd].
  split; [reflexivity|]. split; [reflexivity|]. split.
  { simpl. destruct (Dict.mem cn (client_names σ)) eqn:Hm;
      [apply get_del_eq | now apply mem_false]. }
  split; [|reflexivity].
  apply emitted_app. simpl. rewrite length_app, Nat.add_1_r.
  now rewrite <- app_assoc.
Qed.
End MoreBroadcast.

(** ** More on the conversation logs *)

Lemma append_assoc (a b c : string) : (a +:+ b) +:+ c = a +:+ b +:+ c.
Proof.
  induction a as [|x a IH]; [reflexivity|].
  change (String x ((a +:+ b) +:+ c) = String x (a +:+ b +:+ c)). now rewrite IH.
Qed.

Lemma length_append (a b : string) :
  String.length (a +:+ b) = String.length a + String.length b.
Proof.
  induction a as [|x a IH]; [reflexivity|].
  change (S (String.length (a +:+ b)) = S (String.length a + String.length b)).
  now rewrite IH.
Qed.

Section MoreStore.
Context `{Env}.

(** X16. The file name of a conversation does not tell the two names
    apart when they have an underscore in them: the conversation of
    [a_b] with [c] and the conversation of [a] with [b_c] are kept in one
    and the same file, whenever the names of each pair are given in
    ascending order. *)
Theorem conversation_log_collision (a b c : string) :
  Str.lt c (a +:+ "_" +:+ b) = false ->
  Str.lt (b +:+ "_" +:+ c) a = false ->
  conversation_log (a +:+ "_" +:+ b) c = conversation_log a (b +:+ "_" +:+ c)
  /\ log_filename (a +:+ "_" +:+ b) c "direct"
     = log_filename a (b +:+ "_" +:+ c) "direct".
Proof.
  intros H1 H2.
  assert (E : conversation_log (a +:+ "_" +:+ b) c
              = conversation_log a (b +:+ "_" +:+ c)).
  { unfold conversation_log, Str.sorted2. rewrite H1, H2. cbv beta iota.
    now rewrite !append_assoc. }
  split; [exact E|]. unfold log_filename. cbn [String.eqb Ascii.eqb Bool.eqb].
  exact E.
Qed.

(** X17. The log of a conversation only grows, and holds both
    directions in the order they were saved: after a message of [a] to
    [b] and then one of [b] to [a], the file of the two holds what it
    held before, followed by the two entries in that order, each with the
    clock reading of its save, and no other file has changed. *)
Theorem conversation_accumulates σ a b m1 m2 items :
  history_of (files σ !! conversation_log a b) = Some items ->
  unwritable (conversation_log a b) = false ->
  let r1 := save_chat_history a b m1 "direct" σ in
  let r2 := save_chat_history b a m2 "direct" r1.2 in
  r1.1 = Ok tt /\ r2.1 = Ok tt
  /\ files r2.2 !! conversation_log a b =
       Some (FJson (JArr (items ++
         [ chat_entry (clock (ticks σ)) a b m1 "direct";
           chat_entry (clock (S (ticks σ))) b a m2 "direct" ])))
  /\ (forall p, p <> conversation_log a b -> files r2.2 !! p = files σ !! p).
Proof.
  intros Hh Hw. cbv zeta.
  assert (E1 : save_chat_history a b m1 "direct" σ =
               (Ok tt,
                with_files
                  (<[conversation_log a b :=
                       FJson (JArr (items ++
                         [chat_entry (clock (ticks σ)) a b m1 "direct"]))]>
                     (files σ))
                  (with_ticks (S (ticks σ)) σ))).
  { rewrite save_chat_history_run. cbv zeta.
    cbn [log_filename String.eqb Ascii.eqb Bool.eqb].
    destruct (files σ !! conversation_log a b) as [[v|raw]|];
      [rewrite Hh | discriminate | rewrite Hh]; now rewrite Hw. }
  rewrite E1. cbn [fst snd].
  rewrite save_chat_history_run. cbv zeta.
  cbn [log_filename String.eqb Ascii.eqb Bool.eqb].
  replace (conversation_log b a) with (conversation_log a b)
    by (unfold conversation_log; now rewrite sorted2_swap).
  simpl (files _). simpl (ticks _).
  rewrite lookup_insert_eq. cbn [history_of]. rewrite Hw. cbn [fst snd].
  split; [reflexivity|]. split; [reflexivity|]. simpl (files _). split.
  - rewrite lookup_insert_eq, <- app_assoc. reflexivity.
  - intros p Hp. now rewrite !lookup_insert_ne by congruence.
Qed.
End MoreStore.

(** ** The viewer on the files of the server *)

Lemma path_join_logs b :
  path_join server_logs_dir b =
    if Str.startswith "/" b then b else "server_logs/" +:+ b.
Proof. unfold path_join. destruct (Str.startswith "/" b); reflexivity. Qed.

Lemma path_join_groups b :
  path_join group_logs_dir b =
    if Str.startswith "/" b then b else "server_logs/groups/" +:+ b.
Proof. unfold path_join. destruct (Str.startswith "/" b); reflexivity. Qed.

Lemma startswith_slash_append p rest :
  Str.startswith "/" (p +:+ String "_" rest) = Str.startswith "/" p.
Proof.
  destruct p as [|c p]; [reflexivity|]. unfold Str.startswith.
  change (String c p +:+ String "_" rest) with (String c (p +:+ String "_" rest)).
  cbn [String.prefix]. destruct (ascii_dec "/" c); [|reflexivity].
  now destruct (p +:+ String "_" rest), p.
Qed.

Lemma append_longer (a b : string) : a <> EmptyString -> b <> a +:+ b.
Proof.
  intros Ha Hb. apply (f_equal String.length) in Hb.
  rewrite length_append in Hb. destruct a; [congruence | cbn in Hb; lia].
Qed.

Lemma viewer_paths a b :
  Str.startswith "/" (Str.sorted2 a b).1 = false ->
  direct_chat_path a b = conversation_log a b
  /\ direct_chat_path b a = conversation_log a b.
Proof.
  intros Hs.
  assert (E : direct_chat_path a b = conversation_log a b).
  { unfold direct_chat_path, conversation_log.
    destruct (Str.sorted2 a b) as [p0 p1]. cbn [fst] in Hs.
    rewrite path_join_logs.
    change (p0 +:+ "_" +:+ p1 +:+ "_conversation.json")
      with (p0 +:+ String "_" (p1 +:+ "_conversation.json")).
    now rewrite startswith_slash_append, Hs. }
  split; [exact E|]. rewrite <- E. unfold direct_chat_path.
  now rewrite sorted2_swap.
Qed.

Lemma viewer_reads_group_files g :
  Str.startswith "/" g = false ->
  group_chat_path g = group_log g /\ group_info_path g = group_info_file g.
Proof.
  intros Hs. unfold group_chat_path, group_info_path, group_log, group_info_file.
  rewrite !path_join_groups.
  change (g +:+ "_group.json") with (g +:+ String "_" "group.json").
  change (g +:+ "_info.json") with (g +:+ String "_" "info.json").
  now rewrite !startswith_slash_append, Hs.
Qed.

(** X20. The viewer reads the file the server writes for a conversation
    or a group exactly when the name the file name begins with, the
    smaller of the two participants or the group, does not begin with a
    slash: [os.path.join] drops the directory for such a name, the
    f-string of the server does not. The order of the two users makes no
    difference. *)
Theorem viewer_reads_server_files (a b g : string) :
  (direct_chat_path a b = conversation_log a b
   <-> Str.startswith "/" (Str.sorted2 a b).1 = false)
  /\ direct_chat_path a b = direct_chat_path b a
  /\ (group_chat_path g = group_log g <-> Str.startswith "/" g = false)
  /\ (group_info_path g = group_info_file g <-> Str.startswith "/" g = false).
Proof.
  split; [|split; [|split]].
  - unfold direct_chat_path, conversation_log.
    destruct (Str.sorted2 a b) as [p0 p1]. cbn [fst].
    rewrite path_join_logs.
    change (p0 +:+ "_" +:+ p1 +:+ "_conversation.json")
      with (p0 +:+ String "_" (p1 +:+ "_conversation.json")).
    rewrite startswith_slash_append.
    destruct (Str.startswith "/" p0); split; try reflexivity; try discriminate.
    intros Heq. now apply append_longer in Heq.
  - unfold direct_chat_path. now rewrite sorted2_swap.
  - unfold group_chat_path, group_log. rewrite path_join_groups.
    change (g +:+ "_group.json") with (g +:+ String "_" "group.json").
    rewrite startswith_slash_append.
    destruct (Str.startswith "/" g); split; try reflexivity; try discriminate.
    intros Heq. now apply append_longer in Heq.
  - unfold group_info_path, group_info_file. rewrite path_join_groups.
    change (g +:+ "_info.json") with (g +:+ String "_" "info.json").
    rewrite startswith_slash_append.
    destruct (Str.startswith "/" g); split; try reflexivity; try discriminate.
    intros Heq. now apply append_longer in Heq.
Qed.

Section Viewer.
Context `{Python}.

(** How an entry with the six fields of the server is shown. *)
Lemma format_message_entry ts s r m h ty :
  format_message (entry ts s r m h ty) false =
    inr (if String.eqb ty "group"
         then "[" +:+ ts +:+ "] "
              +:+ (if String.eqb h (Sha256.hexdigest m) then "✓" else "⚠")
              +:+ " " +:+ s +:+ " → [" +:+ r +:+ "]: " +:+ m
         else "[" +:+ ts +:+ "] "
              +:+ (if String.eqb h (Sha256.hexdigest m) then "✓" else "⚠")
              +:+ " " +:+ s +:+ " → " +:+ r +:+ ": " +:+ m).
Proof.
  rewrite <- (verify_entry ts s r m h ty). unfold format_message.
  generalize (verify_message_integrity (entry ts s r m h ty)). intros ok.
  unfold entry. cbn. reflexivity.
Qed.

Lemma format_all_app l1 l2 x y show_hash :
  format_all l1 show_hash = inr x ->
  format_all l2 show_hash = inr y ->
  format_all (l1 ++ l2) show_hash = inr (x ++ y).
Proof.
  revert x. induction l1 as [|v l1 IH]; intros x H1 H2; cbn [format_all app] in *.
  - now injection H1 as <-.
  - destruct (format_message v show_hash) as [e|line]; cbn [and_then] in *;
      [discriminate|].
    destruct (format_all l1 show_hash) as [e|lines]; cbn [and_then] in *;
      [discriminate|].
    injection H1 as <-. now rewrite (IH lines eq_refl H2).
Qed.

(** Without hashes, the loop fails on the first element that is not an
    object, and on nothing else. *)
Lemma format_all_plain items :
  match List.find (fun v => negb (is_object v)) items with
  | Some v => format_all items false = inl (NoGet v)
  | None => exists lines, format_all items false = inr lines
                          /\ length lines = length items
  end.
Proof.
  induction items as [|v items IH]; cbn [List.find format_all].
  - exists []. split; reflexivity.
  - destruct v; cbn [is_object negb]; try reflexivity.
    destruct (List.find (fun v => negb (is_object v)) items) as [bad|].
    + unfold format_message at 1. cbn [and_then]. now rewrite IH.
    + destruct IH as (lines & -> & Hlen). unfold format_message at 1.
      cbn [and_then]. eexists. split; [reflexivity|]. cbn. now rewrite Hlen.
Qed.

(** X22. A log that holds an array shows in full or not at all: when
    every element is an object, the view has one line for each, between
    three lines of heading and two of footing; when some element is not
    an object, the view is a single line, the error raised for the first
    such element, and none of the messages is shown. *)
Theorem view_direct_chat_all_or_nothing fs user1 user2 items :
  fs !! direct_chat_path user1 user2 = Some (FJson (JArr items)) ->
  items <> [] ->
  let view := view_direct_chat fs user1 user2 false in
  (forallb is_object items = true -> length view = length items + 5)
  /\ (forall v,
        List.find (fun v => negb (is_object v)) items = Some v ->
        view = [ "❌ Error reading chat file: " +:+ exc_text (NoGet v) ]).
Proof.
  intros Hf Hne. cbv zeta. unfold view_direct_chat. rewrite Hf.
  assert (Ht : truthy (JArr items) = true) by (destruct items; [congruence|reflexivity]).
  rewrite Ht. cbn [negb py_len iterate and_then].
  pose proof (format_all_plain items) as Hall. split.
  - intros Hobj.
    destruct (List.find (fun v => negb (is_object v)) items) as [bad|] eqn:Hfind.
    { apply find_some in Hfind as [Hin Hbad].
      rewrite forallb_forall in Hobj. rewrite (Hobj _ Hin) in Hbad. discriminate. }
    destruct Hall as (lines & -> & Hlen). cbn [and_then].
    cbn [app length]. rewrite length_app. cbn [length]. lia.
  - intros v Hfind. rewrite Hfind in Hall. now rewrite Hall.
Qed.

Context `{Env}.

(** X21. What the server appends, the viewer shows. After
    [save_chat_history] has returned for a message of [sender] to
    [receiver], the view of the two, asked for in either order, is the
    view of the log as it was, with one more message counted and one more
    line, last before the footing: the clock reading of the save, the
    mark of an intact hash, the sender, the receiver and the text. The
    smaller of the two names must not begin with a slash. *)
Theorem view_direct_chat_after_append σ sender receiver message items lines :
  Str.startswith "/" (Str.sorted2 sender receiver).1 = false ->
  history_of (files σ !! conversation_log sender receiver) = Some items ->
  unwritable (conversation_log sender receiver) = false ->
  format_all items false = inr lines ->
  let r := save_chat_history sender receiver message "direct" σ in
  let total := pretty (S (length items)) in
  let page user1 user2 :=
    [ "💬 Chat History: " +:+ user1 +:+ " ↔ " +:+ user2;
      "📅 Total messages: " +:+ total;
      rule 80 ]
    ++ lines
    ++ [ "[" +:+ clock (ticks σ) +:+ "] ✓ " +:+ sender +:+ " → " +:+ receiver
         +:+ ": " +:+ message;
         rule 80;
         "✅ End of chat history (" +:+ total +:+ " messages)" ] in
  r.1 = Ok tt
  /\ view_direct_chat (files r.2) sender receiver false = page sender receiver
  /\ view_direct_chat (files r.2) receiver sender false = page receiver sender.
Proof.
  intros Hslash Hh Hw Hlines. cbv zeta.
  assert (E : save_chat_history sender receiver message "direct" σ =
              (Ok tt,
               with_files
                 (<[conversation_log sender receiver :=
                      FJson (JArr (items ++
                        [chat_entry (clock (ticks σ)) sender receiver message
                           "direct"]))]> (files σ))
                 (with_ticks (S (ticks σ)) σ))).
  { rewrite save_chat_history_run. cbv zeta.
    cbn [log_filename String.eqb Ascii.eqb Bool.eqb].
    destruct (files σ !! conversation_log sender receiver) as [[v|raw]|];
      [rewrite Hh | discriminate | rewrite Hh]; now rewrite Hw. }
  rewrite E. cbn [fst snd]. simpl (files _). split; [reflexivity|].
  destruct (viewer_paths sender receiver Hslash) as [P1 P2].
  assert (Hline : format_all
                    [chat_entry (clock (ticks σ)) sender receiver message "direct"]
                    false
                  = inr [ "[" +:+ clock (ticks σ) +:+ "] ✓ " +:+ sender +:+ " → "
                          +:+ receiver +:+ ": " +:+ message ]).
  { cbn [format_all]. unfold chat_entry, hash_message.
    rewrite format_message_entry, String.eqb_refl. reflexivity. }
  pose proof (format_all_app _ _ _ _ _ Hlines Hline) as Hall.
  assert (Ht : truthy (JArr (items ++
                 [chat_entry (clock (ticks σ)) sender receiver message "direct"]))
               = true) by (destruct items; reflexivity).
  split; unfold view_direct_chat; rewrite ?P1, ?P2, lookup_insert_eq, Ht;
    cbn [negb py_len iterate and_then]; rewrite Hall; cbn [and_then];
    rewrite length_app, Nat.add_1_r; cbn [length];
    rewrite <- !app_assoc; reflexivity.
Qed.
End Viewer.

(** ** The viewer on the files of a group *)

Lemma group_files_differ g : group_log g <> group_info_file g.
Proof.
  unfold group_log, group_info_file. intros Heq.
  apply String.app_inj, String.app_inj in Heq. discriminate.
Qed.

Section GroupViewer.
Context `{Python}.

Lemma join_members_strings names :
  join_members (JArr (map JStr names)) = inr (Str.join ", " names).
Proof.
  unfold join_members.
  enough (Hgo : forall acc,
             (fix go (l : list json) (acc : list string) : fault + string :=
                match l with
                | [] => inr (Str.join ", " (rev acc))
                | JStr s :: r => go r (s :: acc)
                | _ :: _ => inl (NoJoin (JArr (map JStr names)))
                end) (map JStr names) acc
             = inr (Str.join ", " (rev acc ++ names))) by exact (Hgo []).
  generalize (NoJoin (JArr (map JStr names))). intros e.
  induction names as [|n names IH]; intros acc; cbn [map].
  - now rewrite app_nil_r.
  - rewrite IH. cbn [rev]. now rewrite <- app_assoc.
Qed.

(** How the metadata that [save_group_info] writes is shown. *)
Lemma info_lines_written group_name admin names created :
  info_lines (JObj [ ("group_name", JStr group_name);
                     ("admin", JStr admin);
                     ("members", JArr (map JStr names));
                     ("created_date", JStr created) ]) =
    inr [ "👑 Admin: " +:+ admin;
          "👤 Members: " +:+ Str.join ", " names;
          "📅 Created: " +:+ created ].
Proof.
  unfold info_lines.
  change (default (JArr []) (Dict.get "members" _))
    with (JArr (map JStr names)).
  rewrite join_members_strings. reflexivity.
Qed.

Context `{Env}.

(** X23. What the server writes for a group, the viewer shows. When a
    group is created and its admin sends the first message to it, both
    files being written, the view of the group is: the heading, the
    admin, the members (the admin alone) and the time of creation from
    the metadata file, the count of one message, and the message with the
    clock reading of its save, the mark of an intact hash, the sender and
    the group in brackets. The name of the group must not begin with a
    slash. *)
Theorem view_group_chat_after_create σ admin_name group_name message :
  Str.startswith "/" group_name = false ->
  admin_name <> "SYSTEM" ->
  Dict.get group_name (groups σ) = None ->
  files σ !! group_log group_name = None ->
  unwritable (group_info_file group_name) = false ->
  unwritable (group_log group_name) = false ->
  let r1 := create_group admin_name group_name σ in
  let r2 := send_group_message message group_name admin_name r1.2 in
  r2.1 = Ok ("Message sent to " +:+ pretty 0 +:+ " group members")
  /\ view_group_chat (files r2.2) group_name false =
       [ "👥 Group Chat History: " +:+ group_name;
         "👑 Admin: " +:+ admin_name;
         "👤 Members: " +:+ admin_name;
         "📅 Created: " +:+ clock (ticks σ);
         "💬 Total messages: " +:+ pretty 1;
         rule 80;
         "[" +:+ clock (S (ticks σ)) +:+ "] ✓ " +:+ admin_name +:+ " → ["
           +:+ group_name +:+ "]: " +:+ message;
         rule 80;
         "✅ End of group chat history (" +:+ pretty 1 +:+ " messages)" ].
Proof.
  intros Hslash Hsys Hg Hlog Hwi Hwl. cbv zeta.
  rewrite (create_group_run σ admin_name group_name Hg), Hwi. cbn [fst snd].
  set (σ1 := with_files _ _).
  assert (Hg1 : Dict.get group_name (groups σ1) = Some {[admin_name]})
    by (subst σ1; simpl; now apply get_app_new).
  assert (Hin : admin_name ∈ ({[admin_name]} : gset string))
    by now apply elem_of_singleton.
  assert (E : exists σ2,
             send_group_message message group_name admin_name σ1 =
               (Ok ("Message sent to " +:+ pretty 0 +:+ " group members"), σ2)
             /\ files σ2 =
                  <[group_log group_name :=
                      FJson (JArr [chat_entry (clock (S (ticks σ))) admin_name
                                     group_name message "group"])]> (files σ1)).
  { rewrite (send_group_message_run σ1 message group_name admin_name _ Hg1
               (or_intror Hin)).
    cbv zeta. apply String.eqb_neq in Hsys. rewrite Hsys.
    rewrite set_iter_singleton.
    replace (recipients (client_names σ1) admin_name [admin_name])
      with (@nil Sock).
    2:{ cbn [recipients]. destruct (Dict.get admin_name (client_names σ1));
          [now rewrite String.eqb_refl | reflexivity]. }
    cbn [fan delivered List.filter length].
    unfold bind at 1. rewrite save_chat_history_run. cbv zeta.
    cbn [log_filename String.eqb Ascii.eqb Bool.eqb].
    simpl (files _). simpl (ticks _).
    rewrite (lookup_insert_ne _ _ _ _
               (not_eq_sym (group_files_differ group_name))).
    rewrite Hlog. cbn [history_of]. rewrite Hwl.
    eexists. split; reflexivity. }
  destruct E as (σ2 & -> & Hfiles). cbn [fst snd]. split; [reflexivity|].
  rewrite Hfiles. subst σ1. simpl (files _).
  destruct (viewer_reads_group_files group_name Hslash) as [P1 P2].
  unfold view_group_chat. rewrite P1, P2, lookup_insert_eq.
  cbn [truthy negb].
  rewrite (lookup_insert_ne _ _ _ _ (group_files_differ group_name)).
  rewrite lookup_insert_eq. cbn [truthy].
  rewrite (info_lines_written group_name admin_name [admin_name]).
  cbn [and_then py_len iterate length format_all].
  unfold chat_entry, hash_message.
  rewrite format_message_entry, !String.eqb_refl.
  reflexivity.
Qed.
End GroupViewer.

(** ** The theorems at work on runs of the server *)

Ltac by_decide := apply (bool_decide_unpack _); vm_compute; exact I.

Lemma group_registry_invariant_witness :
  let σ := run (H:=calm) (OpCreateGroup "alice" "g1") init in
  reachable (H:=calm) σ
  /\ Dict.get "g1" (groups σ) = Some {["alice"]}
  /\ ((exists a, Dict.get "g1" (group_admins σ) = Some a /\ a ∈ ({["alice"]} : gset string))
      /\ ({["alice"]} : gset string) <> ∅)
  /\ (let σ' := (leave_group (H:=calm) "alice" "g1" σ).2 in
      Dict.get "g1" (groups σ') = None
      /\ Dict.get "g1" (group_admins σ') = None
      /\ files σ' !! group_info_file "g1" = None).
Proof.
  intros σ.
  assert (Hr : reachable (H:=calm) σ)
    by (apply (reach_step (H:=calm)); [apply reach_init | exact I]).
  assert (Hg : Dict.get "g1" (groups σ) = Some {["alice"]}) by reflexivity.
  destruct (group_registry_invariant (H:=calm) σ Hr) as [Hinv Hlast].
  split; [exact Hr|]. split; [exact Hg|]. split; [exact (Hinv _ _ Hg)|].
  apply (Hlast "alice" "g1" {["alice"]} Hg).
  - by_decide.
  - by_decide.
Defined.

(** C2, as stated, fails: a log that is not JSON makes [save_chat_history]
    raise, and no fresh array is written. *)
Lemma corrupted_log_raises :
  let r := save_chat_history (H:=calm) "alice" "bob" "hi" "direct" corrupted_log in
  files corrupted_log !! log_filename "alice" "bob" "direct" = Some (FCorrupt "[{")
  /\ r.1 = Raise JSONDecodeError
  /\ files r.2 !! log_filename "alice" "bob" "direct" = Some (FCorrupt "[{").
Proof. intros r. repeat split; vm_compute; reflexivity. Qed.

Lemma save_chat_history_on_read_witness :
  (files three_online !! log_filename "alice" "bob" "direct" = None
   /\ unwritable (Env:=calm) (log_filename "alice" "bob" "direct") = false
   /\ let r := save_chat_history (H:=calm) "alice" "bob" "hi" "direct" three_online in
      r.1 = Ok tt
      /\ files r.2 =
           <[log_filename "alice" "bob" "direct" :=
               FJson (JArr [chat_entry (clock (Env:=calm) 0) "alice" "bob" "hi" "direct"])]>
             (files three_online))
  /\ (files corrupted_log !! log_filename "alice" "bob" "direct" = Some (FCorrupt "[{")
      /\ let r := save_chat_history (H:=calm) "alice" "bob" "hi" "direct" corrupted_log in
         r.1 = Raise JSONDecodeError /\ files r.2 = files corrupted_log).
Proof.
  destruct (save_chat_history_on_read (H:=calm) three_online "alice" "bob" "hi" "direct")
    as [H1 _].
  destruct (save_chat_history_on_read (H:=calm) corrupted_log "alice" "bob" "hi" "direct")
    as [_ H2].
  split.
  - split; [reflexivity|]. split; [reflexivity|]. apply H1; reflexivity.
  - split; [reflexivity|]. apply (H2 "[{"). reflexivity.
Defined.

(** C3, as stated, fails: the send to bob fails, carol is still registered
    after the call, and nothing was sent to her: the loop has ended with
    [RuntimeError]. *)
Lemma broadcast_aborted_by_failed_send :
  let r := broadcast_message (H:=bob_down) "hi" 1 three_online in
  EvSend SPublic 2 "alice: hi" false ∈ emitted three_online r.2
  /\ Dict.get 3 (clients r.2) = Some "carol"
  /\ attempted SPublic 3 (emitted three_online r.2) = false
  /\ r.1 = Raise RuntimeError.
Proof. vm_compute. repeat split. left. Qed.

Lemma broadcast_drops_failed_recipient_witness :
  let r := broadcast_message (H:=bob_down) "hi" 1 three_online in
  EvSend SPublic 2 "alice: hi" false ∈ emitted three_online r.2
  /\ exists name,
       Dict.get 2 (clients three_online) = Some name
       /\ r.1 <> Raise BrokenPipeError
       /\ Dict.get 2 (clients r.2) = None
       /\ Dict.get name (client_names r.2) = None
       /\ (forall s, s ∈ Dict.keys (clients r.2) ->
             exists ok,
               EvSend SLeft s (name +:+ " has left the chat") ok
                 ∈ emitted three_online r.2).
Proof.
  intros r.
  assert (Hfail : EvSend SPublic 2 "alice: hi" false ∈ emitted three_online r.2)
    by (vm_compute; left).
  split; [exact Hfail|].
  exact (broadcast_drops_failed_recipient (H:=bob_down) three_online "hi" 1 2
           "alice: hi" Hfail).
Defined.

Lemma group_error_reply_dropped_witness :
  Str.split_space "nogroup hi" = ("nogroup", Some "hi")
  /\ Dict.get "nogroup" (groups three_online) = None
  /\ (let r := handle_message (H:=calm) 1 "alice" "#nogroup hi" three_online in
      (exists error,
         send_group_message (H:=calm) "hi" "nogroup" "alice" three_online
           = (Ok error, three_online)
         /\ (error = "Group 'nogroup' does not exist"
             \/ error = "You are not a member of group 'nogroup'"))
      /\ emitted three_online r.2 = [EvSend SEcho 1 "[nogroup] alice: hi" true]).
Proof.
  split; [reflexivity|]. split; [reflexivity|].
  apply (group_error_reply_dropped (H:=calm) three_online 1 "alice" "nogroup hi"
           "nogroup" "hi"); [reflexivity | left; reflexivity].
Defined.

(** C5, as stated, fails: bob has a session, the send to him fails, the
    sender gets an error and nothing is appended. *)
Lemma private_send_fails_with_active_target :
  let r := send_private_message (H:=bob_down) "hello" 1 "bob" three_online in
  Dict.get "bob" (client_names three_online) = Some 2
  /\ emitted three_online r.2 =
       [EvSend SPrivate 2 "[Private] alice: hello" false;
        EvSend SPrivateError 1 "Error: Could not send message to bob" true]
  /\ files r.2 = files three_online.
Proof. vm_compute. repeat split. Qed.

Lemma send_private_message_outcomes_witness :
  Dict.get "bob" (client_names three_online) = Some 2
  /\ send_fails (Env:=calm) 0 2 = false
  /\ send_fails (Env:=calm) 1 1 = false
  /\ history_of (files three_online !! conversation_log "alice" "bob") = Some []
  /\ unwritable (Env:=calm) (conversation_log "alice" "bob") = false
  /\ (let r := send_private_message (H:=calm) "hello" 1 "bob" three_online in
      r.1 = Ok tt
      /\ emitted three_online r.2 =
           [EvSend SPrivate 2 "[Private] alice: hello" true;
            EvSend SPrivateConfirm 1 "[Private to bob]: hello" true]
      /\ files r.2 =
           <[conversation_log "alice" "bob" :=
               FJson (JArr ([] ++ [chat_entry (clock (Env:=calm) 0) "alice" "bob"
                                     "hello" "direct"]))]>
             (files three_online)).
Proof.
  destruct (send_private_message_outcomes (H:=calm) three_online "hello" 1 "bob")
    as [_ Hsome].
  destruct (Hsome 2 eq_refl) as (_ & Hok & _).
  do 5 (split; [reflexivity|]).
  exact (Hok [] eq_refl eq_refl eq_refl eq_refl).
Defined.

Lemma session_names_unique_witness :
  let σ := run (H:=calm) (OpHandshake 1 "alice") init in
  reachable (H:=calm) σ
  /\ Dict.get 2 (clients σ) = None
  /\ Dict.mem (Str.strip "alice") (client_names σ) = true
  /\ send_fails (Env:=calm) (length (trace σ)) 2 = false
  /\ NoDup (map snd (clients σ))
  /\ (let r := handle_client (H:=calm) 2 [Data "alice"] σ in
      r.1 = Ok tt
      /\ clients r.2 = clients σ
      /\ client_names r.2 = client_names σ
      /\ emitted σ r.2 =
           [ EvSend SPrompt 2 "Enter your username: " true;
             EvSend SReject 2 "Username already taken. Please try again." true;
             EvClose 2; EvClose 2 ]).
Proof.
  intros σ.
  assert (Hr : reachable (H:=calm) σ)
    by (apply (reach_step (H:=calm)); [apply reach_init | reflexivity]).
  destruct (session_names_unique (H:=calm) σ Hr) as (_ & Hnd & Hreject).
  split; [exact Hr|]. do 3 (split; [reflexivity|]). split; [exact Hnd|].
  exact (Hreject 2 "alice" [] eq_refl eq_refl eq_refl).
Defined.

(** The run of C6 on a server that has just started: alice connects on
    socket 1 and bo/b on socket 2; alice sends [hi], the log of alice and
    bo/b cannot be written, and bo/b is taken out of the registry with its
    thread still in its loop (the thread of alice ends on the changed
    dictionary). A connection on socket 3 then proposes bo/b and gets it,
    and socket 2 goes on acting under the name. *)
Lemma deregistered_name_taken_again_witness :
  let p := after_public_hi in
  let p' := step (H:=flat_logs) (Accept 3 (Data "bo/b")) p in
  Dict.get 2 (served p) = Some "bo/b"
  /\ Dict.get "bo/b" (client_names (state p)) = None
  /\ Dict.get 3 (served p) = None
  /\ Dict.get 3 (clients (state p)) = None
  /\ Str.strip "bo/b" = "bo/b"
  /\ (forall t, send_fails (Env:=flat_logs) t 3 = false)
  /\ served p' = [(2, "bo/b"); (3, "bo/b")]
  /\ ~ NoDup (map snd (served p'))
  /\ Dict.get 3 (clients (state p')) = Some "bo/b"
  /\ (forall payload ok,
        EvSend SReject 3 payload ok ∉ emitted (state p) (state p'))
  /\ (EvClose 3 ∉ emitted (state p) (state p'))
  /\ group_admins
       (state (step (H:=flat_logs) (Turn 2 (Data "/creategroup g")) p'))
     = [("g", "bo/b")].
Proof.
  intros p p'.
  assert (Hserved : served p = [(2, "bo/b")]) by (vm_compute; reflexivity).
  assert (H1 : Dict.get 2 (served p) = Some "bo/b") by (vm_compute; reflexivity).
  assert (H2 : Dict.get "bo/b" (client_names (state p)) = None)
    by (vm_compute; reflexivity).
  assert (H3 : Dict.get 3 (served p) = None) by (vm_compute; reflexivity).
  assert (H4 : Dict.get 3 (clients (state p)) = None) by (vm_compute; reflexivity).
  assert (H5 : Str.strip "bo/b" = "bo/b") by (vm_compute; reflexivity).
  assert (H6 : forall t, send_fails (Env:=flat_logs) t 3 = false)
    by (intros t; reflexivity).
  destruct (deregistered_name_taken_again (H:=flat_logs) p 2 "bo/b" 3 "bo/b"
              H1 H2 H3 H4 H5 H6)
    as (Hs & _ & _ & _ & Hdup & Hreg & _ & Hrej & Hclose).
  fold p' in Hs, Hdup, Hreg, Hrej, Hclose. rewrite Hserved in Hs.
  split; [exact H1|]. split; [exact H2|]. split; [exact H3|].
  split; [exact H4|]. split; [exact H5|]. split; [exact H6|].
  split; [exact Hs|]. split; [exact Hdup|]. split; [exact Hreg|].
  split; [exact Hrej|]. split; [exact Hclose|].
  vm_compute. reflexivity.
Defined.

Lemma delivery_excludes_sender_witness :
  let σ := two_in_group (H:=bob_drops) in
  let left_notice := EvSend SLeft 1 "bob has left the chat" true in
  let group_message := EvSend SGroup 2 "[g1] alice: hi" false in
  reachable (H:=bob_drops) σ
  /\ left_notice ∈ emitted σ (broadcast_message (H:=bob_drops) "hi" 1 σ).2
  /\ to_socket 1 left_notice
  /\ (sent_from SLeft left_notice /\ ~ sent_from SPublic left_notice)
  /\ (forall n, Dict.get 1 (clients σ) = Some n -> n = "alice")
  /\ group_message ∈ emitted σ (send_group_message (H:=bob_drops) "hi" "g1" "alice" σ).2
  /\ ~ to_socket 1 group_message.
Proof.
  intros σ left_notice group_message.
  assert (Hr : reachable (H:=bob_drops) σ).
  { repeat (apply (reach_step (H:=bob_drops)); [|first [exact I | reflexivity]]).
    apply reach_init. }
  destruct (delivery_excludes_sender (H:=bob_drops) σ Hr) as [Hb Hg].
  assert (H1 : left_notice ∈ emitted σ (broadcast_message (H:=bob_drops) "hi" 1 σ).2)
    by (vm_compute; right; left).
  assert (H2 : forall n, Dict.get 1 (clients σ) = Some n -> n = "alice")
    by (intros n Hn; vm_compute in Hn; injection Hn as <-; reflexivity).
  assert (H3 : group_message
               ∈ emitted σ (send_group_message (H:=bob_drops) "hi" "g1" "alice" σ).2)
    by (vm_compute; left).
  split; [exact Hr|]. split; [exact H1|]. split; [reflexivity|].
  split; [exact (Hb "hi" 1 left_notice H1 eq_refl)|].
  split; [exact H2|]. split; [exact H3|].
  exact (Hg "hi" "g1" "alice" 1 group_message H2 H3).
Defined.



(** C10, as stated, fails: an add made within the second of the creation
    writes the creation timestamp again. *)
Lemma created_date_same_second :
  let σ1 := (create_group (H:=same_second) "alice" "g1" three_online).2 in
  let r := add_to_group (H:=same_second) "alice" "g1" "bob" σ1 in
  r.1 = Ok "User 'bob' added to group 'g1'"
  /\ files σ1 !! group_info_file "g1" ≫= created_date = Some "2024-05-01 10:00:00"
  /\ files r.2 !! group_info_file "g1" ≫= created_date = Some "2024-05-01 10:00:00".
Proof. vm_compute. repeat split. Qed.

Lemma created_date_is_last_write_witness :
  let σ1 := (create_group (H:=calm) "alice" "g1" three_online).2 in
  let r := add_to_group (H:=calm) "alice" "g1" "bob" σ1 in
  Dict.get "g1" (groups σ1) = Some {["alice"]}
  /\ Dict.get "g1" (group_admins σ1) = Some "alice"
  /\ Dict.get "bob" (client_names σ1) = Some 2
  /\ ("bob" ∉ ({["alice"]} : gset string))
  /\ unwritable (Env:=calm) (group_info_file "g1") = false
  /\ r.1 = Ok "User 'bob' added to group 'g1'"
  /\ files r.2 !! group_info_file "g1" ≫= created_date = Some (clock (Env:=calm) 1).
Proof.
  intros σ1 r.
  destruct (created_date_is_last_write (H:=calm) σ1) as (_ & Hadd & _).
  assert (Hnot : "bob" ∉ ({["alice"]} : gset string)) by by_decide.
  do 3 (split; [reflexivity|]). split; [exact Hnot|]. split; [reflexivity|].
  exact (Hadd "alice" "g1" "bob" {["alice"]} 2 eq_refl eq_refl eq_refl Hnot eq_refl).
Defined.

(** ** The further theorems at work *)

(** alice and bob connected, in that order. *)
Lemma two_online_reachable :
  reachable (H:=calm)
    (run (H:=calm) (OpHandshake 2 "bob") (run (H:=calm) (OpHandshake 1 "alice") init)).
Proof.
  apply (reach_step (H:=calm)); [|reflexivity].
  apply (reach_step (H:=calm)); [apply reach_init | reflexivity].
Qed.

Lemma two_in_group_reachable : reachable (H:=calm) (two_in_group (H:=calm)).
Proof.
  unfold two_in_group.
  apply (reach_step (H:=calm)); [|exact I].
  apply (reach_step (H:=calm)); [|exact I].
  apply two_online_reachable.
Qed.

Lemma remove_client_effect_witness :
  let σ := run (H:=calm) (OpHandshake 2 "bob")
             (run (H:=calm) (OpHandshake 1 "alice") init) in
  let r := remove_client (H:=calm) 1 σ in
  reachable (H:=calm) σ
  /\ r.1 = Ok tt
  /\ Dict.get 1 (clients r.2) = None
  /\ Dict.get "alice" (client_names r.2) = None
  /\ emitted σ r.2 = [EvSend SLeft 2 "alice has left the chat" true].
Proof.
  intros σ r.
  destruct (remove_client_effect (H:=calm) σ 1 two_online_reachable)
    as (H1 & _ & H3 & _).
  destruct (H3 "alice" eq_refl) as (H4 & H5 & _ & _ & H6 & _).
  split; [exact two_online_reachable|]. split; [exact H1|].
  split; [exact H4|]. split; [exact H5|]. exact H6.
Defined.

Lemma handshake_registers_witness :
  let r := handshake (H:=calm) 1 "  alice  " init in
  Dict.get 1 (clients init) = None
  /\ send_fails (Env:=calm) (length (trace init)) 1 = false
  /\ Dict.mem (Str.strip "  alice  ") (client_names init) = false
  /\ r.1 = Ok (Some "alice")
  /\ clients r.2 = [(1, "alice")]
  /\ client_names r.2 = [("alice", 1)].
Proof.
  intros r.
  destruct (handshake_registers (H:=calm) init 1 "  alice  "
              eq_refl eq_refl eq_refl) as (H1 & H2 & H3 & _).
  split; [reflexivity|]. split; [reflexivity|]. split; [reflexivity|].
  split; [exact H1|]. split; [exact H2 | exact H3].
Defined.

Lemma session_leaves_registry_as_found_witness :
  let σ := run (H:=calm) (OpHandshake 1 "alice") init in
  let r := handle_client (H:=calm) 2 [Data "bob"; Data "/quit now"] σ in
  Dict.get 2 (clients σ) = None
  /\ send_fails (Env:=calm) (length (trace σ)) 2 = false
  /\ Dict.mem (Str.strip "bob") (client_names σ) = false
  /\ Str.startswith "/quit" "/quit now" = true
  /\ r.1 = Ok tt
  /\ same_sessions σ r.2
  /\ emitted σ r.2 =
       [ EvSend SPrompt 2 "Enter your username: " true;
         EvSend SJoin 1 "bob has joined the chat" true;
         EvSend SWelcome 2 (welcome_msg "bob") true;
         EvSend SLeft 1 "bob has left the chat" true;
         EvClose 2 ].
Proof.
  intros σ r.
  assert (Hrest : forall message more,
             [Data "/quit now"] = Data message :: more ->
             message = EmptyString \/ Str.startswith "/quit" message = true).
  { intros message more Heq. injection Heq as <- _. right. reflexivity. }
  destruct (session_leaves_registry_as_found (H:=calm) σ 2 "bob"
              [Data "/quit now"] eq_refl eq_refl eq_refl Hrest)
    as (H1 & H2 & _ & H4).
  split; [reflexivity|]. split; [reflexivity|]. split; [reflexivity|].
  split; [reflexivity|]. split; [exact H1|]. split; [exact H2 | exact H4].
Defined.

Lemma send_group_message_delivery_witness :
  let σ := two_in_group (H:=calm) in
  let ms : gset string := {["alice"]} ∪ {["bob"]} in
  let r := send_group_message (H:=calm) "hi" "g1" "alice" σ in
  Dict.get "g1" (groups σ) = Some ms
  /\ "alice" ∈ ms
  /\ "alice" <> "SYSTEM"
  /\ emitted σ r.2 = [EvSend SGroup 2 "[g1] alice: hi" true]
  /\ r.1 = Ok "Message sent to 1 group members".
Proof.
  intros σ ms r.
  assert (Hg : Dict.get "g1" (groups σ) = Some ms) by reflexivity.
  assert (Hin : "alice" ∈ ms) by by_decide.
  assert (Hne : "alice" <> "SYSTEM") by discriminate.
  destruct (send_group_message_delivery (H:=calm) σ "hi" "g1" "alice" ms Hg Hin Hne)
    as (H1 & _ & _ & _ & H5).
  split; [exact Hg|]. split; [exact Hin|]. split; [exact Hne|].
  split; [exact H1|]. exact (proj1 (H5 [] eq_refl eq_refl)).
Defined.

Lemma system_sender_unchecked_witness :
  let σ := two_in_group (H:=calm) in
  let r := send_group_message (H:=calm) "hello" "g1" "SYSTEM" σ in
  Dict.get "g1" (groups σ) = Some ({["alice"]} ∪ {["bob"]})
  /\ r.1 = Ok "Message sent to 2 group members"
  /\ emitted σ r.2 =
       [EvSend SGroup 1 "[g1] hello" true; EvSend SGroup 2 "[g1] hello" true]
  /\ files r.2 = files σ.
Proof.
  intros σ r.
  destruct (system_sender_unchecked (H:=calm) σ "hello" "g1"
              ({["alice"]} ∪ {["bob"]}) eq_refl) as (H1 & H2 & H3 & _).
  split; [reflexivity|]. split; [exact H1|]. split; [exact H2 | exact H3].
Defined.

Lemma leave_group_succession_witness :
  let σ := two_in_group (H:=calm) in
  let ms : gset string := {["alice"]} ∪ {["bob"]} in
  let r := leave_group (H:=calm) "alice" "g1" σ in
  Dict.get "g1" (groups σ) = Some ms
  /\ Dict.get "g1" (group_admins σ) = Some "alice"
  /\ "alice" ∈ ms
  /\ ms ∖ {["alice"]} <> ∅
  /\ exists new_admin,
       group_admins r.2 = Dict.set "g1" new_admin (group_admins σ)
       /\ new_admin ∈ ms ∖ {["alice"]}
       /\ new_admin <> "alice".
Proof.
  intros σ ms r.
  assert (Hg : Dict.get "g1" (groups σ) = Some ms) by reflexivity.
  assert (Ha : Dict.get "g1" (group_admins σ) = Some "alice") by reflexivity.
  assert (Hin : "alice" ∈ ms) by by_decide.
  assert (Hrem : ms ∖ {["alice"]} <> ∅) by by_decide.
  destruct (leave_group_succession (H:=calm) σ "alice" "g1" ms "alice"
              Hg Ha Hin Hin Hrem) as (_ & _ & new_admin & H1 & H2 & H3 & _).
  split; [exact Hg|]. split; [exact Ha|]. split; [exact Hin|].
  split; [exact Hrem|]. exists new_admin. split; [exact H1|].
  split; [exact H2 | exact H3].
Defined.

Lemma listings_read_only_witness :
  let σ := two_in_group (H:=calm) in
  reachable (H:=calm) σ
  /\ (exists text, list_groups "bob" σ = (Ok text, σ))
  /\ (exists text, list_group_members (H:=calm) "bob" "g1" σ = (Ok text, σ)).
Proof.
  intros σ.
  destruct (listings_read_only (H:=calm) σ "bob" "g1" two_in_group_reachable)
    as (H1 & H2 & _).
  split; [exact two_in_group_reachable|]. split; [exact H1 | exact H2].
Defined.

Lemma private_line_parsed_witness :
  no_space "bob" = true
  /\ handle_message (H:=calm) 1 "alice" "@bob hello there" three_online =
       (send_private_message (H:=calm) "hello there" 1 "bob" ;; ret Continue)
         three_online.
Proof.
  split; [reflexivity|].
  exact (proj1 (private_line_parsed (H:=calm) three_online 1 "alice" "bob" eq_refl)
           "hello there").
Defined.

Lemma spaced_name_unreachable_witness :
  let σ := run (H:=calm) (OpHandshake 2 "john doe")
             (run (H:=calm) (OpHandshake 1 "alice") init) in
  reachable (H:=calm) σ
  /\ Dict.get 2 (clients σ) = Some "john doe"
  /\ no_space "john doe" = false
  /\ forall payload ok,
       EvSend SPrivate 2 payload ok
         ∉ emitted σ (handle_message (H:=calm) 1 "alice" "@john doe hi" σ).2.
Proof.
  intros σ.
  assert (Hr : reachable (H:=calm) σ).
  { apply (reach_step (H:=calm)); [|reflexivity].
    apply (reach_step (H:=calm)); [apply reach_init | reflexivity]. }
  split; [exact Hr|]. split; [reflexivity|]. split; [reflexivity|].
  exact (spaced_name_unreachable (H:=calm) σ 1 "alice" "@john doe hi" 2 "john doe"
           Hr eq_refl eq_refl).
Defined.

Lemma calm_sends : forall t s, send_fails (Env:=calm) t s = false.
Proof. reflexivity. Qed.

Lemma calm_writes : forall p, unwritable (Env:=calm) p = false.
Proof. reflexivity. Qed.

Lemma no_logs_readable sender_name (sender_socket : Sock) :
  forall (cs : Sock) (cn : string),
    (cs, cn) ∈ clients three_online -> cs <> sender_socket ->
    is_Some (history_of (files three_online !! conversation_log sender_name cn)).
Proof. intros cs cn _ _. exists []. reflexivity. Qed.

Lemma broadcast_message_delivers_witness :
  let r := broadcast_message (H:=calm) "hi" 1 three_online in
  (forall t s, send_fails (Env:=calm) t s = false)
  /\ (forall p, unwritable (Env:=calm) p = false)
  /\ r.1 = Ok tt
  /\ emitted three_online r.2 =
       [EvSend SPublic 2 "alice: hi" true; EvSend SPublic 3 "alice: hi" true]
  /\ same_sessions three_online r.2.
Proof.
  intros r.
  destruct (broadcast_message_delivers (H:=calm) three_online "hi" 1
              calm_sends calm_writes (no_logs_readable _ _))
    as (H1 & H2 & H3 & _).
  split; [exact calm_sends|]. split; [exact calm_writes|].
  split; [exact H1|]. split; [exact H2 | exact H3].
Defined.

Lemma unmatched_line_is_broadcast_witness :
  let r := handle_message (H:=calm) 1 "alice" "/help" three_online in
  "/help" <> EmptyString
  /\ forallb (fun p => negb (Str.startswith p "/help")) command_prefixes = true
  /\ r.1 = Ok Continue
  /\ emitted three_online r.2 =
       [EvSend SPublic 2 "alice: /help" true; EvSend SPublic 3 "alice: /help" true].
Proof.
  intros r.
  assert (Hne : "/help" <> EmptyString) by discriminate.
  destruct (unmatched_line_is_broadcast (H:=calm) three_online 1 "alice" "/help"
              Hne eq_refl calm_sends calm_writes (no_logs_readable _ _))
    as (H1 & H2).
  split; [exact Hne|]. split; [reflexivity|]. split; [exact H1 | exact H2].
Defined.

Lemma broadcast_unsaved_drops_recipient_witness :
  let r := broadcast_message (H:=calm) "hi" 1 corrupted_log in
  NoDup (Dict.keys (clients corrupted_log))
  /\ clients corrupted_log = [(1, "alice")] ++ (2, "bob") :: [(3, "carol")]
  /\ history_of (files corrupted_log !! conversation_log "alice" "bob") = None
  /\ r.1 = Raise RuntimeError
  /\ clients r.2 = [(1, "alice"); (3, "carol")]
  /\ emitted corrupted_log r.2 =
       [ EvSend SPublic 2 "alice: hi" true;
         EvSend SLeft 1 "bob has left the chat" true;
         EvSend SLeft 3 "bob has left the chat" true ].
Proof.
  intros r.
  assert (Hnd : NoDup (Dict.keys (clients corrupted_log))) by by_decide.
  assert (Hpre : forall (s : Sock) (n : string), (s, n) ∈ [(1, "alice")] -> s = 1).
  { intros s n Hin. apply list_elem_of_singleton in Hin. now injection Hin. }
  assert (Hne : 2 <> 1) by discriminate.
  destruct (broadcast_unsaved_drops_recipient (H:=calm) corrupted_log "hi" 1
              [(1, "alice")] 2 "bob" [(3, "carol")]
              Hnd eq_refl Hpre Hne eq_refl (or_introl eq_refl))
    as (H1 & H2 & _ & H4 & _).
  split; [exact Hnd|]. split; [reflexivity|]. split; [reflexivity|].
  split; [exact H1|]. split; [exact H2 | exact H4].
Defined.

Lemma conversation_log_collision_witness :
  Str.lt "c" ("a" +:+ "_" +:+ "b") = false
  /\ Str.lt ("b" +:+ "_" +:+ "c") "a" = false
  /\ conversation_log "a_b" "c" = conversation_log "a" "b_c".
Proof.
  split; [reflexivity|]. split; [reflexivity|].
  exact (proj1 (conversation_log_collision "a" "b" "c" eq_refl eq_refl)).
Defined.

Lemma conversation_accumulates_witness :
  let r1 := save_chat_history (H:=calm) "alice" "bob" "hi" "direct" three_online in
  let r2 := save_chat_history (H:=calm) "bob" "alice" "yo" "direct" r1.2 in
  history_of (files three_online !! conversation_log "alice" "bob") = Some []
  /\ unwritable (Env:=calm) (conversation_log "alice" "bob") = false
  /\ r2.1 = Ok tt
  /\ files r2.2 !! conversation_log "alice" "bob" =
       Some (FJson (JArr
         [ chat_entry "2024-05-01 10:00:00" "alice" "bob" "hi" "direct";
           chat_entry "2024-05-01 10:00:01" "bob" "alice" "yo" "direct" ])).
Proof.
  intros r1 r2.
  destruct (conversation_accumulates (H:=calm) three_online "alice" "bob" "hi" "yo"
              [] eq_refl eq_refl) as (_ & H2 & H3 & _).
  split; [reflexivity|]. split; [reflexivity|]. split; [exact H2 | exact H3].
Defined.

(** A log whose only element is a number. *)
Lemma view_direct_chat_all_or_nothing_witness :
  let fs : gmap string file :=
    {[ "server_logs/alice_bob_conversation.json" := FJson (JArr [JNum 7]) ]} in
  fs !! direct_chat_path "bob" "alice" = Some (FJson (JArr [JNum 7]))
  /\ [JNum 7] <> []
  /\ view_direct_chat (H:=terse) fs "bob" "alice" false =
       [ "❌ Error reading chat file: error" ].
Proof.
  intros fs.
  assert (Hf : fs !! direct_chat_path "bob" "alice" = Some (FJson (JArr [JNum 7])))
    by reflexivity.
  assert (Hne : [JNum 7] <> []) by discriminate.
  destruct (view_direct_chat_all_or_nothing (H:=terse) fs "bob" "alice" [JNum 7]
              Hf Hne) as (_ & H2).
  split; [exact Hf|]. split; [exact Hne|]. exact (H2 (JNum 7) eq_refl).
Defined.

Lemma view_direct_chat_after_append_witness :
  let r := save_chat_history (H:=calm) "alice" "bob" "hi" "direct" three_online in
  Str.startswith "/" (Str.sorted2 "alice" "bob").1 = false
  /\ history_of (files three_online !! conversation_log "alice" "bob") = Some []
  /\ unwritable (Env:=calm) (conversation_log "alice" "bob") = false
  /\ format_all (H:=terse) [] false = inr []
  /\ view_direct_chat (H:=terse) (files r.2) "bob" "alice" false =
       [ "💬 Chat History: bob ↔ alice";
         "📅 Total messages: 1";
         rule 80;
         "[2024-05-01 10:00:00] ✓ alice → bob: hi";
         rule 80;
         "✅ End of chat history (1 messages)" ].
Proof.
  intros r.
  destruct (view_direct_chat_after_append (H:=terse) (H0:=calm) three_online
              "alice" "bob" "hi" [] [] eq_refl eq_refl eq_refl eq_refl)
    as (_ & _ & H3).
  split; [reflexivity|]. split; [reflexivity|]. split; [reflexivity|].
  split; [reflexivity|]. exact H3.
Defined.

Lemma view_group_chat_after_create_witness :
  let r1 := create_group (H:=calm) "alice" "g1" three_online in
  let r2 := send_group_message (H:=calm) "hi" "g1" "alice" r1.2 in
  Str.startswith "/" "g1" = false
  /\ "alice" <> "SYSTEM"
  /\ Dict.get "g1" (groups three_online) = None
  /\ files three_online !! group_log "g1" = None
  /\ view_group_chat (H:=terse) (files r2.2) "g1" false =
       [ "👥 Group Chat History: g1";
         "👑 Admin: alice";
         "👤 Members: alice";
         "📅 Created: 2024-05-01 10:00:00";
         "💬 Total messages: 1";
         rule 80;
         "[2024-05-01 10:00:01] ✓ alice → [g1]: hi";
         rule 80;
         "✅ End of group chat history (1 messages)" ].
Proof.
  intros r1 r2.
  assert (Hne : "alice" <> "SYSTEM") by discriminate.
  destruct (view_group_chat_after_create (H:=terse) (H0:=calm) three_online
              "alice" "g1" "hi" eq_refl Hne eq_refl eq_refl eq_refl eq_refl)
    as (_ & H2).
  split; [reflexivity|]. split; [exact Hne|]. split; [reflexivity|].
  split; [reflexivity|]. exact H2.
Defined.
